(** * EchoSignal article ingestion: extraction strategies, dispatcher,
      committer and batch orchestrator

    A shallow embedding of [articles/parsers/*.py], of the model logic
    of [articles/models.py] they rely on and of the code that calls them
    or reads what they store ([articles/admin.py], [articles/views.py],
    the management command), followed by the properties of the design
    document that are stated about them and by further properties of the
    code.

    Conventions of the embedding:
    - a Python [str] is the list of its code points ([Py.str]);
    - the parsed page is a tree of tags and strings ([Bs4.PageElement]);
    - the relational store is a record of tables with the unique
      constraints of [models.py]; every ORM call is a step that either
      performs its statement or raises;
    - [try ... except Exception] is a handler on a result type. *)

From Stdlib Require Import List NArith Arith Bool Ascii String Lia.
Import ListNotations.

Set Implicit Arguments.

(* ===================================================================== *)
(** ** Python strings *)
(* ===================================================================== *)

Module Py.

(** A [str] is a sequence of Unicode code points. *)
Definition str := list N.

Definition byte_of (a : ascii) : N := N_of_ascii a.

(** UTF-8 decoder, used to write the literals of the source (some of
    them Cyrillic) as they appear in the Python files. [need] is the
    number of continuation bytes still expected, [acc] the code point
    being assembled. *)
Fixpoint utf8_go (s : string) (need : nat) (acc : N) : str :=
  match s with
  | EmptyString => []
  | String a rest =>
      let b := byte_of a in
      match need with
      | O =>
          if (b <? 128)%N then b :: utf8_go rest 0 0%N
          else if (b <? 224)%N then utf8_go rest 1 (N.land b 31)
          else if (b <? 240)%N then utf8_go rest 2 (N.land b 15)
          else utf8_go rest 3 (N.land b 7)
      | S n =>
          let acc' := (acc * 64 + N.land b 63)%N in
          match n with
          | O => acc' :: utf8_go rest 0 0%N
          | S _ => utf8_go rest n acc'
          end
      end
  end.

Definition u (s : string) : str := utf8_go s 0 0%N.

Definition eqb (a b : str) : bool :=
  if list_eq_dec N.eq_dec a b then true else false.

(** Truthiness of a string: [if s:] holds for the non-empty ones. *)
Definition truthy (s : str) : bool :=
  match s with [] => false | _ :: _ => true end.

(** [str.isspace] for one character, which is also what [\s] matches in
    a [str] pattern (Py_UNICODE_ISSPACE). *)
Definition isspace (c : N) : bool :=
  ((9 <=? c) && (c <=? 13) || (28 <=? c) && (c <=? 32)
   || (c =? 133) || (c =? 160) || (c =? 5760)
   || (8192 <=? c) && (c <=? 8202)
   || (c =? 8232) || (c =? 8233) || (c =? 8239) || (c =? 8287)
   || (c =? 12288))%N.

Fixpoint lstrip (s : str) : str :=
  match s with
  | c :: rest => if isspace c then lstrip rest else s
  | [] => []
  end.

Definition rstrip (s : str) : str := rev (lstrip (rev s)).

(** [s.strip()] *)
Definition strip (s : str) : str := rstrip (lstrip s).

(** [sep.join(parts)] *)
Fixpoint join (sep : str) (parts : list str) : str :=
  match parts with
  | [] => []
  | [p] => p
  | p :: rest => p ++ sep ++ join sep rest
  end.

Fixpoint startswith (s prefix : str) : bool :=
  match prefix, s with
  | [], _ => true
  | p :: prefix', c :: s' => (p =? c)%N && startswith s' prefix'
  | _ :: _, [] => false
  end.

(** [needle in hay] for two strings. *)
Fixpoint contains (needle hay : str) : bool :=
  startswith hay needle ||
  match hay with
  | [] => false
  | _ :: hay' => contains needle hay'
  end.

(** The lower-case form of one character, as far as this program can
    observe it. Every test of the program compares lower-cased page text
    with ASCII letters, and the only characters whose lower-case form
    contains an ASCII letter are A-Z, U+0130 (which lowers to [i]
    followed by U+0307) and U+212A (the Kelvin sign, which lowers to
    [k]). Other cased characters lower to characters outside ASCII and
    are kept as they are. *)
Definition lower_char (c : N) : str :=
  if ((65 <=? c) && (c <=? 90))%N then [(c + 32)%N]
  else if (c =? 304)%N then [105%N; 775%N]
  else if (c =? 8490)%N then [107%N]
  else [c].

(** [s.lower()] *)
Definition lower (s : str) : str := flat_map lower_char s.

(** [s[:n]] *)
Definition slice_to {A} (n : nat) (l : list A) : list A := firstn n l.

End Py.

(* ===================================================================== *)
(** ** The regular expressions of the source *)
(* ===================================================================== *)

Module Re.
Import Py.

(** One-character matchers: a literal, or a class such as [[A-Za-z]],
    [\d] or [\s]. *)
Inductive atom :=
| Lit (c : N)
| Cls (p : N -> bool).

(** The fragment of [re] syntax the source uses. Repetition is always
    applied to a single character in the source ([\s+], [\d{1,2}],
    [,?], [ ?]); it is greedy, [hi = None] meaning unbounded. *)
Inductive regex :=
| Eps
| Atom (a : atom)
| Cat (r1 r2 : regex)
| Alt (r1 r2 : regex)
| Rep (a : atom) (lo : nat) (hi : option nat)
| Grp (n : nat) (r : regex).

(** Simple lower-case mapping of a character, exact on the characters
    that map to ASCII (see [Py.lower_char]). *)
Definition tolower (c : N) : N :=
  if ((65 <=? c) && (c <=? 90))%N then (c + 32)%N
  else if (c =? 304)%N then 105%N
  else if (c =? 8490)%N then 107%N
  else c.

(** A literal under [re.I]: the text character matches when its simple
    lower-case form is the pattern's, or is the extra equivalent the
    [re] module keeps for [i] (dotless i, U+0131) and [s] (long s,
    U+017F). *)
Definition lit_matches (I : bool) (p c : N) : bool :=
  if I then
    let lo := tolower p in
    let lc := tolower c in
    ((lc =? lo) || (lo =? 105) && (lc =? 305) || (lo =? 115) && (lc =? 383))%N
  else (p =? c)%N.

Definition atom_ok (I : bool) (a : atom) (c : N) : bool :=
  match a with
  | Lit p => lit_matches I p c
  | Cls f => f c
  end.

(** Captured groups of a match, most recent first. *)
Definition groups := list (nat * str).

Section Matcher.
Variable I : bool.
Variable R : Type.

(** Greedy bounded repetition with backtracking: take one more
    character when allowed, and give it back when the rest of the
    pattern then fails. *)
Fixpoint rep (a : atom) (lo : nat) (hi : option nat) (s : str)
         (k : str -> option R) {struct s} : option R :=
  let stop := match lo with O => k s | S _ => None end in
  match s with
  | c :: s' =>
      if atom_ok I a c && match hi with Some O => false | _ => true end
      then match rep a (pred lo) (option_map pred hi) s' k with
           | Some x => Some x
           | None => stop
           end
      else stop
  | [] => stop
  end.

(** Backtracking matcher in continuation-passing style: [k] is the
    rest of the pattern, applied to the unread text and the groups. *)
Fixpoint mtch (r : regex) (s : str) (gs : groups)
         (k : str -> groups -> option R) {struct r} : option R :=
  match r with
  | Eps => k s gs
  | Atom a =>
      match s with
      | c :: s' => if atom_ok I a c then k s' gs else None
      | [] => None
      end
  | Cat r1 r2 => mtch r1 s gs (fun s1 gs1 => mtch r2 s1 gs1 k)
  | Alt r1 r2 =>
      match mtch r1 s gs k with
      | Some x => Some x
      | None => mtch r2 s gs k
      end
  | Rep a lo hi => rep a lo hi s (fun s1 => k s1 gs)
  | Grp n r1 =>
      mtch r1 s gs
           (fun s1 gs1 =>
              k s1 ((n, firstn (List.length s - List.length s1) s) :: gs1))
  end.
End Matcher.

(** [re.match(r, s)]: the groups of the match anchored at the start. *)
Definition match_here (I : bool) (r : regex) (s : str) : option groups :=
  mtch I r s [] (fun _ gs => Some gs).

(** [re.search(r, s)]: leftmost match. *)
Fixpoint search (I : bool) (r : regex) (s : str) : option groups :=
  match match_here I r s with
  | Some gs => Some gs
  | None =>
      match s with
      | [] => None
      | _ :: s' => search I r s'
      end
  end.

(** [m.group(n)] *)
Fixpoint group (n : nat) (gs : groups) : option str :=
  match gs with
  | [] => None
  | (m, v) :: rest => if Nat.eqb m n then Some v else group n rest
  end.

(** Truthiness of the result of [re.search]. *)
Definition found (m : option groups) : bool :=
  match m with Some _ => true | None => false end.

(** A run of literal characters. *)
Fixpoint lits (s : str) : regex :=
  match s with
  | [] => Eps
  | c :: rest => Cat (Atom (Lit c)) (lits rest)
  end.

Definition lit (s : string) : regex := lits (u s).

(** [a|b|...] *)
Fixpoint alts (rs : list regex) : regex :=
  match rs with
  | [] => Eps
  | [r] => r
  | r :: rest => Alt r (alts rest)
  end.

Fixpoint cats (rs : list regex) : regex :=
  match rs with
  | [] => Eps
  | [r] => r
  | r :: rest => Cat r (cats rest)
  end.

Definition plus (a : atom) : regex := Rep a 1 None.
Definition opt (a : atom) : regex := Rep a 0 (Some 1).
Definition times (a : atom) (lo hi : nat) : regex := Rep a lo (Some hi).

Definition az (c : N) : bool :=
  ((65 <=? c) && (c <=? 90) || (97 <=? c) && (c <=? 122))%N.

Definition chr (s : string) : N :=
  match u s with c :: _ => c | [] => 0%N end.

(** State of the scan of [re.split(r'(?<=[.!?])\s+', text)]: inside a
    piece, remembering whether the previous character was one of
    [.!?]; or inside a separator. *)
Inductive split_state := Inside (after_mark : bool) | Separator.

Definition is_end_mark (c : N) : bool :=
  ((c =? 46) || (c =? 33) || (c =? 63))%N.

(** [cur] is the current piece, reversed. A separator starts at a
    whitespace character that directly follows an end mark and extends
    over the whole whitespace run. *)
Fixpoint split_go (s : str) (cur : str) (st : split_state) : list str :=
  match s with
  | [] => [rev cur]
  | c :: s' =>
      match st with
      | Inside after_mark =>
          if after_mark && isspace c
          then rev cur :: split_go s' [] Separator
          else split_go s' (c :: cur) (Inside (is_end_mark c))
      | Separator =>
          if isspace c then split_go s' [] Separator
          else split_go s' [c] (Inside (is_end_mark c))
      end
  end.

(** [re.split(r'(?<=[.!?])\s+', text)] *)
Definition split_sentences (text : str) : list str :=
  split_go text [] (Inside false).

(** [re.findall(r'\S+', text)], the way Beautiful Soup splits the value
    of a [class] attribute. *)
Fixpoint words_go (s : str) (cur : str) : list str :=
  match s with
  | [] => match cur with [] => [] | _ => [rev cur] end
  | c :: s' =>
      if isspace c
      then match cur with [] => words_go s' [] | _ => rev cur :: words_go s' [] end
      else words_go s' (c :: cur)
  end.

Definition words (text : str) : list str := words_go text [].

End Re.

(* ===================================================================== *)
(** ** The parsed page *)
(* ===================================================================== *)

Module Bs4.
Import Py.

(** A node of the tree Beautiful Soup builds: a string or a tag with
    its attributes (as written in the markup) and its children. *)
#[local] Set Warnings "-register-all".
Inductive PageElement :=
| NavigableString (s : str)
| Tag (name : str) (attrs : list (str * str)) (contents : list PageElement).

(** [tag.descendants]: every node below [e], in document order. *)
Fixpoint descendants (e : PageElement) : list PageElement :=
  match e with
  | NavigableString _ => []
  | Tag _ _ cs => flat_map (fun c => c :: descendants c) cs
  end.

(** [tag.text]: the strings below the tag, concatenated. *)
Fixpoint text (e : PageElement) : str :=
  match e with
  | NavigableString s => s
  | Tag _ _ cs => flat_map text cs
  end.

Definition is_tag (e : PageElement) : bool :=
  match e with Tag _ _ _ => true | NavigableString _ => false end.

Definition name_of (e : PageElement) : str :=
  match e with Tag n _ _ => n | NavigableString _ => [] end.

(** [tag.get(key)] *)
Fixpoint lookup (key : str) (attrs : list (str * str)) : option str :=
  match attrs with
  | [] => None
  | (k, v) :: rest => if Py.eqb k key then Some v else lookup key rest
  end.

Definition get (e : PageElement) (key : str) : option str :=
  match e with
  | Tag _ attrs _ => lookup key attrs
  | NavigableString _ => None
  end.

(** Does the tag name match the [name] argument of [find]? A list of
    names matches any of its members. *)
Definition name_in (names : list str) (e : PageElement) : bool :=
  is_tag e && existsb (Py.eqb (name_of e)) names.

(** [class_=re.compile(r, flags)]: the pattern is searched in each
    class of the tag and then in the whole attribute value; a tag
    without a [class] attribute does not match. *)
Definition class_matches (I : bool) (r : Re.regex) (e : PageElement) : bool :=
  match get e (u "class") with
  | None => false
  | Some v =>
      let classes := Re.words v in
      existsb (fun c => Re.found (Re.search I r c)) classes
      || Re.found (Re.search I r (join (u " ") classes))
  end.

(** [attrs={key: value}] with a string value. *)
Definition attr_is (key value : str) (e : PageElement) : bool :=
  match get e key with
  | Some v => Py.eqb v value
  | None => false
  end.

(** [soup.find_all(names, ...)] with an extra filter on the tag. *)
Definition find_all (soup : PageElement) (names : list str)
           (extra : PageElement -> bool) : list PageElement :=
  filter (fun e => name_in names e && extra e) (descendants soup).

(** [soup.find(names, ...)]: the first result of [find_all], or [None]. *)
Definition find (soup : PageElement) (names : list str)
           (extra : PageElement -> bool) : option PageElement :=
  hd_error (find_all soup names extra).

Definition any (_ : PageElement) : bool := true.

End Bs4.

(* ===================================================================== *)
(** ** Exceptions, results and the runtime the program is linked with *)
(* ===================================================================== *)

Module Lib.
Import Py.

(** The exceptions that occur in the modelled code. All of them derive
    from [Exception]. *)
Inductive exn :=
| AttributeError
| ValueError
| KeyError
| DoesNotExist
| MultipleObjectsReturned
| IntegrityError
| DatabaseError
| RequestException
| OtherError (tag : nat).

Inductive result (A : Type) :=
| Ok (a : A)
| Exc (e : exn).
Arguments Ok {A} a.
Arguments Exc {A} e.

(** Sequencing of code that may raise but has no other effect. *)
Definition rbind {A B} (r : result A) (k : A -> result B) : result B :=
  match r with
  | Ok a => k a
  | Exc e => Exc e
  end.

(** [try: body  except Exception: handler] around such code. *)
Definition try_except {A} (body : result A) (handler : A) : A :=
  match body with
  | Ok a => a
  | Exc _ => handler
  end.

(** Using an attribute of a value that may be [None]. *)
Definition deref {A} (o : option A) : result A :=
  match o with
  | Some a => Ok a
  | None => Exc AttributeError
  end.

(** [d[key]] on a dictionary entry that may be absent. *)
Definition item {A} (o : option A) : result A :=
  match o with
  | Some a => Ok a
  | None => Exc KeyError
  end.

Record date := { year : N; month : N; day : N }.

(** A point in time: the calendar date and the time within the day. *)
Record datetime := { date_part : date; time_part : N }.

(** Library functions the program calls and the embedding does not look
    into. [isdecimal] is the Unicode table behind [\d]; [strptime text
    format] is [datetime.strptime(text, format).date()], with [None] for
    the [ValueError] it raises on text that does not fit the format;
    [slugify] is [django.utils.text.slugify]. *)
Class Runtime := {
  isdecimal : N -> bool;
  strptime : str -> str -> option date;
  slugify : str -> str
}.

Definition strptime_date `{Runtime} (text format : str) : result date :=
  match strptime text format with
  | Some d => Ok d
  | None => Exc ValueError
  end.

(** Code with effects on a state [S] that may raise. When it raises,
    the state is the one reached at that point: nothing is undone. *)
Definition M (S A : Type) := S -> result A * S.

Definition ret {S A} (a : A) : M S A := fun s => (Ok a, s).

Definition raise {S A} (e : exn) : M S A := fun s => (Exc e, s).

Definition bind {S A B} (m : M S A) (k : A -> M S B) : M S B :=
  fun s =>
    match m s with
    | (Ok a, s') => k a s'
    | (Exc e, s') => (Exc e, s')
    end.

(** [try: m  except Exception as e: h e] *)
Definition try_catch {S A} (m : M S A) (h : exn -> M S A) : M S A :=
  fun s =>
    match m s with
    | (Ok a, s') => (Ok a, s')
    | (Exc e, s') => h e s'
    end.

Definition lift {S A} (r : result A) : M S A := fun s => (r, s).

Definition gets {S A} (f : S -> A) : M S A := fun s => (Ok (f s), s).

Definition modify {S} (f : S -> S) : M S unit := fun s => (Ok tt, f s).

(** [for x in xs: ys.append(f x)] *)
Fixpoint for_each {S A B} (f : A -> M S B) (xs : list A) : M S (list B) :=
  match xs with
  | [] => ret []
  | x :: rest =>
      bind (f x) (fun y => bind (for_each f rest) (fun ys => ret (y :: ys)))
  end.

End Lib.

Declare Scope py_scope.
Delimit Scope py_scope with py.
Notation "x <- m ;; k" := (Lib.bind m (fun x => k))
  (at level 61, m at next level, right associativity) : py_scope.
Notation "m ;;; k" := (Lib.bind m (fun _ => k))
  (at level 61, right associativity) : py_scope.
Notation "'let?' x := r 'in' k" := (Lib.rbind r (fun x => k))
  (at level 61, r at next level, right associativity) : py_scope.

(* ===================================================================== *)
(** ** articles/models.py on a relational store *)
(* ===================================================================== *)

Module Models.
Import Py Lib.
Local Open Scope py_scope.

(** *** Rows and instances *)

(** [Category] and [Tag] have the same fields and the same [save]. *)
Inductive kind := Category | Tag.

(** A saved [Category] or [Tag]. *)
Record Term := { term_id : N; name : str; slug : str }.

Definition STATUS_DRAFT : str := u "DRAFT".
Definition STATUS_PENDING : str := u "PENDING".
Definition STATUS_PUBLISHED : str := u "PUBLISHED".
Definition STATUS_REJECTED : str := u "REJECTED".

(** The columns of an article other than its key. The two timestamps
    maintained by the ORM are unset until the first save. *)
Record Fields := {
  title : str;
  source_name : str;
  original_url : option str;
  publication_date : option date;
  authors : str;
  summary : str;
  full_text_content : option str;
  status : str;
  added_by : option N;
  published_by : option N;
  created_at : option datetime;
  updated_at : option datetime;
  published_at : option datetime
}.

Record ArticleRow := { id : N; row : Fields }.

(** An [Article] instance: its key once it is saved, its field values
    and the status remembered by [__init__] and [save]. *)
Record Article := {
  pk : option N;
  fields : Fields;
  _original_status : option str
}.

Definition set_published_at (f : Fields) (v : option datetime) : Fields :=
  {| title := title f; source_name := source_name f;
     original_url := original_url f; publication_date := publication_date f;
     authors := authors f; summary := summary f;
     full_text_content := full_text_content f; status := status f;
     added_by := added_by f; published_by := published_by f;
     created_at := created_at f; updated_at := updated_at f;
     published_at := v |}.

Definition set_created_at (f : Fields) (v : option datetime) : Fields :=
  {| title := title f; source_name := source_name f;
     original_url := original_url f; publication_date := publication_date f;
     authors := authors f; summary := summary f;
     full_text_content := full_text_content f; status := status f;
     added_by := added_by f; published_by := published_by f;
     created_at := v; updated_at := updated_at f;
     published_at := published_at f |}.

Definition set_updated_at (f : Fields) (v : option datetime) : Fields :=
  {| title := title f; source_name := source_name f;
     original_url := original_url f; publication_date := publication_date f;
     authors := authors f; summary := summary f;
     full_text_content := full_text_content f; status := status f;
     added_by := added_by f; published_by := published_by f;
     created_at := created_at f; updated_at := v;
     published_at := published_at f |}.

Definition set_status (f : Fields) (v : str) : Fields :=
  {| title := title f; source_name := source_name f;
     original_url := original_url f; publication_date := publication_date f;
     authors := authors f; summary := summary f;
     full_text_content := full_text_content f; status := v;
     added_by := added_by f; published_by := published_by f;
     created_at := created_at f; updated_at := updated_at f;
     published_at := published_at f |}.

(** *** The store *)

(** The tables of the application, the two many-to-many link tables
    (article key, term key) and the key sequences. *)
Record DB := {
  categories : list Term;
  tags : list Term;
  articles : list ArticleRow;
  article_categories : list (N * N);
  article_tags : list (N * N);
  seq_category : N;
  seq_tag : N;
  seq_article : N
}.

(** The state the program runs in: the store; for each coming
    statement sent to the store, whether the backend fails on it
    ([faults], no entry meaning no failure); the time [timezone.now()]
    reads; and the answer of the web to the n-th request for a URL (the
    parsed page, or [None] when the request fails). *)
Record World := {
  db : DB;
  faults : list bool;
  clock : datetime;
  web : nat -> str -> option Bs4.PageElement;
  requests : nat
}.

Definition set_db (w : World) (d : DB) : World :=
  {| db := d; faults := faults w; clock := clock w; web := web w;
     requests := requests w |}.

Definition set_faults (w : World) (fs : list bool) : World :=
  {| db := db w; faults := fs; clock := clock w; web := web w;
     requests := requests w |}.

Definition set_requests (w : World) (n : nat) : World :=
  {| db := db w; faults := faults w; clock := clock w; web := web w;
     requests := n |}.

(** One statement reaches the backend: it goes through, or the backend
    fails with a [DatabaseError] (lost connection, rejected value, ...)
    and the statement has no effect. *)
Definition statement : M World unit :=
  fun w =>
    match faults w with
    | [] => (Ok tt, w)
    | false :: fs => (Ok tt, set_faults w fs)
    | true :: fs => (Exc DatabaseError, set_faults w fs)
    end.

Definition now : M World datetime := gets clock.

Definition table (k : kind) (d : DB) : list Term :=
  match k with Category => categories d | Tag => tags d end.

Definition sequence (k : kind) (d : DB) : N :=
  match k with Category => seq_category d | Tag => seq_tag d end.

Definition set_table (k : kind) (d : DB) (t : list Term) (next : N) : DB :=
  match k with
  | Category =>
      {| categories := t; tags := tags d; articles := articles d;
         article_categories := article_categories d;
         article_tags := article_tags d;
         seq_category := next; seq_tag := seq_tag d;
         seq_article := seq_article d |}
  | Tag =>
      {| categories := categories d; tags := t; articles := articles d;
         article_categories := article_categories d;
         article_tags := article_tags d;
         seq_category := seq_category d; seq_tag := next;
         seq_article := seq_article d |}
  end.

Definition set_articles (d : DB) (t : list ArticleRow) (next : N) : DB :=
  {| categories := categories d; tags := tags d; articles := t;
     article_categories := article_categories d;
     article_tags := article_tags d;
     seq_category := seq_category d; seq_tag := seq_tag d;
     seq_article := next |}.

Definition links (k : kind) (d : DB) : list (N * N) :=
  match k with Category => article_categories d | Tag => article_tags d end.

Definition set_links (k : kind) (d : DB) (l : list (N * N)) : DB :=
  match k with
  | Category =>
      {| categories := categories d; tags := tags d; articles := articles d;
         article_categories := l; article_tags := article_tags d;
         seq_category := seq_category d; seq_tag := seq_tag d;
         seq_article := seq_article d |}
  | Tag =>
      {| categories := categories d; tags := tags d; articles := articles d;
         article_categories := article_categories d; article_tags := l;
         seq_category := seq_category d; seq_tag := seq_tag d;
         seq_article := seq_article d |}
  end.

(** *** Category and Tag *)

Definition slug_max_length : nat := 110.

(** [Model.objects.get(slug=slug)] *)
Definition get (k : kind) (s : str) : M World Term :=
  statement ;;;
  d <- gets db ;;
  match filter (fun t => Py.eqb (slug t) s) (table k d) with
  | [] => raise DoesNotExist
  | [t] => ret t
  | _ :: _ :: _ => raise MultipleObjectsReturned
  end.

(** The INSERT behind the first save of a term. The key is drawn from
    the sequence, which moves on whether or not the row is accepted;
    [name] and [slug] are both [unique]. *)
Definition insert_term (k : kind) (nm sl : str) : M World Term :=
  statement ;;;
  d <- gets db ;;
  let t := {| term_id := sequence k d; name := nm; slug := sl |} in
  if existsb (fun r => Py.eqb (name r) nm || Py.eqb (slug r) sl) (table k d)
  then modify (fun w => set_db w (set_table k d (table k d) (sequence k d + 1))) ;;;
       raise IntegrityError
  else modify (fun w => set_db w (set_table k d (table k d ++ [t]) (sequence k d + 1))) ;;;
       ret t.

Section WithRuntime.
Context `{Runtime}.

(** [SlugMixin.save] on a new instance: the slug is generated from
    the name when it is empty and the name is not. *)
Definition SlugMixin_save (k : kind) (nm sl : str) : M World Term :=
  let sl' :=
    if negb (truthy sl) && truthy nm
    then slice_to slug_max_length (slugify nm)
    else sl in
  insert_term k nm sl'.

(** [Model.objects.create(name=, slug=)] *)
Definition create (k : kind) (nm sl : str) : M World Term :=
  SlugMixin_save k nm sl.

(** [Model.objects.get_or_create(slug=slug, defaults={'name': name})]:
    the row with this slug if there is one; otherwise a new row. When
    the insertion is refused the lookup is tried once more before the
    [IntegrityError] is raised again. *)
Definition get_or_create (k : kind) (sl nm : str) : M World (Term * bool) :=
  try_catch
    (t <- get k sl ;; ret (t, false))
    (fun e =>
       match e with
       | DoesNotExist =>
           try_catch
             (t <- create k nm sl ;; ret (t, true))
             (fun e' =>
                match e' with
                | IntegrityError =>
                    try_catch
                      (t <- get k sl ;; ret (t, false))
                      (fun e'' =>
                         match e'' with
                         | DoesNotExist => raise IntegrityError
                         | _ => raise e''
                         end)
                | _ => raise e'
                end)
       | _ => raise e
       end).
End WithRuntime.

(** *** Article *)

(** [Article.__init__]: the status the instance starts with is
    remembered. *)
Definition Article_init (key : option N) (f : Fields) : Article :=
  {| pk := key; fields := f; _original_status := Some (status f) |}.

(** An instance loaded from a row. *)
Definition from_db (r : ArticleRow) : Article :=
  Article_init (Some (id r)) (row r).

Definition set_fields (a : Article) (f : Fields) : Article :=
  {| pk := pk a; fields := f; _original_status := _original_status a |}.

Definition set_pk (a : Article) (key : option N) : Article :=
  {| pk := key; fields := fields a; _original_status := _original_status a |}.

Definition set_original_status (a : Article) (s : option str) : Article :=
  {| pk := pk a; fields := fields a; _original_status := s |}.

Definition same_url (u1 u2 : option str) : bool :=
  match u1, u2 with
  | Some a, Some b => Py.eqb a b
  | _, _ => false
  end.

(** Does a value of the [unique] column [original_url] clash with a row
    other than the one with key [self_id]? NULLs never clash. *)
Definition url_taken (rows : list ArticleRow) (self_id : option N)
           (url : option str) : bool :=
  existsb
    (fun r =>
       same_url (original_url (row r)) url
       && match self_id with
          | Some i => negb (id r =? i)%N
          | None => true
          end)
    rows.

Fixpoint replace_row (rows : list ArticleRow) (r : ArticleRow) : list ArticleRow :=
  match rows with
  | [] => []
  | x :: rest =>
      if (id x =? id r)%N then r :: replace_row rest r
      else x :: replace_row rest r
  end.

(** Code that works on an instance and on the world. *)
Definition on_world {A} (m : M World A) : M (Article * World) A :=
  fun '(a, w) => let '(r, w') := m w in (r, (a, w')).

Definition self : M (Article * World) Article := gets fst.

Definition set_self (f : Article -> Article) : M (Article * World) unit :=
  modify (fun '(a, w) => (f a, w)).

(** The INSERT of [models.Model.save]. The ORM stamps [created_at] and
    [updated_at] and sends the row. An instance without key draws its
    key from the sequence, which moves on whether or not the row is
    accepted; an instance that brings its key is refused when a row has
    that key. [original_url] is [unique]. *)
Definition insert_article : M (Article * World) unit :=
  t <- on_world now ;;
  set_self (fun a =>
    set_fields a (set_updated_at (set_created_at (fields a) (Some t)) (Some t))) ;;;
  a <- self ;;
  on_world statement ;;;
  d <- on_world (gets db) ;;
  match pk a with
  | None =>
      let key := seq_article d in
      if url_taken (articles d) None (original_url (fields a))
      then on_world (modify (fun w => set_db w (set_articles d (articles d) (key + 1)))) ;;;
           raise IntegrityError
      else on_world (modify (fun w =>
             set_db w (set_articles d (articles d ++ [{| id := key; row := fields a |}])
                                    (key + 1)))) ;;;
           set_self (fun a => set_pk a (Some key))
  | Some key =>
      if existsb (fun r => (id r =? key)%N) (articles d)
         || url_taken (articles d) (Some key) (original_url (fields a))
      then raise IntegrityError
      else on_world (modify (fun w =>
             set_db w (set_articles d
                         (articles d ++ [{| id := key; row := fields a |}])
                         (seq_article d))))
  end.

(** The UPDATE of [models.Model.save] for an instance with key [key].
    The ORM stamps [updated_at] and sends the new values for the row
    with that key; the answer tells whether there was such a row. *)
Definition update_article (key : N) : M (Article * World) bool :=
  t <- on_world now ;;
  set_self (fun a => set_fields a (set_updated_at (fields a) (Some t))) ;;;
  a <- self ;;
  on_world statement ;;;
  d <- on_world (gets db) ;;
  if existsb (fun r => (id r =? key)%N) (articles d)
  then
    if url_taken (articles d) (Some key) (original_url (fields a))
    then raise IntegrityError
    else on_world (modify (fun w =>
           set_db w (set_articles d
                       (replace_row (articles d) {| id := key; row := fields a |})
                       (seq_article d)))) ;;;
         ret true
  else ret false.

(** [models.Model.save] for an article: an INSERT for an instance
    without key or when [force_insert] is set; otherwise an UPDATE, and
    an INSERT when the UPDATE found no row. *)
Definition Model_save (force_insert : bool) : M (Article * World) unit :=
  a <- self ;;
  match pk a with
  | None => insert_article
  | Some key =>
      if force_insert then insert_article
      else
        updated <- update_article key ;;
        if updated then ret tt else insert_article
  end.

(** [Article.save] *)
Definition Article_save (force_insert : bool) : M (Article * World) unit :=
  a <- self ;;
  let current_status := status (fields a) in
  let original_status := _original_status a in
  let is_publishing_now :=
    Py.eqb current_status STATUS_PUBLISHED
    && negb match original_status with
            | Some s => Py.eqb s STATUS_PUBLISHED
            | None => false
            end in
  (if is_publishing_now
      && match published_at (fields a) with None => true | Some _ => false end
   then t <- on_world now ;;
        set_self (fun a => set_fields a (set_published_at (fields a) (Some t)))
   else ret tt) ;;;
  Model_save force_insert ;;;
  set_self (fun a => set_original_status a (Some current_status)).

(** Calling a method of [a] from code that only threads the world. The
    instance as the method left it is the result; when the method
    raises, the caller of this program never looks at it again. *)
Definition call {A} (a : Article) (m : M (Article * World) A) : M World Article :=
  fun w =>
    match m (a, w) with
    | (Ok _, (a', w')) => (Ok a', w')
    | (Exc e, (_, w')) => (Exc e, w')
    end.

(** [Article.objects.create] with the given field values. *)
Definition Article_objects_create (f : Fields) : M World Article :=
  call (Article_init None f) (Article_save true).

(** [Article.objects.filter(original_url=url).first()]. The column is
    [unique], so at most one row qualifies and the ordering of the
    query set does not matter. *)
Definition filter_first (url : str) : M World (option Article) :=
  statement ;;;
  d <- gets db ;;
  ret (option_map from_db
         (List.find (fun r => same_url (original_url (row r)) (Some url))
                    (articles d))).

(** [article.categories.add] and [article.tags.add] on a list of terms:
    the links that are not there yet are inserted, each once. *)
Definition link_eqb (a b : N * N) : bool :=
  ((fst a =? fst b) && (snd a =? snd b))%N.

Fixpoint add_links (have : list (N * N)) (new : list (N * N)) : list (N * N) :=
  match new with
  | [] => have
  | l :: rest =>
      if existsb (link_eqb l) have then add_links have rest
      else add_links (have ++ [l]) rest
  end.

Definition add (k : kind) (a : Article) (terms : list Term) : M World unit :=
  statement ;;;
  key <- lift (deref (pk a)) ;;
  modify (fun w =>
    set_db w (set_links k (db w)
                (add_links (links k (db w))
                           (map (fun t => (key, term_id t)) terms)))).

End Models.

(* ===================================================================== *)
(** ** articles/parsers/base_parser.py *)
(* ===================================================================== *)

Module BaseParser.
Import Py Lib.
Local Open Scope py_scope.

(** The dictionary [parse] returns and [save_to_db] consumes: every key
    may be absent. [{}] is [empty]. *)
Record Data := {
  title : option str;
  summary : option str;
  source_name : option str;
  original_url : option str;
  publication_date : option (option date);
  authors : option str;
  full_text_content : option str;
  categories : option (list str);
  tags : option (list str)
}.

Definition empty : Data :=
  {| title := None; summary := None; source_name := None;
     original_url := None; publication_date := None; authors := None;
     full_text_content := None; categories := None; tags := None |}.

Definition present {A} (o : option A) : bool :=
  match o with Some _ => true | None => false end.

(** Truthiness of the dictionary: it has at least one key. *)
Definition truthy_data (d : Data) : bool :=
  present (title d) || present (summary d) || present (source_name d)
  || present (original_url d) || present (publication_date d)
  || present (authors d) || present (full_text_content d)
  || present (categories d) || present (tags d).

(** [d.get(key, default)] *)
Definition get_default {A} (o : option A) (default : A) : A :=
  match o with Some a => a | None => default end.

(** The attributes of a parser instance. *)
Record Parser := {
  url : str;
  soup : option Bs4.PageElement;
  parser_source_name : str
}.

(** [BaseParser.__init__] *)
Definition init (url_ : str) : Parser :=
  {| url := url_; soup := None; parser_source_name := [] |}.

Definition set_soup (self : Parser) (s : option Bs4.PageElement) : Parser :=
  {| url := url self; soup := s; parser_source_name := parser_source_name self |}.

Definition set_source_name (self : Parser) (n : str) : Parser :=
  {| url := url self; soup := soup self; parser_source_name := n |}.

(** [requests.get] followed by [raise_for_status] and the construction
    of the tree: the page the web answers with, or an exception. *)
Definition http_get (url_ : str) : M Models.World Bs4.PageElement :=
  fun w =>
    let w' := Models.set_requests w (S (Models.requests w)) in
    match Models.web w (Models.requests w) url_ with
    | Some page => (Ok page, w')
    | None => (Exc RequestException, w')
    end.

(** [fetch_content]: [True] and the tree stored in [self.soup], or
    [False] on any exception. *)
Definition fetch_content (self : Parser) : M Models.World (Parser * bool) :=
  try_catch
    (page <- http_get (url self) ;; ret (set_soup self (Some page), true))
    (fun _ => ret (self, false)).

(** The guard at the top of every [parse]:
    [if not self.soup and not self.fetch_content(): return {}].
    The result is the parser to go on with, or [None] for the early
    return. A tree is always truthy. *)
Definition ensure_content (self : Parser) : M Models.World (option Parser) :=
  match soup self with
  | Some _ => ret (Some self)
  | None =>
      r <- fetch_content self ;;
      if snd r then ret (Some (fst r)) else ret None
  end.

Section WithRuntime.
Context `{Runtime}.

(** Lines 72-92: the terms named by the record, each looked up by the
    slug of its name and created when missing. *)
Definition resolve_terms (k : Models.kind) (names : option (list str))
  : M Models.World (list Models.Term) :=
  match names with
  | Some ((_ :: _) as l) =>
      for_each
        (fun term_name =>
           let slug := slugify term_name in
           r <- Models.get_or_create k slug term_name ;;
           ret (fst r))
        l
  | _ => ret []
  end.

(** Lines 101-110: the new article, a draft. *)
Definition create_article (data : Data) : M Models.World Models.Article :=
  title_ <- lift (item (title data)) ;;
  summary_ <- lift (item (summary data)) ;;
  url_ <- lift (item (original_url data)) ;;
  Models.Article_objects_create
    {| Models.title := title_;
       Models.source_name := get_default (source_name data) [];
       Models.original_url := Some url_;
       Models.publication_date :=
         match publication_date data with Some d => d | None => None end;
       Models.authors := get_default (authors data) [];
       Models.summary := summary_;
       Models.full_text_content := Some (get_default (full_text_content data) []);
       Models.status := Models.STATUS_DRAFT;
       Models.added_by := None;
       Models.published_by := None;
       Models.created_at := None;
       Models.updated_at := None;
       Models.published_at := None |}.

(** Lines 112-119: the terms are linked to the article, which is then
    saved once more. *)
Definition attach (article : Models.Article)
           (categories_ tags_ : list Models.Term)
  : M Models.World Models.Article :=
  (match categories_ with
   | _ :: _ => Models.add Models.Category article categories_
   | [] => ret tt
   end) ;;;
  (match tags_ with
   | _ :: _ => Models.add Models.Tag article tags_
   | [] => ret tt
   end) ;;;
  Models.call article (Models.Article_save false).

(** The body of the [try] block of [save_to_db]. *)
Definition save_to_db_body (data : Data) : M Models.World Models.Article :=
  categories_ <- resolve_terms Models.Category (categories data) ;;
  tags_ <- resolve_terms Models.Tag (tags data) ;;
  url_ <- lift (item (original_url data)) ;;
  existing_article <- Models.filter_first url_ ;;
  match existing_article with
  | Some a => ret a
  | None =>
      article <- create_article data ;;
      attach article categories_ tags_
  end.

(** [save_to_db]: the article, or [None] when anything was raised. *)
Definition save_to_db (data : Data) : M Models.World (option Models.Article) :=
  try_catch
    (a <- save_to_db_body data ;; ret (Some a))
    (fun _ => ret None).
End WithRuntime.

(** A parser class: its constructor and its implementation of the
    abstract method [parse]. [save_to_db] is inherited by all of them. *)
Record ParserClass := {
  new : str -> Parser;
  parse : Parser -> M Models.World Data
}.

End BaseParser.

(* ===================================================================== *)
(** ** articles/parsers/cnbc_parser.py *)
(* ===================================================================== *)

Module CnbcParser.
Import Py Lib Re Bs4 BaseParser.
Local Open Scope py_scope.

Definition init (url_ : str) : Parser :=
  set_source_name (BaseParser.init url_) (u "CNBC").

Definition default_title : str := u "CNBC Article about Loneliness".

(** [r'title|headline'] *)
Definition title_re : regex := alts [lit "title"; lit "headline"].

(** [extract_title] *)
Definition extract_title (self : Parser) : str :=
  try_except
    (let? page := deref (soup self) in
     match find page [u "h1"] any with
     | Some title_element => Ok (strip (text title_element))
     | None =>
         match find page [u "h1"; u "h2"] (class_matches true title_re) with
         | Some title_element => Ok (strip (text title_element))
         | None => Ok default_title
         end
     end)
    default_title.

(** [r'lone|isolat|disconnect|social'] *)
Definition topic_re : regex :=
  alts [lit "lone"; lit "isolat"; lit "disconnect"; lit "social"].

(** [r'Cigna|survey|study|report'] *)
Definition study_re : regex :=
  alts [lit "Cigna"; lit "survey"; lit "study"; lit "report"].

(** [r'lone|isolat|disconnect|social|Cigna|health'] *)
Definition summary_re : regex :=
  alts [lit "lone"; lit "isolat"; lit "disconnect"; lit "social";
        lit "Cigna"; lit "health"].

(** [r'author|byline'] *)
Definition author_re : regex := alts [lit "author"; lit "byline"].

(** [r'[bB]y\s+([A-Za-z\s\.]+)'] *)
Definition by_re : regex :=
  cats [Atom (Cls (fun c => (c =? chr "b") || (c =? chr "B"))%N);
        Atom (Lit (chr "y"));
        plus (Cls isspace);
        Grp 1 (plus (Cls (fun c => az c || isspace c || (c =? chr ".")%N)))].

(** [r'article-body|content|main'] *)
Definition container_re : regex :=
  alts [lit "article-body"; lit "content"; lit "main"].

(** The loop of [extract_author] over the candidate elements: the
    first author found, or nothing. *)
Fixpoint author_scan (elems : list PageElement) : option str :=
  match elems with
  | [] => None
  | elem :: rest =>
      if contains (u "by ") (lower (text elem)) then
        match search false by_re (text elem) with
        | Some m =>
            match group 1 m with
            | Some g => Some (strip g)
            | None => author_scan rest
            end
        | None => author_scan rest
        end
      else author_scan rest
  end.

(** [extract_author] *)
Definition extract_author (self : Parser) : str :=
  try_except
    (let? page := deref (soup self) in
     match find page [u "span"; u "div"; u "a"] (class_matches true author_re) with
     | Some author_element => Ok (strip (text author_element))
     | None =>
         match author_scan (find_all page [u "p"; u "span"; u "div"] any) with
         | Some a => Ok a
         | None => Ok (u "CNBC Staff")
         end
     end)
    (u "CNBC Staff").

Definition default_summary : str :=
  u "Статья CNBC об исследовании Cigna о состоянии одиночества и его влиянии на здоровье.".

Definition lead_in : str :=
  u "Основные статистические данные из исследования Cigna о одиночестве:" ++ [10; 10]%N.

Definition bullet (stat : str) : str := u "• " ++ stat.

(** The loop of [create_summary] over [sentences[:5]]. *)
Fixpoint pick_sentences (sentences : list str) (relevant_sentences : list str)
  : list str :=
  match sentences with
  | [] => relevant_sentences
  | sentence :: rest =>
      let relevant_sentences' :=
        if found (search true summary_re sentence)
        then relevant_sentences ++ [sentence]
        else relevant_sentences in
      if 3 <=? List.length relevant_sentences'
      then relevant_sentences'
      else pick_sentences rest relevant_sentences'
  end.

(** [create_summary] *)
Definition create_summary (statistics : list str) (content : str) : str :=
  match statistics with
  | _ :: _ =>
      let selected_stats := slice_to 3 statistics in
      lead_in ++ join [10%N] (map bullet selected_stats)
  | [] =>
      let from_content :=
        if truthy content then
          let sentences := split_sentences content in
          let relevant_sentences := pick_sentences (slice_to 5 sentences) [] in
          match relevant_sentences with
          | _ :: _ => Some (join (u " ") relevant_sentences)
          | [] => None
          end
        else None in
      match from_content with
      | Some s => s
      | None => default_summary
      end
  end.

Definition base_tags : list str :=
  [u "loneliness"; u "health"; u "Cigna"; u "survey"].

(** [r'gen ?z'] *)
Definition gen_z_re : regex :=
  cats [lit "gen"; opt (Lit (chr " ")); lit "z"].

(** The tag list built by [parse], lines 189-198. *)
Definition content_tags (content : str) : list str :=
  let tags0 := base_tags in
  let tags1 := if found (search true gen_z_re content)
               then tags0 ++ [u "Gen Z"] else tags0 in
  let tags2 := if found (search true (lit "millennials") content)
               then tags1 ++ [u "millennials"] else tags1 in
  let tags3 := if found (search true (lit "social media") content)
               then tags2 ++ [u "social media"] else tags2 in
  let tags4 := if found (search true (lit "mental health") content)
               then tags3 ++ [u "mental health"] else tags3 in
  tags4.

Section WithRuntime.
Context `{Runtime}.

(** [r'(Published|Updated):?\s+([A-Za-z]{3}\s+\d{1,2},?\s+\d{4})'] *)
Definition date_re : regex :=
  cats [Grp 1 (Alt (lit "Published") (lit "Updated"));
        opt (Lit (chr ":"));
        plus (Cls isspace);
        Grp 2 (cats [times (Cls az) 3 3;
                     plus (Cls isspace);
                     times (Cls isdecimal) 1 2;
                     opt (Lit (chr ","));
                     plus (Cls isspace);
                     times (Cls isdecimal) 4 4])].

(** The loop of [extract_publication_date] over the candidate
    elements. [Ok (Some d)] is [return d] from inside the loop,
    [Ok None] is the end of the loop. *)
Fixpoint date_scan (elems : list PageElement) : result (option date) :=
  match elems with
  | [] => Ok None
  | elem :: rest =>
      if contains (u "published") (lower (text elem))
         || contains (u "updated") (lower (text elem))
      then
        match search false date_re (text elem) with
        | Some date_match =>
            let? date_str := deref (group 2 date_match) in
            let? d := strptime_date date_str (u "%b %d, %Y") in
            Ok (Some d)
        | None => date_scan rest
        end
      else date_scan rest
  end.

(** [extract_publication_date]; [today] is [timezone.now().date()]. *)
Definition extract_publication_date (self : Parser) (today : date)
  : option date :=
  try_except
    (let? page := deref (soup self) in
     match find page [u "time"; u "span"; u "div"]
                (attr_is (u "data-testid") (u "publish-date")) with
     | Some date_element =>
         let date_text := strip (text date_element) in
         let? d := strptime_date date_text (u "%b %d %Y") in
         Ok (Some d)
     | None =>
         let? r := date_scan (find_all page [u "time"; u "span"; u "p"] any) in
         match r with
         | Some d => Ok (Some d)
         | None => Ok (Some today)
         end
     end)
    (Some today).

(** [r'\d+%'] and [r'\d+'] *)
Definition percent_re : regex :=
  cats [plus (Cls isdecimal); Atom (Lit (chr "%"))].
Definition number_re : regex := plus (Cls isdecimal).

Definition is_statistic (t : str) : bool :=
  if found (search false percent_re t) && found (search true topic_re t)
  then true
  else found (search false number_re t)
       && found (search true study_re t)
       && found (search true topic_re t).

(** [extract_statistics] *)
Definition extract_statistics (self : Parser) : list str :=
  try_except
    (let? page := deref (soup self) in
     Ok (filter is_statistic
           (map (fun element => strip (text element))
                (find_all page [u "p"; u "li"] any))))
    [].

(** [extract_content] *)
Definition extract_content (self : Parser) : str :=
  try_except
    (let? page := deref (soup self) in
     match find page [u "div"] (class_matches true container_re) with
     | Some content_container =>
         let paragraphs :=
           find_all content_container
                    [u "p"; u "h2"; u "h3"; u "blockquote"] any in
         Ok (join [10; 10]%N
               (filter truthy (map (fun p => strip (text p)) paragraphs)))
     | None =>
         Ok (join [10; 10]%N
               (filter (fun t => 30 <? List.length t)
                  (map (fun p => strip (text p))
                       (find_all page [u "p"] any))))
     end)
    [].

(** The dictionary built by [parse] once the page is there. *)
Definition build (self : Parser) (today : date) : Data :=
  let title_ := extract_title self in
  let publication_date_ := extract_publication_date self today in
  let author := extract_author self in
  let statistics := extract_statistics self in
  let content := extract_content self in
  let summary_ := create_summary statistics content in
  {| title := Some title_;
     summary := Some summary_;
     source_name := Some (parser_source_name self);
     original_url := Some (url self);
     publication_date := Some publication_date_;
     authors := Some author;
     full_text_content := Some content;
     categories := Some [u "Health Research"; u "Corporate Studies"];
     tags := Some (content_tags content) |}.

(** [parse] *)
Definition parse (self : Parser) : M Models.World Data :=
  ready <- ensure_content self ;;
  match ready with
  | None => ret empty
  | Some self' =>
      t <- Models.now ;;
      ret (build self' (date_part t))
  end.

Definition class : ParserClass :=
  {| BaseParser.new := init; BaseParser.parse := parse |}.
End WithRuntime.

End CnbcParser.

(* ===================================================================== *)
(** ** articles/parsers/roots_of_loneliness_parser.py *)
(* ===================================================================== *)

Module RootsOfLonelinessParser.
Import Py Lib Re Bs4 BaseParser.
Local Open Scope py_scope.

Definition init (url_ : str) : Parser :=
  set_source_name (BaseParser.init url_) (u "Roots Of Loneliness").

Definition default_title : str := u "Loneliness Statistics".

(** [extract_title] *)
Definition extract_title (self : Parser) : str :=
  try_except
    (let? page := deref (soup self) in
     match find page [u "h1"] any with
     | Some title_element => Ok (strip (text title_element))
     | None => Ok default_title
     end)
    default_title.

Definition default_summary : str :=
  u "Статистические данные об одиночестве и социальных связях.".

Definition lead_in : str :=
  u "Ключевые статистические данные об одиночестве:" ++ [10; 10]%N.

Definition bullet (stat : str) : str := u "• " ++ stat.

(** [create_summary] *)
Definition create_summary (statistics : list str) : str :=
  match statistics with
  | [] => default_summary
  | _ :: _ =>
      let selected_stats := slice_to 5 statistics in
      lead_in ++ join [10%N] (map bullet selected_stats)
  end.

(** [r'content|main|article'] *)
Definition container_re : regex :=
  alts [lit "content"; lit "main"; lit "article"].

(** The loop of [extract_publication_date]: the text of the first
    element that mentions an update. *)
Fixpoint updated_text (elems : list PageElement) : option str :=
  match elems with
  | [] => None
  | element :: rest =>
      if contains (u "updated") (lower (text element))
      then Some (text element)
      else updated_text rest
  end.

Section WithRuntime.
Context `{Runtime}.

(** [r'Updated: ([A-Za-z]+ \d+, \d{4})'] *)
Definition date_re : regex :=
  cats [lit "Updated: ";
        Grp 1 (cats [plus (Cls az);
                     Atom (Lit (chr " "));
                     plus (Cls isdecimal);
                     lit ", ";
                     times (Cls isdecimal) 4 4])].

(** [extract_publication_date]; [today] is [timezone.now().date()]. *)
Definition extract_publication_date (self : Parser) (today : date)
  : option date :=
  try_except
    (let? page := deref (soup self) in
     let date_text := updated_text (find_all page [u "p"; u "div"; u "span"] any) in
     let parsed :=
       match date_text with
       | Some ((_ :: _) as t) =>
           match search false date_re t with
           | Some date_match =>
               let? date_str := deref (group 1 date_match) in
               let? d := strptime_date date_str (u "%B %d, %Y") in
               Ok (Some d)
           | None => Ok None
           end
       | _ => Ok None
       end in
     let? r := parsed in
     match r with
     | Some d => Ok (Some d)
     | None => Ok (Some today)
     end)
    (Some today).

(** [r'\d+%|\d+ percent|\d+ in \d+'] *)
Definition statistic_re : regex :=
  alts [cats [plus (Cls isdecimal); Atom (Lit (chr "%"))];
        cats [plus (Cls isdecimal); lit " percent"];
        cats [plus (Cls isdecimal); lit " in "; plus (Cls isdecimal)]].

(** [extract_statistics] *)
Definition extract_statistics (self : Parser) : list str :=
  try_except
    (let? page := deref (soup self) in
     Ok (filter (fun t => found (search false statistic_re t))
           (map (fun element => strip (text element))
                (find_all page [u "li"; u "p"] any))))
    [].

(** [extract_content] *)
Definition extract_content (self : Parser) : str :=
  try_except
    (let? page := deref (soup self) in
     let content_container :=
       match find page [u "article"] any with
       | Some c => Some c
       | None => find page [u "div"] (class_matches false container_re)
       end in
     match content_container with
     | Some c =>
         let content_elements :=
           find_all c [u "p"; u "h2"; u "h3"; u "ul"; u "ol"] any in
         Ok (join [10; 10]%N
               (filter truthy (map (fun e => strip (text e)) content_elements)))
     | None =>
         Ok (join [10; 10]%N
               (filter (fun t => truthy t && (50 <? List.length t))
                  (map (fun p => strip (text p))
                       (find_all page [u "p"] any))))
     end)
    [].

(** The dictionary built by [parse] once the page is there. *)
Definition build (self : Parser) (today : date) : Data :=
  let title_ := extract_title self in
  let publication_date_ := extract_publication_date self today in
  let statistics := extract_statistics self in
  let full_content := extract_content self in
  let summary_ := create_summary statistics in
  {| title := Some title_;
     summary := Some summary_;
     source_name := Some (parser_source_name self);
     original_url := Some (url self);
     publication_date := Some publication_date_;
     authors := Some (u "Roots Of Loneliness Team");
     full_text_content := Some full_content;
     categories := Some [u "Statistics"; u "Loneliness Research"];
     tags := Some [u "loneliness"; u "statistics"; u "social isolation";
                   u "mental health"] |}.

(** [parse] *)
Definition parse (self : Parser) : M Models.World Data :=
  ready <- ensure_content self ;;
  match ready with
  | None => ret empty
  | Some self' =>
      t <- Models.now ;;
      ret (build self' (date_part t))
  end.

Definition class : ParserClass :=
  {| BaseParser.new := init; BaseParser.parse := parse |}.
End WithRuntime.

End RootsOfLonelinessParser.

(* ===================================================================== *)
(** ** articles/parsers/parser_manager.py *)
(* ===================================================================== *)

Module ParserManager.
Import Py Lib BaseParser.
Local Open Scope py_scope.

(** [self.parsers]: the registered classes by domain, in the order of
    registration, which is the order [items()] yields them in. *)
Definition registry := list (str * ParserClass).

(** The result dictionary of a batch: keys in the order of their first
    insertion. *)
Definition results := list (str * option Models.Article).

(** [d[key] = value] *)
Fixpoint setitem (d : results) (key : str) (value : option Models.Article)
  : results :=
  match d with
  | [] => [(key, value)]
  | (k, v) :: rest =>
      if Py.eqb k key then (k, value) :: rest
      else (k, v) :: setitem rest key value
  end.

(** [d.get(key)]: [None] when the key is absent. *)
Fixpoint getitem (d : results) (key : str) : option (option Models.Article) :=
  match d with
  | [] => None
  | (k, v) :: rest => if Py.eqb k key then Some v else getitem rest key
  end.

Definition keys (d : results) : list str := map fst d.

(** [get_parser_for_url]: the loop over [self.parsers.items()]. The
    result carries the class next to the instance it built. *)
Fixpoint get_parser_for_url (parsers : registry) (url_ : str)
  : option (ParserClass * Parser) :=
  match parsers with
  | [] => None
  | (domain, parser_class) :: rest =>
      if contains domain url_ then Some (parser_class, new parser_class url_)
      else get_parser_for_url rest url_
  end.

Section WithRuntime.
Context `{Runtime}.

(** [ParserManager.__init__] *)
Definition init : registry :=
  [(u "rootsofloneliness.com", RootsOfLonelinessParser.class);
   (u "cnbc.com", CnbcParser.class)].

(** [parse_url] *)
Definition parse_url (parsers : registry) (url_ : str)
  : M Models.World (option Models.Article) :=
  match get_parser_for_url parsers url_ with
  | None => ret None
  | Some (parser_class, parser) =>
      data <- parse parser_class parser ;;
      if negb (truthy_data data) then ret None
      else save_to_db data
  end.

(** [parse_multiple_urls]: the loop, with the dictionary built so
    far. *)
Fixpoint parse_loop (parsers : registry) (urls : list str) (acc : results)
  : M Models.World results :=
  match urls with
  | [] => ret acc
  | url_ :: rest =>
      acc' <- try_catch
                (article <- parse_url parsers url_ ;;
                 ret (setitem acc url_ article))
                (fun _ => ret (setitem acc url_ None)) ;;
      parse_loop parsers rest acc'
  end.

Definition parse_multiple_urls (parsers : registry) (urls : list str)
  : M Models.World results :=
  parse_loop parsers urls [].
End WithRuntime.

End ParserManager.

(* ===================================================================== *)
(** ** Built-ins used by the management command *)
(* ===================================================================== *)

Module Builtins.
Import Py.

Fixpoint digits (d : Decimal.uint) : str :=
  match d with
  | Decimal.Nil => []
  | Decimal.D0 d' => 48%N :: digits d'
  | Decimal.D1 d' => 49%N :: digits d'
  | Decimal.D2 d' => 50%N :: digits d'
  | Decimal.D3 d' => 51%N :: digits d'
  | Decimal.D4 d' => 52%N :: digits d'
  | Decimal.D5 d' => 53%N :: digits d'
  | Decimal.D6 d' => 54%N :: digits d'
  | Decimal.D7 d' => 55%N :: digits d'
  | Decimal.D8 d' => 56%N :: digits d'
  | Decimal.D9 d' => 57%N :: digits d'
  end.

(** [str(n)], which is how an f-string shows a non-negative integer. *)
Definition str_of_int (n : N) : str := digits (N.to_uint n).

End Builtins.

(* ===================================================================== *)
(** ** articles/management/commands/parse_urls.py *)
(* ===================================================================== *)

Module ParseUrlsCommand.
Import Py Lib BaseParser ParserManager Builtins.
Local Open Scope py_scope.

(** The styles of [self.style] the command writes with. *)
Inductive style := SUCCESS | ERROR.

(** [sum(1 for article in results.values() if article is not None)] *)
Definition success_count (res : results) : nat :=
  List.length (filter (fun kv => present (snd kv)) res).

(** [article.id] inside an f-string. *)
Definition id_text (a : Models.Article) : str :=
  match Models.pk a with
  | Some key => str_of_int key
  | None => u "None"
  end.

(** The line written for one entry of the result dictionary. An
    instance of a model is always truthy. *)
Definition report (kv : str * option Models.Article) : style * str :=
  match snd kv with
  | Some article =>
      (SUCCESS,
       u "✅ " ++ fst kv ++ u " -> " ++ Models.title (Models.fields article)
       ++ u " (ID: " ++ id_text article ++ u ")")
  | None => (ERROR, u "❌ " ++ fst kv ++ u " -> Ошибка парсинга")
  end.

Section WithRuntime.
Context `{Runtime}.

(** [Command.handle]: the lines written to the standard output, in
    order. *)
Definition handle (urls : list str) : M Models.World (list (style * str)) :=
  let started :=
    (SUCCESS,
     u "Начинаем парсинг " ++ str_of_int (N.of_nat (List.length urls))
     ++ u " URL...") in
  res <- parse_multiple_urls init urls ;;
  let finished :=
    (SUCCESS,
     u "Парсинг завершен. Успешно: " ++ str_of_int (N.of_nat (success_count res))
     ++ u "/" ++ str_of_int (N.of_nat (List.length urls))) in
  ret (started :: finished :: map report res).
End WithRuntime.

End ParseUrlsCommand.

(* ===================================================================== *)
(** ** articles/admin.py *)
(* ===================================================================== *)

Module Admin.
Import Py Lib BaseParser.
Local Open Scope py_scope.

Definition set_added_by (f : Models.Fields) (v : option N) : Models.Fields :=
  {| Models.title := Models.title f; Models.source_name := Models.source_name f;
     Models.original_url := Models.original_url f;
     Models.publication_date := Models.publication_date f;
     Models.authors := Models.authors f; Models.summary := Models.summary f;
     Models.full_text_content := Models.full_text_content f;
     Models.status := Models.status f;
     Models.added_by := v; Models.published_by := Models.published_by f;
     Models.created_at := Models.created_at f;
     Models.updated_at := Models.updated_at f;
     Models.published_at := Models.published_at f |}.

Definition set_published_by (f : Models.Fields) (v : option N) : Models.Fields :=
  {| Models.title := Models.title f; Models.source_name := Models.source_name f;
     Models.original_url := Models.original_url f;
     Models.publication_date := Models.publication_date f;
     Models.authors := Models.authors f; Models.summary := Models.summary f;
     Models.full_text_content := Models.full_text_content f;
     Models.status := Models.status f;
     Models.added_by := Models.added_by f; Models.published_by := v;
     Models.created_at := Models.created_at f;
     Models.updated_at := Models.updated_at f;
     Models.published_at := Models.published_at f |}.

(** [ArticleAdmin.save_model] on the instance the form has filled in.
    [user] is the key of [request.user] when it is authenticated,
    [status_changed] tells whether ['status'] is in [form.changed_data],
    [change] whether an existing article is edited. The call of
    [super().save_model] ends in [obj.save()]. Logging and metrics are
    left out. *)
Definition ArticleAdmin_save_model (user : option N) (status_changed change : bool)
  : M (Models.Article * Models.World) unit :=
  obj <- Models.self ;;
  (if negb change && negb (present (Models.added_by (Models.fields obj)))
   then match user with
        | Some _ =>
            Models.set_self (fun a =>
              Models.set_fields a (set_added_by (Models.fields a) user))
        | None => ret tt
        end
   else ret tt) ;;;
  obj <- Models.self ;;
  let status_changed_to_published :=
    status_changed
    && Py.eqb (Models.status (Models.fields obj)) Models.STATUS_PUBLISHED in
  (if status_changed_to_published
      && negb (present (Models.published_by (Models.fields obj)))
   then match user with
        | Some _ =>
            Models.set_self (fun a =>
              Models.set_fields a (set_published_by (Models.fields a) user))
        | None => ret tt
        end
   else ret tt) ;;;
  Models.Article_save false.

End Admin.

(* ===================================================================== *)
(** ** articles/views.py *)
(* ===================================================================== *)

Module Views.
Import Py Lib Models.
Local Open Scope py_scope.

(** [django.http.Http404] *)
Definition Http404 : exn := OtherError 404.

(** A query set: the rows it selects from the store it is evaluated
    on. [select_related] and [prefetch_related] change how related rows
    are loaded, not which articles are selected; the order in which
    [Meta.ordering] arranges the rows is left to the store. *)
Definition QuerySet := DB -> list ArticleRow.

Definition is_published (r : ArticleRow) : bool :=
  Py.eqb (status (row r)) STATUS_PUBLISHED.

(** [ArticleListView.get_queryset] *)
Definition ArticleListView_get_queryset : QuerySet :=
  fun d => filter is_published (articles d).

(** [ArticleDetailView.get_queryset] *)
Definition ArticleDetailView_get_queryset : QuerySet :=
  fun d => articles d.

(** [get_object_or_404(Model, slug=slug)] *)
Definition get_object_or_404 (k : kind) (s : str) : M World Term :=
  try_catch (get k s)
    (fun e =>
       match e with
       | DoesNotExist => raise Http404
       | _ => raise e
       end).

(** The article is linked to the term. *)
Definition linked (k : kind) (d : DB) (t : Term) (r : ArticleRow) : bool :=
  existsb (link_eqb (id r, term_id t)) (links k d).

(** [Article.objects.filter(status=Article.STATUS_PUBLISHED, categories=t)]
    and the same with [tags]. *)
Definition published_with (k : kind) (t : Term) : QuerySet :=
  fun d => filter (fun r => is_published r && linked k d t r) (articles d).

(** [CategoryArticlesView.get_queryset] *)
Definition CategoryArticlesView_get_queryset (category_slug : str)
  : M World QuerySet :=
  category <- get_object_or_404 Category category_slug ;;
  ret (published_with Category category).

(** [TagArticlesView.get_queryset] *)
Definition TagArticlesView_get_queryset (tag_slug : str) : M World QuerySet :=
  tag <- get_object_or_404 Tag tag_slug ;;
  ret (published_with Tag tag).

End Views.

(* ===================================================================== *)
(** ** A runtime for running the model on ASCII text *)
(* ===================================================================== *)

Module Sample.
Import Py Lib.

Definition digit (c : N) : bool := ((48 <=? c) && (c <=? 57))%N.

Definition word_char (c : N) : bool :=
  digit c || Re.az c || (c =? 95)%N.

Definition dash_or_space (c : N) : bool := (c =? 45)%N || isspace c.

(** Runs of hyphens and whitespace become one hyphen. [pending] tells
    that such a run is being read. *)
Fixpoint squeeze (s : str) (pending : bool) : str :=
  match s with
  | [] => if pending then [45%N] else []
  | c :: rest =>
      if dash_or_space c then squeeze rest true
      else (if pending then [45%N; c] else [c]) ++ squeeze rest false
  end.

Fixpoint lstrip_marks (s : str) : str :=
  match s with
  | c :: rest => if ((c =? 45) || (c =? 95))%N then lstrip_marks rest else s
  | [] => []
  end.

(** [slugify] of Django on ASCII text: lower case, only word
    characters, whitespace and hyphens kept, runs of the latter two
    turned into one hyphen, hyphens and underscores removed at both
    ends. Characters outside ASCII are dropped. *)
Definition slugify (value : str) : str :=
  let ascii := filter (fun c => (c <? 128)%N) value in
  let kept := filter (fun c => word_char c || dash_or_space c) (lower ascii) in
  rev (lstrip_marks (rev (lstrip_marks (squeeze kept false)))).

Fixpoint number (s : str) (acc : N) : option N :=
  match s with
  | [] => Some acc
  | c :: rest => if digit c then number rest (acc * 10 + (c - 48))%N else None
  end.

Definition month_names : list (string * N) :=
  [("january", 1); ("february", 2); ("march", 3); ("april", 4); ("may", 5);
   ("june", 6); ("july", 7); ("august", 8); ("september", 9);
   ("october", 10); ("november", 11); ("december", 12)]%N%string.

Definition month_of (full : bool) (s : str) : option N :=
  option_map snd
    (List.find
       (fun e => Py.eqb (lower s)
                   (if full then u (fst e) else firstn 3 (u (fst e))))
       month_names).

Fixpoint drop_last_comma (s : str) : option str :=
  match s with
  | [] => None
  | [c] => if (c =? 44)%N then Some [] else None
  | c :: rest => option_map (cons c) (drop_last_comma rest)
  end.

(** [strptime] for the three formats of the source, on text of the
    shape [Month day year] with the day followed by a comma when the
    format has one. *)
Definition strptime (text format : str) : option date :=
  let full := Py.contains (u "%B") format in
  let comma := Py.contains (u ",") format in
  match Re.words text with
  | [m; d; y] =>
      match month_of full m,
            (if comma then drop_last_comma d else Some d) with
      | Some mm, Some d' =>
          match number d' 0, number y 0 with
          | Some dd, Some yy =>
              if ((1 <=? dd) && (dd <=? 31))%N
                 && (List.length y =? 4) && negb (yy =? 0)%N
                 && (1 <=? List.length d') && (List.length d' <=? 2)
              then Some {| year := yy; month := mm; day := dd |}
              else None
          | _, _ => None
          end
      | _, _ => None
      end
  | _ => None
  end.

Definition runtime : Runtime :=
  {| Lib.isdecimal := digit; Lib.strptime := strptime; Lib.slugify := slugify |}.

(** Markup written by hand: [el name attrs children] and [txt s]. *)
Definition txt (s : string) : Bs4.PageElement := Bs4.NavigableString (u s).

Definition el (name : string) (attrs : list (string * string))
           (children : list Bs4.PageElement) : Bs4.PageElement :=
  Bs4.Tag (u name) (map (fun a => (u (fst a), u (snd a))) attrs) children.

(** The tree of a whole page with the given body. *)
Definition page (body : list Bs4.PageElement) : Bs4.PageElement :=
  Bs4.Tag (u "[document]") [] [el "html" [] [el "body" [] body]].

Definition parser_on (url_ : string) (p : Bs4.PageElement) : BaseParser.Parser :=
  BaseParser.set_soup (BaseParser.init (u url_)) (Some p).

(** A page whose only heading holds a single space. *)
Definition blank_heading_page : Bs4.PageElement :=
  page [el "h1" [] [txt " "]; el "p" [] [txt "Loneliness is rising."]].

(** The body text of the design document's example. *)
Definition sample_body : str :=
  u "Loneliness is rising. Cigna study shows isolation increasing. Unrelated sentence.".

Definition empty_db : Models.DB :=
  {| Models.categories := []; Models.tags := []; Models.articles := [];
     Models.article_categories := []; Models.article_tags := [];
     Models.seq_category := 1; Models.seq_tag := 1; Models.seq_article := 1 |}.

Definition noon : datetime :=
  {| date_part := {| year := 2025; month := 4; day := 2 |}; time_part := 43200 |}.

(** A world with the given store and schedule of backend failures, in
    which every request is answered by [site]. *)
Definition world (d : Models.DB) (fs : list bool)
           (site : str -> option Bs4.PageElement) : Models.World :=
  {| Models.db := d; Models.faults := fs; Models.clock := noon;
     Models.web := fun _ => site; Models.requests := 0 |}.

(** No page can be fetched. *)
Definition offline : str -> option Bs4.PageElement := fun _ => None.

(** A store in which an editor created the tag "Generation Z" with the
    slug [gen-z], and the tag "Gen Z" with the slug [generation-z]. *)
Definition edited_db : Models.DB :=
  {| Models.categories := [];
     Models.tags :=
       [{| Models.term_id := 1; Models.name := u "Generation Z";
           Models.slug := u "gen-z" |};
        {| Models.term_id := 2; Models.name := u "Youth";
           Models.slug := u "youth" |}];
     Models.articles := [];
     Models.article_categories := []; Models.article_tags := [];
     Models.seq_category := 1; Models.seq_tag := 3; Models.seq_article := 1 |}.

(** A store in which an editor gave the tag "Gen Z" a slug of their
    own. *)
Definition custom_slug_db : Models.DB :=
  {| Models.categories := [];
     Models.tags :=
       [{| Models.term_id := 1; Models.name := u "Gen Z";
           Models.slug := u "generation-z" |}];
     Models.articles := [];
     Models.article_categories := []; Models.article_tags := [];
     Models.seq_category := 1; Models.seq_tag := 2; Models.seq_article := 1 |}.

(** A record as the CNBC strategy builds them, with the given tags. *)
Definition record (tag_names : list string) : BaseParser.Data :=
  {| BaseParser.title := Some (u "Loneliness at work");
     BaseParser.summary := Some (u "A study.");
     BaseParser.source_name := Some (u "CNBC");
     BaseParser.original_url := Some (u "https://www.cnbc.com/loneliness");
     BaseParser.publication_date := Some (Some (date_part noon));
     BaseParser.authors := Some (u "CNBC Staff");
     BaseParser.full_text_content := Some (u "Loneliness is rising.");
     BaseParser.categories := Some [u "Health Research"];
     BaseParser.tags := Some (map u tag_names) |}.

(** A world with an empty store whose backend accepts six statements
    and fails on the seventh. *)
Definition failing_world : Models.World :=
  world empty_db [false; false; false; false; false; false; true] offline.

(** A web in which every page can be fetched but one. *)
Definition one_page_missing : str -> option Bs4.PageElement :=
  fun url_ =>
    if Py.eqb url_ (u "https://www.cnbc.com/broken") then None
    else Some (page [el "h1" [] [txt "Loneliness at work"];
                     el "p" [] [txt "Loneliness is rising."]]).

(** The field values of the draft the model tests create. *)
Definition draft_fields : Models.Fields :=
  {| Models.title := u "Draft Article";
     Models.source_name := [];
     Models.original_url := None;
     Models.publication_date := None;
     Models.authors := [];
     Models.summary := u "Test summary";
     Models.full_text_content := None;
     Models.status := Models.STATUS_DRAFT;
     Models.added_by := None;
     Models.published_by := None;
     Models.created_at := None;
     Models.updated_at := None;
     Models.published_at := None |}.

(** The field values of an article an editor has published. *)
Definition published_fields : Models.Fields :=
  {| Models.title := u "Published Article";
     Models.source_name := u "Manual Input";
     Models.original_url := Some (u "https://example.org/published");
     Models.publication_date := None;
     Models.authors := [];
     Models.summary := u "Test summary";
     Models.full_text_content := None;
     Models.status := Models.STATUS_PUBLISHED;
     Models.added_by := Some 1%N;
     Models.published_by := Some 1%N;
     Models.created_at := Some noon;
     Models.updated_at := Some noon;
     Models.published_at := Some noon |}.

(** A store with that article, filed under one category. *)
Definition published_db : Models.DB :=
  {| Models.categories :=
       [{| Models.term_id := 1; Models.name := u "Health Research";
           Models.slug := u "health-research" |}];
     Models.tags := [];
     Models.articles := [{| Models.id := 1; Models.row := published_fields |}];
     Models.article_categories := [(1, 1)%N];
     Models.article_tags := [];
     Models.seq_category := 2; Models.seq_tag := 1; Models.seq_article := 2 |}.

(** The address of a CNBC article that [one_page_missing] serves. *)
Definition cnbc_url : str := u "https://www.cnbc.com/loneliness".

(** A store with one draft, added by hand. *)
Definition draft_db : Models.DB :=
  {| Models.categories := []; Models.tags := [];
     Models.articles := [{| Models.id := 1; Models.row := draft_fields |}];
     Models.article_categories := []; Models.article_tags := [];
     Models.seq_category := 1; Models.seq_tag := 1; Models.seq_article := 2 |}.

End Sample.

(* ===================================================================== *)
(** ** Notions used to state the properties *)
(* ===================================================================== *)

Module Props.
Import Py Lib.

(** [d] occurs somewhere in [s]. *)
Definition occurs_in (d s : str) : Prop :=
  exists before after, s = before ++ d ++ after.

(** [pattern] occurs somewhere in [s] up to the case of its letters, as
    [re.I] understands it. *)
Definition occurs_ignoring_case (pattern s : str) : Prop :=
  exists before middle after,
    s = before ++ middle ++ after
    /\ Forall2 (fun p c => Re.lit_matches true p c = true) pattern middle.

(** The extraction strategies. *)
Inductive strategy := Cnbc | RootsOfLoneliness.

(** The summary a strategy's [parse] computes from the statistics and
    the body text it extracted. *)
Definition summary_of (s : strategy) (statistics : list str) (content : str) : str :=
  match s with
  | Cnbc => CnbcParser.create_summary statistics content
  | RootsOfLoneliness => RootsOfLonelinessParser.create_summary statistics
  end.

(** The sentences the second tier of the summary is made of: among the
    first five sentences of the body, the first three that mention a
    topic keyword. *)
Definition keyword_sentences (content : str) : list str :=
  firstn 3
    (filter (fun s => Re.found (Re.search true CnbcParser.summary_re s))
            (firstn 5 (Re.split_sentences content))).

(** The tiering as the design document words it, for a strategy with
    the given lead-in, number of statistics shown and generic sentence:
    statistics first, then keyword sentences, then the generic
    sentence. *)
Definition three_tier (lead : str) (limit : nat) (generic : str)
           (statistics : list str) (content : str) : str :=
  match statistics with
  | _ :: _ =>
      lead ++ join [10%N] (map (fun stat => u "• " ++ stat) (firstn limit statistics))
  | [] =>
      match keyword_sentences content with
      | _ :: _ => join (u " ") (keyword_sentences content)
      | [] => generic
      end
  end.

(** The two-tier variant without the keyword sentences. *)
Definition two_tier (lead : str) (limit : nat) (generic : str)
           (statistics : list str) : str :=
  match statistics with
  | _ :: _ =>
      lead ++ join [10%N] (map (fun stat => u "• " ++ stat) (firstn limit statistics))
  | [] => generic
  end.


Section WithRuntime.
Context `{Runtime}.

(** The date text the CNBC strategy finds in a list of candidate
    elements: the second group of the pattern in the first element
    that is labelled and matches it. *)
Fixpoint cnbc_labelled_date (elems : list Bs4.PageElement) : option str :=
  match elems with
  | [] => None
  | elem :: rest =>
      if contains (u "published") (lower (Bs4.text elem))
         || contains (u "updated") (lower (Bs4.text elem))
      then match Re.search false CnbcParser.date_re (Bs4.text elem) with
           | Some date_match => Re.group 2 date_match
           | None => cnbc_labelled_date rest
           end
      else cnbc_labelled_date rest
  end.

(** The date marker of a page for the CNBC strategy: the text handed
    to the date parser and its format, if the page has any. *)
Definition cnbc_date_marker (page : Bs4.PageElement) : option (str * str) :=
  match Bs4.find page [u "time"; u "span"; u "div"]
             (Bs4.attr_is (u "data-testid") (u "publish-date")) with
  | Some date_element => Some (strip (Bs4.text date_element), u "%b %d %Y")
  | None =>
      option_map (fun t => (t, u "%b %d, %Y"))
        (cnbc_labelled_date (Bs4.find_all page [u "time"; u "span"; u "p"] Bs4.any))
  end.

(** The date marker of a page for the Roots Of Loneliness strategy. *)
Definition roots_date_marker (page : Bs4.PageElement) : option (str * str) :=
  match RootsOfLonelinessParser.updated_text
          (Bs4.find_all page [u "p"; u "div"; u "span"] Bs4.any) with
  | Some ((_ :: _) as t) =>
      match Re.search false RootsOfLonelinessParser.date_re t with
      | Some date_match =>
          option_map (fun g => (g, u "%B %d, %Y")) (Re.group 1 date_match)
      | None => None
      end
  | _ => None
  end.

(** The date of a marker: what the date parser makes of it, and the
    current date when there is no marker or the parser rejects it. *)
Definition date_of_marker (today : date) (marker : option (str * str)) : date :=
  match marker with
  | Some (t, format) =>
      match strptime t format with
      | Some d => d
      | None => today
      end
  | None => today
  end.
End WithRuntime.

Import Models.

(** The constraints of the schema the committer relies on: slugs are
    unique in each term table, and the keys of the articles were drawn
    from the sequence. *)
Definition consistent (d : DB) : Prop :=
  NoDup (map slug (categories d))
  /\ NoDup (map slug (tags d))
  /\ Forall (fun r => (id r < seq_article d)%N) (articles d).

(** From one store to a later one, only terms were added: the articles,
    their links and the article sequence are the same, and each term
    table is the old one followed by new rows. *)
Definition only_terms_added (d d' : DB) : Prop :=
  articles d' = articles d
  /\ article_categories d' = article_categories d
  /\ article_tags d' = article_tags d
  /\ seq_article d' = seq_article d
  /\ (exists new, categories d' = categories d ++ new)
  /\ (exists new, tags d' = tags d ++ new).

(** From one world to a later one in which only terms were added:
    consistency and the absence of scheduled failures carry over. *)
Definition advances (w w' : World) : Prop :=
  only_terms_added (db w) (db w')
  /\ (consistent (db w) -> consistent (db w'))
  /\ (faults w = [] -> faults w' = []).

(** Every name of the list has a term with its slug in the table. *)
Definition all_resolved `{Runtime} (names : option (list str)) (table : list Term) : Prop :=
  forall nm, In nm (match names with Some l => l | None => [] end) ->
             exists t, In t table /\ slug t = slugify nm.

(** The value a batch records for a URL: the article, or [None] when
    the processing of the URL returned [None] or raised. *)
Definition recorded (r : result (option Article)) : option Article :=
  match r with
  | Ok a => a
  | Exc _ => None
  end.

(** The URLs of a list without repetition, each at the place of its
    first occurrence. *)
Fixpoint first_occurrences (seen urls : list str) : list str :=
  match urls with
  | [] => []
  | x :: rest =>
      if existsb (Py.eqb x) seen then first_occurrences seen rest
      else x :: first_occurrences (seen ++ [x]) rest
  end.

(** An instance as the ORM stamps it before an INSERT and before an
    UPDATE. *)
Definition stamped_new (a : Article) (t : datetime) : Article :=
  set_fields a (set_updated_at (set_created_at (fields a) (Some t)) (Some t)).

Definition stamped (a : Article) (t : datetime) : Article :=
  set_fields a (set_updated_at (fields a) (Some t)).

(** The instance [Article.save] hands to [Model.save]. *)
Definition published (a : Article) (t : datetime) : Article :=
  if Py.eqb (status (fields a)) STATUS_PUBLISHED
     && negb match _original_status a with
             | Some s => Py.eqb s STATUS_PUBLISHED
             | None => false
             end
     && match published_at (fields a) with None => true | Some _ => false end
  then set_fields a (set_published_at (fields a) (Some t))
  else a.

(** What a save of an article leaves alone, from the instance and world
    before it to those after it: the terms, the keys of the articles
    already stored, and on the instance the publication time, the
    status, the URL, the remembered status and the key it had. *)
Definition article_step (a : Article) (w : World) (a' : Article) (w' : World) : Prop :=
  categories (db w') = categories (db w)
  /\ tags (db w') = tags (db w)
  /\ incl (map id (articles (db w))) (map id (articles (db w')))
  /\ published_at (fields a') = published_at (fields a)
  /\ status (fields a') = status (fields a)
  /\ original_url (fields a') = original_url (fields a)
  /\ _original_status a' = _original_status a
  /\ (forall key, pk a = Some key -> pk a' = Some key).

(** The URLs of the articles stored, the rows without URL left out. *)
Definition stored_urls (d : DB) : list str :=
  flat_map (fun r => match original_url (row r) with
                     | Some url => [url]
                     | None => []
                     end)
           (articles d).

(** The constraints of the schema on articles and links, on top of
    [consistent]: keys and URLs are unique, no link is stored twice, and
    every link joins a stored article and a stored term. *)
Definition well_formed (d : DB) : Prop :=
  consistent d
  /\ NoDup (map id (articles d))
  /\ NoDup (stored_urls d)
  /\ (forall k, NoDup (links k d))
  /\ (forall k l, In l (links k d) ->
        In (fst l) (map id (articles d))
        /\ In (snd l) (map term_id (table k d))).

(** From one world to a later one, what the program cannot change: the
    clock, the web and, unless a page is requested, the number of
    requests made. *)
Definition same_env (w w' : World) : Prop :=
  clock w' = clock w /\ web w' = web w /\ requests w' = requests w.

(** A computation on a state that holds a world leaves the environment
    alone. *)
Definition quiet_on {S A : Type} (proj : S -> World) (m : M S A) : Prop :=
  forall s, same_env (proj s) (proj (snd (m s))).

(** The names a record gives under a key that may be absent. *)
Definition names_of (names : option (list str)) : list str :=
  match names with Some l => l | None => [] end.

(** The field values of the draft [save_to_db] stores for a record with
    the given title, summary and URL, stamped at time [t]. *)
Definition draft_of (data : BaseParser.Data) (title_ summary_ url_ : str)
           (t : datetime) : Fields :=
  {| title := title_;
     source_name := BaseParser.get_default (BaseParser.source_name data) [];
     original_url := Some url_;
     publication_date :=
       match BaseParser.publication_date data with Some d => d | None => None end;
     authors := BaseParser.get_default (BaseParser.authors data) [];
     summary := summary_;
     full_text_content :=
       Some (BaseParser.get_default (BaseParser.full_text_content data) []);
     status := STATUS_DRAFT;
     added_by := None;
     published_by := None;
     created_at := Some t;
     updated_at := Some t;
     published_at := None |}.

(** The links of an article to a list of terms. *)
Definition links_to (key : N) (terms : list Term) : list (N * N) :=
  map (fun t => (key, term_id t)) terms.

(** The strategy the application's registry selects for a URL. *)
Definition strategy_for (url_ : str) : option strategy :=
  if contains (u "rootsofloneliness.com") url_ then Some RootsOfLoneliness
  else if contains (u "cnbc.com") url_ then Some Cnbc
  else None.

(** The record a strategy builds for a URL from the page fetched for
    it. *)
Definition record_of `{Runtime} (s : strategy) (url_ : str)
           (page : Bs4.PageElement) (today : date) : BaseParser.Data :=
  match s with
  | Cnbc =>
      CnbcParser.build
        (BaseParser.set_soup (CnbcParser.init url_) (Some page)) today
  | RootsOfLoneliness =>
      RootsOfLonelinessParser.build
        (BaseParser.set_soup (RootsOfLonelinessParser.init url_) (Some page)) today
  end.

(** The world after one more request. *)
Definition requested (w : World) : World :=
  set_requests w (S (requests w)).

(** What a pattern stands for: [matches I r s rest] says that [r]
    matches a prefix of [s] that leaves [rest] unread. Groups play no
    part in whether a pattern matches. *)
Fixpoint matches (I : bool) (r : Re.regex) (s rest : str) : Prop :=
  match r with
  | Re.Eps => rest = s
  | Re.Atom a => exists c, s = c :: rest /\ Re.atom_ok I a c = true
  | Re.Cat r1 r2 => exists mid, matches I r1 s mid /\ matches I r2 mid rest
  | Re.Alt r1 r2 => matches I r1 s rest \/ matches I r2 s rest
  | Re.Rep a lo hi =>
      exists taken,
        s = taken ++ rest
        /\ Forall (fun c => Re.atom_ok I a c = true) taken
        /\ lo <= List.length taken
        /\ match hi with Some h => List.length taken <= h | None => True end
  | Re.Grp _ r1 => matches I r1 s rest
  end.

(** One of the words occurs in the text, up to case. *)
Definition mentions (words : list string) (t : str) : Prop :=
  exists p, In p words /\ occurs_ignoring_case (u p) t.

(** The text holds a decimal digit. *)
Definition has_number `{Runtime} (t : str) : Prop :=
  exists c, In c t /\ isdecimal c = true.

(** The text holds a decimal digit directly followed by [tail]. *)
Definition digit_then `{Runtime} (tail t : str) : Prop :=
  exists before d after,
    t = before ++ d :: tail ++ after /\ isdecimal d = true.

(** The paragraphs and list items of a page, as the statistics
    extractors read them: the stripped text of each, in document
    order. *)
Definition item_texts (page : Bs4.PageElement) (names : list str) : list str :=
  map (fun element => strip (Bs4.text element)) (Bs4.find_all page names Bs4.any).

(** The text holds two decimal digits with exactly [sep] between
    them. *)
Definition digits_around `{Runtime} (sep t : str) : Prop :=
  exists before d d2 after,
    t = before ++ d :: sep ++ d2 :: after
    /\ isdecimal d = true /\ isdecimal d2 = true.

(** The words of the CNBC strategy's topic and study patterns. *)
Definition topic_words : list string :=
  ["lone"; "isolat"; "disconnect"; "social"]%string.

Definition study_words : list string :=
  ["Cigna"; "survey"; "study"; "report"]%string.

(** The instance [ArticleAdmin.save_model] hands to [Article.save]:
    the instance the form filled in, with the users recorded. *)
Definition admin_instance (user : option N) (status_changed change : bool)
           (a : Article) : Article :=
  let a1 :=
    if negb change && negb (BaseParser.present (added_by (fields a)))
    then match user with
         | Some _ => set_fields a (Admin.set_added_by (fields a) user)
         | None => a
         end
    else a in
  if status_changed && Py.eqb (status (fields a1)) STATUS_PUBLISHED
     && negb (BaseParser.present (published_by (fields a1)))
  then match user with
       | Some _ => set_fields a1 (Admin.set_published_by (fields a1) user)
       | None => a1
       end
  else a1.

(** The instance the admin's change form saves for a stored row: the
    row loaded, with the status the form gives. *)
Definition edited (r : ArticleRow) (new_status : str) : Article :=
  set_fields (from_db r) (set_status (row r) new_status).


End Props.

Unset Implicit Arguments.

(* ===================================================================== *)
(** ** Strings and patterns *)
(* ===================================================================== *)

Section StringFacts.
Import Py Props.

Lemma str_eqb_eq (a b : str) : Py.eqb a b = true <-> a = b.
Proof.
  unfold Py.eqb. destruct (list_eq_dec N.eq_dec a b); split; congruence.
Qed.

Lemma str_eqb_refl (a : str) : Py.eqb a a = true.
Proof. apply str_eqb_eq. reflexivity. Qed.

Lemma str_eqb_neq (a b : str) : Py.eqb a b = false <-> a <> b.
Proof.
  unfold Py.eqb. destruct (list_eq_dec N.eq_dec a b); split; congruence.
Qed.

Lemma startswith_spec (s prefix : str) :
  startswith s prefix = true <-> exists rest, s = prefix ++ rest.
Proof.
  revert s. induction prefix as [|p prefix IH]; intros s; simpl.
  - split; [intros _; exists s; reflexivity | destruct s; reflexivity].
  - destruct s as [|c s].
    + split; [discriminate | intros [rest Hr]; discriminate].
    + simpl. rewrite andb_true_iff, N.eqb_eq, IH. split.
      * intros [-> [rest ->]]. exists rest. reflexivity.
      * intros [rest Hr]. injection Hr as -> ->. split; [reflexivity | eauto].
Qed.

Lemma contains_spec (needle hay : str) :
  contains needle hay = true <-> occurs_in needle hay.
Proof.
  unfold occurs_in. induction hay as [|c hay IH].
  - cbn [contains]. rewrite orb_false_r, startswith_spec. split.
    + intros [rest Hr]. exists [], rest. exact Hr.
    + intros [before [after Hr]]. destruct before.
      * exists after. exact Hr.
      * discriminate.
  - cbn [contains]. rewrite orb_true_iff, startswith_spec, IH. split.
    + intros [[rest Hr] | [before [after Hr]]].
      * exists [], rest. exact Hr.
      * exists (c :: before), after. rewrite Hr. reflexivity.
    + intros [before [after Hr]]. destruct before as [|b before].
      * left. exists after. exact Hr.
      * right. injection Hr as _ Hr. exists before, after. exact Hr.
Qed.

Lemma contains_false (needle hay : str) :
  contains needle hay = false <-> ~ occurs_in needle hay.
Proof.
  rewrite <- contains_spec. destruct (contains needle hay); split;
    congruence.
Qed.
End StringFacts.

Section PatternFacts.
Import Py Props Re.

(** A run of literals matches at the start of the text exactly when the
    text starts with characters that match them one by one. *)
Lemma mtch_lits (I : bool) (R : Type) (p s : str) (gs : groups)
      (k : str -> groups -> option R) :
  mtch I (lits p) s gs k =
  if forallb (fun pc => atom_ok I (Lit (fst pc)) (snd pc)) (combine p s)
     && (List.length p <=? List.length s)
  then k (skipn (List.length p) s) gs
  else None.
Proof.
  revert s. induction p as [|c p IH]; intros s.
  - reflexivity.
  - destruct s as [|x s]; [reflexivity|].
    cbn [lits mtch combine forallb fst snd List.length skipn].
    destruct (atom_ok I (Lit c) x); [|reflexivity].
    rewrite IH. reflexivity.
Qed.

Lemma match_here_lits (I : bool) (p s : str) :
  found (match_here I (lits p) s) = true <->
  exists middle after,
    s = middle ++ after
    /\ Forall2 (fun a c => lit_matches I a c = true) p middle.
Proof.
  unfold match_here. rewrite mtch_lits.
  revert s. induction p as [|c p IH]; intros s.
  - simpl. split; [intros _; exists [], s; auto | reflexivity].
  - destruct s as [|x s].
    + simpl. split; [discriminate|].
      intros [middle [after [Hs HF]]]. inversion HF; subst. discriminate.
    + cbn [combine forallb fst snd List.length skipn atom_ok].
      change (S (List.length p) <=? S (List.length s))
        with (List.length p <=? List.length s).
      destruct (lit_matches I c x) eqn:Hc; cbn [andb].
      * rewrite IH. split.
        -- intros [middle [after [-> HF]]]. exists (x :: middle), after.
           split; [reflexivity | constructor; assumption].
        -- intros [middle [after [Hs HF]]]. inversion HF; subst.
           injection Hs as -> ->. eauto.
      * split; [discriminate|].
        intros [middle [after [Hs HF]]]. inversion HF; subst.
        injection Hs as -> ->. congruence.
Qed.

Lemma search_found_iff (I : bool) (r : regex) (s : str) :
  found (search I r s) = true <->
  exists before rest, s = before ++ rest /\ found (match_here I r rest) = true.
Proof.
  induction s as [|c s IH].
  - cbn [search]. destruct (match_here I r []) eqn:E.
    + split; [intros _; exists [], []; rewrite E; auto | reflexivity].
    + split; [discriminate|].
      intros [before [rest [Hs Hf]]].
      destruct before; [|discriminate]. simpl in Hs. subst rest.
      rewrite E in Hf. discriminate.
  - cbn [search]. destruct (match_here I r (c :: s)) eqn:E.
    + split; [intros _; exists [], (c :: s); rewrite E; auto | reflexivity].
    + rewrite IH. split.
      * intros [before [rest [-> Hf]]]. exists (c :: before), rest. auto.
      * intros [before [rest [Hs Hf]]]. destruct before as [|b before].
        -- simpl in Hs. subst rest. rewrite E in Hf. discriminate.
        -- injection Hs as _ ->. eauto.
Qed.

(** [re.search] for a literal pattern finds it exactly when it occurs. *)
Lemma search_lits (p s : str) :
  found (search true (lits p) s) = true <-> occurs_ignoring_case p s.
Proof.
  rewrite search_found_iff. unfold occurs_ignoring_case. split.
  - intros [before [rest [-> Hm]]]. apply match_here_lits in Hm.
    destruct Hm as [middle [after [-> HF]]]. eauto.
  - intros [before [middle [after [-> HF]]]].
    exists before, (middle ++ after). split; [reflexivity|].
    apply match_here_lits. eauto.
Qed.
End PatternFacts.

(* ===================================================================== *)
(** ** What the patterns stand for *)
(* ===================================================================== *)

Section PatternMeaning.
Import Py Props Re.

Lemma rep_matches (I : bool) (R : Type) (a : atom) (s : str) :
  forall (lo : nat) (hi : option nat) (k : str -> option R),
    rep I a lo hi s k <> None
    <-> exists taken rest,
          s = taken ++ rest
          /\ Forall (fun c => atom_ok I a c = true) taken
          /\ lo <= List.length taken
          /\ match hi with Some h => List.length taken <= h | None => True end
          /\ k rest <> None.
Proof.
  induction s as [|c s IH]; intros lo hi k.
  - cbn [rep]. split.
    + destruct lo; [|intros Habs; contradiction].
      intros Hk. exists [], []. repeat split; auto. destruct hi; [cbn; lia | constructor].
    + intros [taken [rest [Hs [_ [Hlo [_ Hk]]]]]].
      destruct taken; [|discriminate]. cbn in Hs. subst rest.
      destruct lo; [exact Hk | cbn in Hlo; lia].
  - cbn [rep].
    set (stop := match lo with O => k (c :: s) | S _ => None end).
    assert (Hstop : stop <> None <->
                    (lo = 0 /\ k (c :: s) <> None)).
    { unfold stop. destruct lo; split.
      - intros Hk. auto.
      - intros [_ Hk]. exact Hk.
      - intros Habs. contradiction.
      - intros [Habs _]. discriminate. }
    assert (Hzero : lo = 0 /\ k (c :: s) <> None ->
              exists taken rest,
                c :: s = taken ++ rest
                /\ Forall (fun c0 => atom_ok I a c0 = true) taken
                /\ lo <= List.length taken
                /\ match hi with Some h => List.length taken <= h | None => True end
                /\ k rest <> None).
    { intros [-> Hk]. exists [], (c :: s). repeat split; auto.
      destruct hi; [cbn; lia | constructor]. }
    destruct (atom_ok I a c && match hi with Some O => false | _ => true end)
      eqn:Hcond.
    + apply andb_true_iff in Hcond. destruct Hcond as [Hc Hhi].
      specialize (IH (pred lo) (option_map pred hi) k).
      destruct (rep I a (pred lo) (option_map pred hi) s k) as [x|] eqn:Hinner.
      * split; [|intros _; discriminate]. intros _.
        destruct (proj1 IH) as [taken [rest [Hs [Hall [Hlo [Hbound Hk]]]]]];
          [discriminate|].
        exists (c :: taken), rest. subst s. split; [reflexivity|].
        split; [constructor; assumption|]. split; [cbn; lia|].
        split; [|exact Hk].
        destruct hi as [[|h]|]; [discriminate | cbn in *; lia | constructor].
      * rewrite Hstop. split; [exact Hzero|].
        intros [taken [rest [Hs [Hall [Hlo [Hbound Hk]]]]]].
        destruct taken as [|c0 taken].
        -- cbn in Hs. subst rest. split; [cbn in Hlo; lia | exact Hk].
        -- exfalso. injection Hs as <- ->. apply (proj2 IH); [|reflexivity].
           exists taken, rest. inversion Hall; subst.
           split; [reflexivity|]. split; [assumption|].
           split; [cbn in Hlo; lia|]. split; [|exact Hk].
           destruct hi as [[|h]|]; [discriminate | cbn in *; lia | constructor].
    + rewrite Hstop. split; [exact Hzero|].
      intros [taken [rest [Hs [Hall [Hlo [Hbound Hk]]]]]].
      destruct taken as [|c0 taken].
      * cbn in Hs. subst rest. split; [cbn in Hlo; lia | exact Hk].
      * exfalso. injection Hs as <- ->. inversion Hall; subst.
        apply andb_false_iff in Hcond. destruct Hcond as [Hc | Hhi]; [congruence|].
        destruct hi as [[|h]|]; [cbn in Hbound; lia | discriminate | discriminate].
Qed.

(** The matcher succeeds exactly when the pattern matches a prefix and
    the rest of the pattern accepts what is left, provided that the
    rest of the pattern does not look at the groups to decide. *)
Lemma mtch_matches (I : bool) (R : Type) (r : regex) :
  forall (s : str) (gs : groups) (k : str -> groups -> option R),
    (forall s' gs1 gs2, k s' gs1 <> None -> k s' gs2 <> None) ->
    (mtch I r s gs k <> None
     <-> exists rest, matches I r s rest /\ k rest gs <> None).
Proof.
  induction r as [|a|r1 IH1 r2 IH2|r1 IH1 r2 IH2|a lo hi|n r1 IH1];
    intros s gs k Hk; cbn [mtch matches].
  - split.
    + intros Hs. exists s. auto.
    + intros [rest [-> Hs]]. exact Hs.
  - destruct s as [|c s].
    + split; [intros Habs; contradiction|].
      intros [rest [[c [Habs _]] _]]. discriminate.
    + destruct (atom_ok I a c) eqn:Hc.
      * split.
        -- intros Hs. exists s. split; [exists c; auto | exact Hs].
        -- intros [rest [[c0 [[= <- <-] _]] Hs]]. exact Hs.
      * split; [intros Habs; contradiction|].
        intros [rest [[c0 [[= <- <-] Hc0]] _]]. congruence.
  - assert (Hk2 : forall s' gs1 gs2,
               mtch I r2 s' gs1 k <> None -> mtch I r2 s' gs2 k <> None).
    { intros s' gs1 gs2 H1. apply (IH2 s' gs1 k Hk) in H1.
      destruct H1 as [rest [Hm Hr]]. apply (IH2 s' gs2 k Hk).
      exists rest. split; [exact Hm | apply (Hk _ gs1); exact Hr]. }
    rewrite (IH1 s gs (fun s1 gs1 => mtch I r2 s1 gs1 k) Hk2). split.
    + intros [mid [H1 H2]]. apply (IH2 mid gs k Hk) in H2.
      destruct H2 as [rest [H2 Hr]]. exists rest. split; [exists mid; auto | exact Hr].
    + intros [rest [[mid [H1 H2]] Hr]]. exists mid. split; [exact H1|].
      apply (IH2 mid gs k Hk). exists rest. auto.
  - specialize (IH1 s gs k Hk). specialize (IH2 s gs k Hk).
    destruct (mtch I r1 s gs k) as [x|] eqn:E1.
    + split; [|intros _; discriminate]. intros _.
      destruct (proj1 IH1) as [rest [Hm Hr]]; [discriminate|].
      exists rest. auto.
    + rewrite IH2. split.
      * intros [rest [Hm Hr]]. exists rest. auto.
      * intros [rest [[Hm | Hm] Hr]].
        -- exfalso. apply (proj2 IH1); [|reflexivity]. exists rest. auto.
        -- exists rest. auto.
  - rewrite rep_matches. split.
    + intros [taken [rest [Hs [Hall [Hlo [Hhi Hr]]]]]]. exists rest.
      split; [exists taken; auto | exact Hr].
    + intros [rest [[taken [Hs [Hall [Hlo Hhi]]]] Hr]]. exists taken, rest. auto.
  - rewrite (IH1 s gs (fun s1 gs1 =>
                         k s1 ((n, firstn (List.length s - List.length s1) s) :: gs1))).
    + split.
      * intros [rest [Hm Hr]]. exists rest. split; [exact Hm|].
        apply (Hk _ _ _ Hr).
      * intros [rest [Hm Hr]]. exists rest. split; [exact Hm|].
        apply (Hk _ _ _ Hr).
    + intros s' gs1 gs2 Hr. apply (Hk _ _ _ Hr).
Qed.

Lemma found_not_none (m : option groups) : found m = true <-> m <> None.
Proof. destruct m; cbn; split; congruence. Qed.

(** [re.search] finds a pattern exactly where the pattern matches. *)
Lemma search_matches (I : bool) (r : regex) (s : str) :
  found (search I r s) = true
  <-> exists before rest after,
        s = before ++ rest /\ matches I r rest after.
Proof.
  rewrite search_found_iff. split.
  - intros [before [rest [Hs Hm]]]. apply found_not_none in Hm.
    unfold match_here in Hm. apply mtch_matches in Hm; [|discriminate].
    destruct Hm as [after [Hm _]]. exists before, rest, after. auto.
  - intros [before [rest [after [Hs Hm]]]]. exists before, rest.
    split; [exact Hs|]. apply found_not_none. unfold match_here.
    apply mtch_matches; [discriminate|]. exists after. split; [exact Hm | discriminate].
Qed.

Lemma matches_lits (I : bool) (p s rest : str) :
  matches I (lits p) s rest
  <-> exists middle, s = middle ++ rest
                     /\ Forall2 (fun a c => lit_matches I a c = true) p middle.
Proof.
  revert s. induction p as [|c p IH]; intros s; cbn [lits matches].
  - split.
    + intros ->. exists []. split; [reflexivity | constructor].
    + intros [middle [-> Hall]]. inversion Hall. reflexivity.
  - split.
    + intros [mid [[c0 [-> Hc]] Hm]]. apply IH in Hm.
      destruct Hm as [middle [-> Hall]]. exists (c0 :: middle).
      split; [reflexivity | constructor; assumption].
    + intros [middle [-> Hall]]. inversion Hall as [|? c0 ? middle' Hc Hall']; subst.
      exists (middle' ++ rest). split; [exists c0; auto|].
      apply IH. exists middle'. auto.
Qed.

Lemma lits_exact (p middle : str) :
  Forall2 (fun a c => lit_matches false a c = true) p middle <-> middle = p.
Proof.
  split.
  - intros Hall. induction Hall as [|a c p middle Hc _ IH]; [reflexivity|].
    cbn [lit_matches] in Hc. apply N.eqb_eq in Hc. subst. reflexivity.
  - intros ->. induction p as [|a p IH]; constructor; [|exact IH].
    cbn [lit_matches]. apply N.eqb_refl.
Qed.

(** A search for one of several words. *)
Lemma search_words (words : list string) (s : str) :
  words <> [] ->
  (found (search true (alts (map lit words)) s) = true <-> mentions words s).
Proof.
  intros Hne. rewrite search_matches. unfold mentions, occurs_ignoring_case.
  assert (Halts : forall ws rest after, ws <> [] ->
            (matches true (alts (map lit ws)) rest after
             <-> exists p, In p ws /\ matches true (lit p) rest after)).
  { induction ws as [|w0 ws IH]; intros rest after Hws; [contradiction|].
    destruct ws as [|w1 ws].
    - cbn [map alts]. split.
      + intros Hm. exists w0. split; [left; reflexivity | exact Hm].
      + intros [p [[<- | []] Hm]]. exact Hm.
    - change (alts (map lit (w0 :: w1 :: ws)))
        with (Alt (lit w0) (alts (map lit (w1 :: ws)))).
      cbn [matches]. rewrite IH by discriminate. split.
      + intros [Hm | [p [Hin Hm]]].
        * exists w0. split; [left; reflexivity | exact Hm].
        * exists p. split; [right; exact Hin | exact Hm].
      + intros [p [[<- | Hin] Hm]]; [left; exact Hm | right; exists p; auto]. }
  split.
  - intros [before [rest [after [Hs Hm]]]]. apply Halts in Hm; [|exact Hne].
    destruct Hm as [p [Hin Hm]]. unfold lit in Hm. apply matches_lits in Hm.
    destruct Hm as [middle [-> Hall]]. exists p. split; [exact Hin|].
    exists before, middle, after. auto.
  - intros [p [Hin [before [middle [after [Hs Hall]]]]]].
    exists before, (middle ++ after), after. split; [exact Hs|].
    apply Halts; [exact Hne|]. exists p. split; [exact Hin|].
    unfold lit. apply matches_lits. exists middle. auto.
Qed.

Lemma split_last {A} (l : list A) :
  l <> [] -> exists front x, l = front ++ [x].
Proof.
  intros Hne. destruct (exists_last Hne) as [front [x Hl]]. exists front, x. exact Hl.
Qed.

(** [\d+] followed by a pattern: a digit directly followed by a match
    of the pattern. *)
Lemma matches_digits_then (I : bool) (f : N -> bool) (r : regex) (s after : str) :
  (exists before rest, s = before ++ rest
                       /\ matches I (Cat (plus (Cls f)) r) rest after)
  <-> (exists before d rest, s = before ++ d :: rest /\ f d = true
                             /\ matches I r rest after).
Proof.
  cbn [matches plus atom_ok]. split.
  - intros [before [rest [-> [mid [[taken [-> [Hall [Hlen _]]]] Hm]]]]].
    destruct (split_last taken) as [front [d ->]].
    { intros ->. cbn in Hlen. lia. }
    apply Forall_app in Hall. destruct Hall as [_ Hd]. inversion Hd; subst.
    exists (before ++ front), d, mid. split; [|auto].
    rewrite <- !app_assoc. reflexivity.
  - intros [before [d [rest [-> [Hd Hm]]]]].
    exists before, (d :: rest). split; [reflexivity|].
    exists rest. split; [|exact Hm]. exists [d]. split; [reflexivity|].
    split; [constructor; [exact Hd | constructor]|]. split; [cbn; lia | constructor].
Qed.

End PatternMeaning.

(* ===================================================================== *)
(** ** The dispatcher *)
(* ===================================================================== *)

Section Dispatcher.
Import Py Props BaseParser ParserManager.

Lemma get_parser_for_url_none (parsers : registry) (url_ : str) :
  Forall (fun entry => ~ occurs_in (fst entry) url_) parsers ->
  get_parser_for_url parsers url_ = None.
Proof.
  induction 1 as [|[domain parser_class] rest Hd _ IH]; [reflexivity|].
  simpl in *. apply contains_false in Hd. rewrite Hd. exact IH.
Qed.

Lemma get_parser_for_url_skip (before rest : registry) (url_ : str) :
  Forall (fun entry => ~ occurs_in (fst entry) url_) before ->
  get_parser_for_url (before ++ rest) url_ = get_parser_for_url rest url_.
Proof.
  induction 1 as [|[domain parser_class] before Hd _ IH]; [reflexivity|].
  simpl in *. apply contains_false in Hd. rewrite Hd. exact IH.
Qed.

(** C5. The dispatcher answers with the class of the earliest entry of
    the registry whose domain occurs in the URL, instantiated on that
    URL, and with [None] exactly when no registered domain occurs in
    it: one of the two descriptions below always applies. *)
Theorem get_parser_for_url_first_match (parsers : registry) (url_ : str) :
  (exists before domain parser_class after,
      parsers = before ++ (domain, parser_class) :: after
      /\ occurs_in domain url_
      /\ Forall (fun entry => ~ occurs_in (fst entry) url_) before
      /\ get_parser_for_url parsers url_
         = Some (parser_class, new parser_class url_))
  \/ (Forall (fun entry => ~ occurs_in (fst entry) url_) parsers
      /\ get_parser_for_url parsers url_ = None).
Proof.
  induction parsers as [|[domain parser_class] rest IH].
  - right. split; [constructor | reflexivity].
  - destruct (contains domain url_) eqn:Hd.
    + left. exists [], domain, parser_class, rest.
      repeat split.
      * apply contains_spec. exact Hd.
      * constructor.
      * simpl. rewrite Hd. reflexivity.
    + apply contains_false in Hd.
      destruct IH as [[before [d [c [after [-> [Ho [Hb Hr]]]]]]] | [Hall Hr]].
      * left. exists ((domain, parser_class) :: before), d, c, after.
        repeat split; [assumption | constructor; assumption |].
        apply contains_false in Hd. simpl. rewrite Hd. exact Hr.
      * right. split; [constructor; assumption |].
        apply contains_false in Hd. simpl. rewrite Hd. exact Hr.
Qed.

(** The precedence example of the design document: with the domains
    [a.com] and [a.com.evil.com] registered in this order, a URL of the
    second site is given to the class registered first. *)
Example dispatcher_precedence :
  option_map (fun r => parser_source_name (snd r))
    (get_parser_for_url
       [(u "a.com", @RootsOfLonelinessParser.class Sample.runtime);
        (u "a.com.evil.com", @CnbcParser.class Sample.runtime)]
       (u "http://a.com.evil.com/x"))
  = Some (u "Roots Of Loneliness").
Proof. vm_compute. reflexivity. Qed.
End Dispatcher.

Section RegistryExamples.
Import Py Lib BaseParser ParserManager.

(** The registry of the application on its two sites and on another
    one. *)
Example registry_of_the_application :
  option_map (fun r => parser_source_name (snd r))
    (get_parser_for_url (@init Sample.runtime)
       (u "https://www.cnbc.com/2020/01/23/loneliness.html"))
  = Some (u "CNBC")
  /\ option_map (fun r => parser_source_name (snd r))
       (get_parser_for_url (@init Sample.runtime)
          (u "https://www.rootsofloneliness.com/loneliness-statistics"))
     = Some (u "Roots Of Loneliness")
  /\ option_map (fun r => parser_source_name (snd r))
       (get_parser_for_url (@init Sample.runtime) (u "https://example.org/"))
     = None.
Proof. repeat split; vm_compute; reflexivity. Qed.
End RegistryExamples.

(* ===================================================================== *)
(** ** Summaries, tags and titles *)
(* ===================================================================== *)

Section Summaries.
Import Py Props Re.

Lemma pick_sentences_spec (sentences relevant : list str) :
  List.length relevant < 3 ->
  CnbcParser.pick_sentences sentences relevant
  = firstn 3 (relevant
              ++ filter (fun s => found (search true CnbcParser.summary_re s))
                        sentences).
Proof.
  revert relevant. induction sentences as [|s rest IH]; intros relevant Hlen.
  - cbn [CnbcParser.pick_sentences filter]. rewrite app_nil_r.
    symmetry. apply firstn_all2. lia.
  - cbn [CnbcParser.pick_sentences filter].
    destruct (found (search true CnbcParser.summary_re s)).
    + destruct (3 <=? List.length (relevant ++ [s])) eqn:Hfull.
      * apply Nat.leb_le in Hfull. rewrite length_app in Hfull. simpl in Hfull.
        assert (Hthree : List.length (relevant ++ [s]) = 3)
          by (rewrite length_app; simpl; lia).
        change (relevant ++ s :: filter _ rest)
          with (relevant ++ [s] ++ filter (fun s0 => found (search true CnbcParser.summary_re s0)) rest).
        rewrite app_assoc, firstn_app, Hthree, Nat.sub_diag.
        rewrite firstn_O, app_nil_r. symmetry. apply firstn_all2. lia.
      * apply Nat.leb_gt in Hfull. rewrite IH by exact Hfull.
        rewrite <- app_assoc. reflexivity.
    + destruct (3 <=? List.length relevant) eqn:Hfull.
      * apply Nat.leb_le in Hfull. lia.
      * apply IH. exact Hlen.
Qed.

Lemma keyword_sentences_empty : keyword_sentences [] = [].
Proof. reflexivity. Qed.

(** C3, as amended. The CNBC strategy follows the three tiers with at
    most three statistics; the Roots Of Loneliness strategy has two
    tiers only, with at most five statistics, and never looks at the
    body text. *)
Theorem create_summary_tiers (statistics : list str) (content : str) :
  summary_of Cnbc statistics content
  = three_tier CnbcParser.lead_in 3 CnbcParser.default_summary
               statistics content
  /\ summary_of RootsOfLoneliness statistics content
     = two_tier RootsOfLonelinessParser.lead_in 5
                RootsOfLonelinessParser.default_summary statistics.
Proof.
  split.
  - unfold summary_of, CnbcParser.create_summary, three_tier.
    destruct statistics as [|stat rest]; [|reflexivity].
    destruct content as [|c content].
    + cbn [truthy]. rewrite keyword_sentences_empty. reflexivity.
    + cbn [truthy]. unfold keyword_sentences, slice_to.
      rewrite pick_sentences_spec by (cbn [List.length]; lia). cbn [app].
      destruct (firstn 3 _); reflexivity.
  - unfold summary_of, RootsOfLonelinessParser.create_summary, two_tier.
    destruct statistics; reflexivity.
Qed.

(** C3, the claim as stated fails: for the Roots Of Loneliness strategy
    with no statistics and the body of the design document's example,
    the three tiers would give the two keyword sentences, and the
    strategy gives its generic sentence. *)
Lemma roots_summary_has_no_keyword_tier :
  three_tier RootsOfLonelinessParser.lead_in 5
             RootsOfLonelinessParser.default_summary [] Sample.sample_body
  = u "Loneliness is rising. Cigna study shows isolation increasing."
  /\ summary_of RootsOfLoneliness [] Sample.sample_body
     = RootsOfLonelinessParser.default_summary
  /\ summary_of RootsOfLoneliness [] Sample.sample_body
     <> three_tier RootsOfLonelinessParser.lead_in 5
                   RootsOfLonelinessParser.default_summary [] Sample.sample_body.
Proof.
  split; [vm_compute; reflexivity|].
  split; [reflexivity|].
  vm_compute. discriminate.
Qed.

(** The examples of the design document on the CNBC strategy. *)
Example cnbc_summary_of_one_statistic :
  CnbcParser.create_summary [u "40% report loneliness"] Sample.sample_body
  = CnbcParser.lead_in ++ u "• 40% report loneliness".
Proof. vm_compute. reflexivity. Qed.

Example cnbc_summary_of_keyword_sentences :
  CnbcParser.create_summary [] Sample.sample_body
  = u "Loneliness is rising. Cigna study shows isolation increasing.".
Proof. vm_compute. reflexivity. Qed.

(** What [summary_of] stands for: the summary of the record each
    [parse] builds. *)
Lemma summary_of_build (RT : Lib.Runtime) (self : BaseParser.Parser) (today : Lib.date) :
  BaseParser.summary (CnbcParser.build self today)
  = Some (summary_of Cnbc (CnbcParser.extract_statistics self)
                     (CnbcParser.extract_content self))
  /\ BaseParser.summary (RootsOfLonelinessParser.build self today)
     = Some (summary_of RootsOfLoneliness
                        (RootsOfLonelinessParser.extract_statistics self)
                        (RootsOfLonelinessParser.extract_content self)).
Proof. split; reflexivity. Qed.
End Summaries.


Section Tags.
Import Py Props Re CnbcParser.

Lemma found_lit (p : string) (s : str) :
  found (search true (lit p) s) = true <-> occurs_ignoring_case (u p) s.
Proof. apply search_lits. Qed.

(** [r'gen ?z'] under [re.I] is found exactly when the text holds
    "genz" or "gen z", up to case. *)
Lemma found_gen_z (s : str) :
  found (search true gen_z_re s) = true
  <-> occurs_ignoring_case (u "genz") s \/ occurs_ignoring_case (u "gen z") s.
Proof.
  rewrite search_matches. unfold occurs_ignoring_case.
  change gen_z_re
    with (Cat (lits (u "gen")) (Cat (Rep (Lit 32%N) 0 (Some 1)) (lits (u "z")))).
  change (u "genz") with (u "gen" ++ u "z").
  change (u "gen z") with (u "gen" ++ [32%N] ++ u "z").
  split.
  - intros [before [rest [after [Hs Hm]]]]. cbn [matches] in Hm.
    destruct Hm as [mid [Hgen [mid2 [[taken [Hmid [Hok [_ Hlen]]]] Hz]]]].
    apply matches_lits in Hgen. destruct Hgen as [m1 [Hrest H1]].
    apply matches_lits in Hz. destruct Hz as [m3 [Hmid2 H3]].
    subst s rest mid mid2.
    destruct taken as [|c [|c2 taken]]; [left | right | cbn in Hlen; lia].
    + exists before, (m1 ++ m3), after. split.
      * cbn [app]. rewrite <- app_assoc. reflexivity.
      * apply Forall2_app; assumption.
    + exists before, (m1 ++ [c] ++ m3), after. split.
      * rewrite <- !app_assoc. reflexivity.
      * apply Forall2_app; [exact H1|]. apply Forall2_app; [|exact H3].
        constructor; [|constructor]. inversion Hok; subst. assumption.
  - intros [Hocc | Hocc]; destruct Hocc as [before [middle [after [Hs Hall]]]];
      apply Forall2_app_inv_l in Hall;
      destruct Hall as [m1 [m2 [H1 [H2 ->]]]].
    + exists before, ((m1 ++ m2) ++ after), after. split; [exact Hs|].
      cbn [matches]. exists (m2 ++ after). split.
      * apply matches_lits. exists m1. split; [symmetry; apply app_assoc | exact H1].
      * exists (m2 ++ after). split.
        -- exists []. split; [reflexivity|]. split; [constructor|].
           split; cbn; lia.
        -- apply matches_lits. exists m2. split; [reflexivity | exact H2].
    + apply Forall2_app_inv_l in H2.
      destruct H2 as [sp [m3 [Hsp [H3 ->]]]].
      exists before, ((m1 ++ sp ++ m3) ++ after), after. split; [exact Hs|].
      cbn [matches]. exists (sp ++ m3 ++ after). split.
      * apply matches_lits. exists m1. split; [|exact H1].
        rewrite <- !app_assoc. reflexivity.
      * exists (m3 ++ after). split.
        -- exists sp. split; [reflexivity|].
           inversion Hsp as [|? c ? tl Hc Htl]; subst. inversion Htl; subst.
           split; [constructor; [exact Hc | constructor]|]. split; cbn; lia.
        -- apply matches_lits. exists m3. split; [reflexivity | exact H3].
Qed.

(** C8. The tag list of the CNBC strategy is its four base tags
    followed, in a fixed order, by the canonical tag of each pattern
    that is found in the body text; each canonical tag is there once
    when its pattern is found, however often, and not at all otherwise.
    The pattern of "Gen Z" is found exactly when "genz" or "gen z"
    occurs in the text up to case, and a literal pattern is found
    exactly when it occurs in the text up to case. *)
Theorem content_tags_accumulate (content : str) :
  let hit := fun r => found (search true r content) in
  let once := fun (b : bool) => if b then 1 else 0 in
  let count := count_occ (list_eq_dec N.eq_dec) (content_tags content) in
  content_tags content
  = base_tags
    ++ (if hit gen_z_re then [u "Gen Z"] else [])
    ++ (if hit (lit "millennials") then [u "millennials"] else [])
    ++ (if hit (lit "social media") then [u "social media"] else [])
    ++ (if hit (lit "mental health") then [u "mental health"] else [])
  /\ count (u "Gen Z") = once (hit gen_z_re)
  /\ count (u "millennials") = once (hit (lit "millennials"))
  /\ count (u "social media") = once (hit (lit "social media"))
  /\ count (u "mental health") = once (hit (lit "mental health"))
  /\ (hit gen_z_re = true
      <-> occurs_ignoring_case (u "genz") content
          \/ occurs_ignoring_case (u "gen z") content)
  /\ (hit (lit "millennials") = true
      <-> occurs_ignoring_case (u "millennials") content)
  /\ (hit (lit "social media") = true
      <-> occurs_ignoring_case (u "social media") content)
  /\ (hit (lit "mental health") = true
      <-> occurs_ignoring_case (u "mental health") content)
  /\ (occurs_ignoring_case (u "social media") content ->
      occurs_ignoring_case (u "mental health") content ->
      count (u "social media") = 1 /\ count (u "mental health") = 1).
Proof.
  cbv zeta.
  assert (Hshape :
    content_tags content
    = base_tags
      ++ (if found (search true gen_z_re content) then [u "Gen Z"] else [])
      ++ (if found (search true (lit "millennials") content) then [u "millennials"] else [])
      ++ (if found (search true (lit "social media") content) then [u "social media"] else [])
      ++ (if found (search true (lit "mental health") content) then [u "mental health"] else [])).
  { unfold content_tags.
    destruct (found (search true gen_z_re content)),
             (found (search true (lit "millennials") content)),
             (found (search true (lit "social media") content)),
             (found (search true (lit "mental health") content));
      vm_compute; reflexivity. }
  assert (Hcount :
    count_occ (list_eq_dec N.eq_dec) (content_tags content) (u "Gen Z")
      = (if found (search true gen_z_re content) then 1 else 0)
    /\ count_occ (list_eq_dec N.eq_dec) (content_tags content) (u "millennials")
      = (if found (search true (lit "millennials") content) then 1 else 0)
    /\ count_occ (list_eq_dec N.eq_dec) (content_tags content) (u "social media")
      = (if found (search true (lit "social media") content) then 1 else 0)
    /\ count_occ (list_eq_dec N.eq_dec) (content_tags content) (u "mental health")
      = (if found (search true (lit "mental health") content) then 1 else 0)).
  { rewrite Hshape.
    destruct (found (search true gen_z_re content)),
             (found (search true (lit "millennials") content)),
             (found (search true (lit "social media") content)),
             (found (search true (lit "mental health") content));
      vm_compute; repeat split. }
  destruct Hcount as [Hg [Hm [Hs Hh]]].
  repeat (split; [first [exact Hshape | exact Hg | exact Hm | exact Hs | exact Hh
                        | apply found_gen_z | apply found_lit ] |]).
  intros Hsm Hmh. apply found_lit in Hsm. apply found_lit in Hmh.
    rewrite Hs, Hh, Hsm, Hmh. split; reflexivity.
Qed.
End Tags.

Section BuildTags.
Import Py Lib BaseParser.

(** The tags of the record each [parse] builds: for the CNBC strategy
    the list computed from the body text it extracted, for the Roots Of
    Loneliness strategy a fixed list. *)
Lemma tags_of_build `{Runtime} (self : Parser) (today : date) :
  tags (CnbcParser.build self today)
  = Some (CnbcParser.content_tags (CnbcParser.extract_content self))
  /\ tags (RootsOfLonelinessParser.build self today)
     = Some [u "loneliness"; u "statistics"; u "social isolation";
             u "mental health"].
Proof. split; reflexivity. Qed.

(** The example of the design document: a body text that mentions
    social media twice and mental health once. *)
Example content_tags_of_sample :
  CnbcParser.content_tags
    (u "Social media use is rising. Mental health suffers from social media.")
  = [u "loneliness"; u "health"; u "Cigna"; u "survey";
     u "social media"; u "mental health"].
Proof. vm_compute. reflexivity. Qed.
End BuildTags.

Section Titles.
Import Py Sample.

(** C4, a page on which the claim fails: the first [h1] of the page
    holds nothing but a space, and both strategies return the empty
    string instead of their generic title. *)
Theorem extract_title_of_blank_heading :
  CnbcParser.extract_title (parser_on "https://www.cnbc.com/x" blank_heading_page) = []
  /\ RootsOfLonelinessParser.extract_title
       (parser_on "https://www.rootsofloneliness.com/x" blank_heading_page) = [].
Proof. split; vm_compute; reflexivity. Qed.

(** Without any heading the generic titles are returned. *)
Example extract_title_without_heading :
  CnbcParser.extract_title (parser_on "https://www.cnbc.com/x" (page []))
  = u "CNBC Article about Loneliness"
  /\ RootsOfLonelinessParser.extract_title
       (parser_on "https://www.rootsofloneliness.com/x" (page []))
     = u "Loneliness Statistics".
Proof. split; vm_compute; reflexivity. Qed.
End Titles.

Section Dates.
Import Py Lib Re Bs4 BaseParser Props.
Context `{Runtime}.

Lemma cnbc_date_scan_spec (today : date) (elems : list PageElement) :
  try_except
    (rbind (CnbcParser.date_scan elems)
           (fun r => match r with
                     | Some d => Ok (Some d)
                     | None => Ok (Some today)
                     end))
    (Some today)
  = Some (date_of_marker today
            (option_map (fun t => (t, u "%b %d, %Y")) (cnbc_labelled_date elems))).
Proof.
  induction elems as [|elem rest IH]; [reflexivity|].
  cbn [CnbcParser.date_scan cnbc_labelled_date].
  destruct (contains (u "published") (lower (text elem))
            || contains (u "updated") (lower (text elem))); [|exact IH].
  destruct (search false CnbcParser.date_re (text elem)) as [m|]; [|exact IH].
  destruct (group 2 m) as [g|]; [|reflexivity].
  cbn [deref rbind option_map date_of_marker]. unfold strptime_date.
  destruct (strptime g (u "%b %d, %Y")); reflexivity.
Qed.

(** C7. Both strategies return a date in every case: the date the
    parser reads from the page's date marker, and the current date
    when the page has no marker, when the parser rejects the marker,
    and when there is no page at all. The result is never [None]. *)
Theorem extract_publication_date_falls_back (self : Parser) (today : date) :
  CnbcParser.extract_publication_date self today
  = Some (match soup self with
          | Some page => date_of_marker today (cnbc_date_marker page)
          | None => today
          end)
  /\ RootsOfLonelinessParser.extract_publication_date self today
     = Some (match soup self with
             | Some page => date_of_marker today (roots_date_marker page)
             | None => today
             end)
  /\ CnbcParser.extract_publication_date self today <> None
  /\ RootsOfLonelinessParser.extract_publication_date self today <> None
  /\ (forall page,
         soup self = Some page ->
         cnbc_date_marker page = None ->
         CnbcParser.extract_publication_date self today = Some today)
  /\ (forall page,
         soup self = Some page ->
         roots_date_marker page = None ->
         RootsOfLonelinessParser.extract_publication_date self today = Some today)
  /\ (forall page t format,
         soup self = Some page ->
         cnbc_date_marker page = Some (t, format) ->
         strptime t format = None ->
         CnbcParser.extract_publication_date self today = Some today)
  /\ (forall page t format,
         soup self = Some page ->
         roots_date_marker page = Some (t, format) ->
         strptime t format = None ->
         RootsOfLonelinessParser.extract_publication_date self today = Some today).
Proof.
  assert (Hc : CnbcParser.extract_publication_date self today
               = Some (match soup self with
                       | Some page => date_of_marker today (cnbc_date_marker page)
                       | None => today
                       end)).
  { unfold CnbcParser.extract_publication_date, cnbc_date_marker.
    destruct (soup self) as [page|]; [|reflexivity].
    cbn [deref rbind].
    destruct (find page _ _) as [date_element|].
    - cbn [date_of_marker]. unfold strptime_date.
      destruct (strptime _ _); reflexivity.
    - apply cnbc_date_scan_spec. }
  assert (Hr : RootsOfLonelinessParser.extract_publication_date self today
               = Some (match soup self with
                       | Some page => date_of_marker today (roots_date_marker page)
                       | None => today
                       end)).
  { unfold RootsOfLonelinessParser.extract_publication_date, roots_date_marker.
    destruct (soup self) as [page|]; [|reflexivity].
    cbn [deref rbind].
    destruct (RootsOfLonelinessParser.updated_text _) as [[|c t]|];
      [reflexivity | | reflexivity].
    destruct (search false RootsOfLonelinessParser.date_re (c :: t)) as [m|];
      [|reflexivity].
    destruct (group 1 m) as [g|]; [|reflexivity].
    cbn [deref rbind option_map date_of_marker]. unfold strptime_date.
    destruct (strptime g _); reflexivity. }
  repeat split.
  - exact Hc.
  - exact Hr.
  - rewrite Hc. discriminate.
  - rewrite Hr. discriminate.
  - intros page Hp Hm. rewrite Hc, Hp, Hm. reflexivity.
  - intros page Hp Hm. rewrite Hr, Hp, Hm. reflexivity.
  - intros page t format Hp Hm Hs. rewrite Hc, Hp, Hm. cbn. rewrite Hs. reflexivity.
  - intros page t format Hp Hm Hs. rewrite Hr, Hp, Hm. cbn. rewrite Hs. reflexivity.
Qed.
End Dates.

Section DateExamples.
Import Py Lib Sample.

Example cnbc_date_without_marker :
  @CnbcParser.extract_publication_date Sample.runtime
    (parser_on "https://www.cnbc.com/x" (page [el "p" [] [txt "No date here."]]))
    (date_part noon)
  = Some (date_part noon).
Proof. vm_compute. reflexivity. Qed.

Example cnbc_date_with_marker :
  @CnbcParser.extract_publication_date Sample.runtime
    (parser_on "https://www.cnbc.com/x"
       (page [el "p" [] [txt "Published: Mar 5, 2020 by the staff"]]))
    (date_part noon)
  = Some {| year := 2020; month := 3; day := 5 |}.
Proof. vm_compute. reflexivity. Qed.

Example roots_date_with_unparseable_marker :
  @RootsOfLonelinessParser.extract_publication_date Sample.runtime
    (parser_on "https://www.rootsofloneliness.com/x"
       (page [el "p" [] [txt "Updated: Smarch 5, 2020"]]))
    (date_part noon)
  = Some (date_part noon).
Proof. vm_compute. reflexivity. Qed.
End DateExamples.


Section MonadFacts.
Import Lib.
Context {S : Type}.

Lemma bind_ok {A B} (m : M S A) (k : A -> M S B) s a s1 :
  m s = (Ok a, s1) -> bind m k s = k a s1.
Proof. unfold bind. intros ->. reflexivity. Qed.

Lemma bind_exc {A B} (m : M S A) (k : A -> M S B) s e s1 :
  m s = (Exc e, s1) -> bind m k s = (Exc e, s1).
Proof. unfold bind. intros ->. reflexivity. Qed.

Lemma bind_inv {A B} (m : M S A) (k : A -> M S B) s r s' :
  bind m k s = (r, s') ->
  (exists a s1, m s = (Ok a, s1) /\ k a s1 = (r, s'))
  \/ (exists e, m s = (Exc e, s') /\ r = Exc e).
Proof.
  unfold bind. destruct (m s) as [[a|e] s1]; intros Hk.
  - left. eauto.
  - right. injection Hk as <- <-. eauto.
Qed.

Lemma bind_ok_inv {A B} (m : M S A) (k : A -> M S B) s b s' :
  bind m k s = (Ok b, s') ->
  exists a s1, m s = (Ok a, s1) /\ k a s1 = (Ok b, s').
Proof.
  intros Hb. apply bind_inv in Hb.
  destruct Hb as [Hb | [e [_ He]]]; [exact Hb | discriminate].
Qed.
End MonadFacts.

Section StoreFacts.
Import Py Lib Models Props.

Lemma statement_inv (w : World) r w' :
  statement w = (r, w') ->
  db w' = db w /\ clock w' = clock w /\ web w' = web w /\ requests w' = requests w
  /\ (faults w = [] -> r = Ok tt /\ w' = w)
  /\ (forall e, r = Exc e -> e = DatabaseError).
Proof.
  unfold statement. destruct w as [d fs c wb n]; cbn.
  destruct fs as [|[|] fs]; intros [= <- <-]; cbn; repeat split;
    try discriminate; intros e [= <-]; reflexivity.
Qed.

Lemma statement_quiet (w : World) : faults w = [] -> statement w = (Ok tt, w).
Proof. unfold statement. intros ->. reflexivity. Qed.

(** A statement raises exactly when the backend is scheduled to fail on
    it. *)
Lemma statement_raises (w : World) :
  (exists e, fst (statement w) = Exc e) <-> hd false (faults w) = true.
Proof.
  unfold statement. destruct (faults w) as [|[|] fs]; cbn; split;
    try discriminate; try (intros [e He]; discriminate); eauto.
Qed.

Lemma only_terms_added_refl (d : DB) : only_terms_added d d.
Proof.
  unfold only_terms_added. repeat split; try reflexivity;
    exists []; rewrite app_nil_r; reflexivity.
Qed.

Lemma only_terms_added_trans (d1 d2 d3 : DB) :
  only_terms_added d1 d2 -> only_terms_added d2 d3 -> only_terms_added d1 d3.
Proof.
  unfold only_terms_added.
  intros [A1 [B1 [C1 [D1 [[n1 E1] [m1 F1]]]]]] [A2 [B2 [C2 [D2 [[n2 E2] [m2 F2]]]]]].
  repeat split; try congruence.
  - exists (n1 ++ n2). rewrite E2, E1, app_assoc. reflexivity.
  - exists (m1 ++ m2). rewrite F2, F1, app_assoc. reflexivity.
Qed.

Lemma table_set_table (k : kind) (d : DB) (t : list Term) (n : N) :
  table k (set_table k d t n) = t.
Proof. destruct k; reflexivity. Qed.

Lemma only_terms_added_set_table (k : kind) (d : DB) (new : list Term) (n : N) :
  only_terms_added d (set_table k d (table k d ++ new) n).
Proof.
  destruct k; unfold only_terms_added; cbn; repeat split; eauto;
    exists []; rewrite app_nil_r; reflexivity.
Qed.

Lemma only_terms_added_same_table (k : kind) (d : DB) (n : N) :
  only_terms_added d (set_table k d (table k d) n).
Proof.
  destruct k; unfold only_terms_added; cbn; repeat split;
    exists []; rewrite app_nil_r; reflexivity.
Qed.

Lemma only_terms_added_table (k : kind) (d d' : DB) :
  only_terms_added d d' -> exists new, table k d' = table k d ++ new.
Proof. intros [_ [_ [_ [_ [Hc Ht]]]]]. destruct k; assumption. Qed.

(** [get]: the store is left alone; a result is a row of the table with
    the slug asked for; [DoesNotExist] means that no row has it. *)
Lemma get_inv (k : kind) (s : str) (w : World) r w' :
  get k s w = (r, w') ->
  db w' = db w
  /\ (faults w = [] -> w' = w)
  /\ (forall t, r = Ok t -> In t (table k (db w)) /\ slug t = s)
  /\ (r = Exc DoesNotExist -> forall t, In t (table k (db w)) -> slug t <> s).
Proof.
  unfold get. intros Hg. apply bind_inv in Hg.
  destruct Hg as [[[] [w1 [Hs Hg]]] | [e [Hs ->]]];
    apply statement_inv in Hs; destruct Hs as [Hdb [_ [_ [_ [Hq He]]]]].
  - cbv beta iota zeta delta [bind gets] in Hg. rewrite Hdb in Hg.
    assert (Hfilter : forall t, In t (filter (fun t => Py.eqb (slug t) s) (table k (db w)))
                      <-> In t (table k (db w)) /\ slug t = s).
    { intros t. rewrite filter_In, str_eqb_eq. reflexivity. }
    assert (Hw : faults w = [] -> w1 = w) by (intros Hf; apply Hq; exact Hf).
    destruct (filter _ (table k (db w))) as [|t1 [|t2 rest]];
      injection Hg as <- <-; (split; [exact Hdb|]); (split; [exact Hw|]); split.
    + discriminate.
    + intros _ t Hin Hsl. apply (Hfilter t). split; assumption.
    + intros t [= <-]. apply Hfilter. left. reflexivity.
    + discriminate.
    + discriminate.
    + discriminate.
  - split; [exact Hdb|]. split; [|split].
    + intros Hf. destruct (Hq Hf) as [Habs _]. discriminate.
    + discriminate.
    + intros [= ->]. specialize (He _ eq_refl). discriminate.
Qed.

Lemma NoDup_snoc {A} (l : list A) (x : A) :
  NoDup l -> ~ In x l -> NoDup (l ++ [x]).
Proof.
  induction l as [|y l IH]; intros Hnd Hx.
  - constructor; [intros []|constructor].
  - apply NoDup_cons_iff in Hnd. destruct Hnd as [Hy Hnd].
    cbn [app]. constructor.
    + intros Hin. apply in_app_or in Hin. destruct Hin as [Hin|[<-|[]]].
      * contradiction.
      * apply Hx. left. reflexivity.
    + apply IH; [exact Hnd|]. intros Hin. apply Hx. right. exact Hin.
Qed.

Lemma Forall2_In_left {A B} (P : A -> B -> Prop) (xs : list A) (ys : list B) (x : A) :
  Forall2 P xs ys -> In x xs -> exists y, In y ys /\ P x y.
Proof.
  induction 1 as [|x0 y0 xs ys Hp _ IH]; intros Hin; [destruct Hin|].
  destruct Hin as [<- | Hin].
  - exists y0. split; [left; reflexivity | exact Hp].
  - destruct (IH Hin) as [y [Hy Hpy]]. exists y. split; [right|]; assumption.
Qed.

Lemma Forall2_right {A B} (P : A -> B -> Prop) (Q : B -> Prop)
      (xs : list A) (ys : list B) :
  Forall2 P xs ys -> (forall x y, P x y -> Q y) -> Forall Q ys.
Proof.
  induction 1 as [|x0 y0 xs ys Hp _ IH]; intros Hq; constructor; eauto.
Qed.

Lemma filter_none {A} (f : A -> bool) (l : list A) :
  (forall x, In x l -> f x = false) -> filter f l = [].
Proof.
  induction l as [|x rest IH]; intros Hno; [reflexivity|].
  cbn [filter]. rewrite (Hno x (or_introl eq_refl)).
  apply IH. intros y Hy. apply Hno. right. exact Hy.
Qed.

Lemma filter_slug_unique (s : str) (t : Term) (l : list Term) :
  NoDup (map slug l) -> In t l -> slug t = s ->
  filter (fun t0 => Py.eqb (slug t0) s) l = [t].
Proof.
  induction l as [|x rest IH]; intros Hnd Hin Hsl; [contradiction|].
  cbn [map] in Hnd. apply NoDup_cons_iff in Hnd. destruct Hnd as [Hnotin Hnd].
  cbn [filter]. destruct Hin as [-> | Hin].
  - rewrite Hsl, str_eqb_refl. f_equal. apply filter_none.
    intros y Hy. apply str_eqb_neq. intros Hys. apply Hnotin.
    rewrite Hsl, <- Hys. apply in_map. exact Hy.
  - destruct (Py.eqb (slug x) s) eqn:E.
    + apply str_eqb_eq in E. exfalso. apply Hnotin. rewrite E, <- Hsl.
      apply in_map. exact Hin.
    + apply IH; assumption.
Qed.

(** With unique slugs and no backend failure, [get] finds the row that
    has the slug. *)
Lemma get_found (k : kind) (s : str) (w : World) (t : Term) :
  faults w = [] ->
  NoDup (map slug (table k (db w))) ->
  In t (table k (db w)) -> slug t = s ->
  get k s w = (Ok t, w).
Proof.
  intros Hf Hnd Hin Hsl. unfold get.
  rewrite (bind_ok _ _ _ _ _ (statement_quiet _ Hf)).
  cbv beta iota zeta delta [bind gets].
  rewrite (filter_slug_unique s t _ Hnd Hin Hsl). reflexivity.
Qed.

Lemma get_missing (k : kind) (s : str) (w : World) :
  faults w = [] ->
  (forall t, In t (table k (db w)) -> slug t <> s) ->
  get k s w = (Exc DoesNotExist, w).
Proof.
  intros Hf Hno. unfold get.
  rewrite (bind_ok _ _ _ _ _ (statement_quiet _ Hf)).
  cbv beta iota zeta delta [bind gets].
  rewrite filter_none; [reflexivity|].
  intros t Hin. apply str_eqb_neq. apply Hno. exact Hin.
Qed.
Lemma advances_refl (w : World) : advances w w.
Proof.
  split; [apply only_terms_added_refl | split; auto].
Qed.

Lemma advances_trans (w1 w2 w3 : World) :
  advances w1 w2 -> advances w2 w3 -> advances w1 w3.
Proof.
  intros [A1 [B1 C1]] [A2 [B2 C2]].
  split; [eapply only_terms_added_trans; eassumption | split; auto].
Qed.

Lemma advances_same_db (w w' : World) :
  db w' = db w -> (faults w = [] -> faults w' = []) -> advances w w'.
Proof.
  intros Hdb Hf. unfold advances. rewrite Hdb.
  split; [apply only_terms_added_refl | split; auto].
Qed.

Lemma advances_In (k : kind) (w w' : World) (t : Term) :
  advances w w' -> In t (table k (db w)) -> In t (table k (db w')).
Proof.
  intros [Hadd _] Hin. destruct (only_terms_added_table k _ _ Hadd) as [new ->].
  apply in_or_app. left. exact Hin.
Qed.

Lemma consistent_table (k : kind) (d : DB) :
  consistent d -> NoDup (map slug (table k d)).
Proof. intros [Hc [Ht _]]. destruct k; assumption. Qed.

Lemma consistent_set_table (k : kind) (d : DB) (t : list Term) (n : N) :
  consistent d -> NoDup (map slug t) -> consistent (set_table k d t n).
Proof.
  intros [Hc [Ht Ha]] Hnd. destruct k; unfold consistent; cbn; auto.
Qed.

Lemma get_advances (k : kind) (s : str) (w : World) r w' :
  get k s w = (r, w') -> advances w w'.
Proof.
  unfold get. intros Hg. apply bind_inv in Hg.
  destruct Hg as [[[] [w1 [Hs Hg]]] | [e [Hs ->]]];
    apply statement_inv in Hs; destruct Hs as [Hdb [_ [_ [_ [Hq He]]]]].
  - cbv beta iota zeta delta [bind gets ret raise] in Hg.
    assert (w' = w1) as ->.
    { destruct (filter _ _) as [|t1 [|t2 rest]]; injection Hg as _ <-; reflexivity. }
    apply advances_same_db; [exact Hdb|].
    intros Hf. destruct (Hq Hf) as [_ ->]. exact Hf.
  - apply advances_same_db; [exact Hdb|].
    intros Hf. destruct (Hq Hf) as [Habs _]. discriminate.
Qed.

(** [insert_term]: whatever happens, only the table of its kind can have
    grown; a result is the new last row of that table, with the name and
    slug given and the key drawn from the sequence. *)
Lemma insert_term_inv (k : kind) (nm sl : str) (w : World) r w' :
  insert_term k nm sl w = (r, w') ->
  advances w w'
  /\ (forall t, r = Ok t ->
        t = {| term_id := sequence k (db w); name := nm; slug := sl |}
        /\ table k (db w') = table k (db w) ++ [t]).
Proof.
  unfold insert_term. intros Hi. apply bind_inv in Hi.
  destruct Hi as [[[] [w1 [Hs Hi]]] | [e [Hs ->]]];
    apply statement_inv in Hs; destruct Hs as [Hdb [_ [_ [_ [Hq He]]]]].
  - cbv beta iota zeta delta [bind gets ret raise modify] in Hi.
    rewrite Hdb in Hi.
    assert (Hfw : faults w = [] -> faults w1 = [])
      by (intros Hf; destruct (Hq Hf) as [_ ->]; exact Hf).
    destruct (existsb _ (table k (db w))) eqn:Htaken; injection Hi as <- <-.
    + split; [|discriminate]. unfold advances. cbn [db faults set_db].
      split; [|split; [|exact Hfw]].
      * apply only_terms_added_same_table.
      * intros Hc. apply consistent_set_table; [exact Hc|].
        apply consistent_table. exact Hc.
    + split.
      * unfold advances. cbn [db faults set_db].
        split; [apply only_terms_added_set_table | split; [|exact Hfw]].
        intros Hc. apply consistent_set_table; [exact Hc|].
        rewrite map_app. cbn [map slug].
        assert (Hfree : ~ In sl (map slug (table k (db w)))).
        { intros Hin. apply in_map_iff in Hin. destruct Hin as [x [Hx Hin]].
          assert (E : existsb (fun r => Py.eqb (name r) nm || Py.eqb (slug r) sl)
                        (table k (db w)) = true).
          { apply existsb_exists. exists x. split; [exact Hin|].
            rewrite Hx, str_eqb_refl, orb_true_r. reflexivity. }
          congruence. }
        apply NoDup_snoc; [apply consistent_table; exact Hc | exact Hfree].
      * intros t [= <-]. split; [reflexivity|].
        cbn [db set_db]. apply table_set_table.
  - split; [|discriminate]. apply advances_same_db; [exact Hdb|].
    intros Hf. destruct (Hq Hf) as [Habs _]. discriminate.
Qed.

(** In a world without scheduled failure, a term whose name and slug
    are both free is inserted. *)
Lemma insert_term_free (k : kind) (nm sl : str) (w : World) :
  faults w = [] ->
  (forall t, In t (table k (db w)) -> slug t <> sl) ->
  (forall t, In t (table k (db w)) -> name t <> nm) ->
  let t := {| term_id := sequence k (db w); name := nm; slug := sl |} in
  insert_term k nm sl w
  = (Ok t, set_db w (set_table k (db w) (table k (db w) ++ [t])
                               (sequence k (db w) + 1))).
Proof.
  intros Hf Hsl Hnm t. unfold insert_term.
  rewrite (bind_ok _ _ _ _ _ (statement_quiet _ Hf)).
  cbv beta iota zeta delta [bind gets ret raise modify].
  assert (E : existsb (fun r => Py.eqb (name r) nm || Py.eqb (slug r) sl)
                (table k (db w)) = false).
  { destruct (existsb _ _) eqn:E; [|reflexivity].
    apply existsb_exists in E. destruct E as [x [Hin Hx]].
    apply orb_true_iff in Hx. destruct Hx as [Hx|Hx]; apply str_eqb_eq in Hx.
    - exfalso. apply (Hnm x Hin Hx).
    - exfalso. apply (Hsl x Hin Hx). }
  rewrite E. reflexivity.
Qed.

(** In a world without scheduled failure, a term whose name is taken by
    a row with another slug is refused. *)
Lemma insert_term_name_taken (k : kind) (nm sl : str) (w : World) (t : Term) :
  faults w = [] ->
  In t (table k (db w)) -> name t = nm ->
  insert_term k nm sl w
  = (Exc IntegrityError,
     set_db w (set_table k (db w) (table k (db w)) (sequence k (db w) + 1))).
Proof.
  intros Hf Hin Hnm. unfold insert_term.
  rewrite (bind_ok _ _ _ _ _ (statement_quiet _ Hf)).
  cbv beta iota zeta delta [bind gets ret raise modify].
  assert (E : existsb (fun r => Py.eqb (name r) nm || Py.eqb (slug r) sl)
                (table k (db w)) = true).
  { apply existsb_exists. exists t. split; [exact Hin|].
    rewrite Hnm, str_eqb_refl. reflexivity. }
  rewrite E. reflexivity.
Qed.
End StoreFacts.

Section TermFacts.
Import Py Lib Models BaseParser Props.
Context `{Runtime}.

(** Called with the slug of the name, as the committer does, [create]
    stores exactly that slug. *)
Lemma create_with_slug_of_name (k : kind) (nm : str) :
  create k nm (slugify nm) = insert_term k nm (slugify nm).
Proof.
  unfold create, SlugMixin_save.
  destruct (slugify nm) as [|c sl] eqn:E; [|reflexivity].
  cbn [truthy negb andb]. destruct (truthy nm); reflexivity.
Qed.

Lemma get_or_create_inv (k : kind) (nm : str) (w : World) r w' :
  get_or_create k (slugify nm) nm w = (r, w') ->
  advances w w'
  /\ (forall t b, r = Ok (t, b) ->
        In t (table k (db w')) /\ slug t = slugify nm).
Proof.
  unfold get_or_create, try_catch.
  destruct (bind (get k (slugify nm)) _ w) as [[p|e] w1] eqn:Hfirst.
  - intros [= <- <-]. apply bind_ok_inv in Hfirst.
    destruct Hfirst as [t [w2 [Hg Hr]]]. injection Hr as <- <-.
    pose proof (get_advances _ _ _ _ _ Hg) as Hadv.
    apply get_inv in Hg. destruct Hg as [Hdb [_ [Hok _]]].
    split; [exact Hadv|]. intros t0 b [= <- <-].
    destruct (Hok t eq_refl) as [Hin Hsl]. rewrite Hdb. auto.
  - apply bind_inv in Hfirst.
    destruct Hfirst as [[t [w2 [_ Hr]]] | [e0 [Hg [= <-]]]]; [discriminate|].
    pose proof (get_advances _ _ _ _ _ Hg) as Hadv1.
    destruct e; try (intros [= <- <-]; split; [exact Hadv1 | discriminate]).
    rewrite create_with_slug_of_name.
    destruct (bind (insert_term k nm (slugify nm)) _ w1) as [[p|e] w2] eqn:Hsecond.
    + intros [= <- <-]. apply bind_ok_inv in Hsecond.
      destruct Hsecond as [t [w3 [Hi Hr]]]. injection Hr as <- <-.
      apply insert_term_inv in Hi. destruct Hi as [Hadv2 Hnew].
      split; [eapply advances_trans; eassumption|].
      intros t0 b [= <- <-]. destruct (Hnew t eq_refl) as [-> ->].
      split; [apply in_or_app; right; left; reflexivity | reflexivity].
    + apply bind_inv in Hsecond.
      destruct Hsecond as [[t [w3 [_ Hr]]] | [e0 [Hi [= <-]]]]; [discriminate|].
      apply insert_term_inv in Hi. destruct Hi as [Hadv2 _].
      pose proof (advances_trans _ _ _ Hadv1 Hadv2) as Hadv12.
      destruct e; try (intros [= <- <-]; split; [exact Hadv12 | discriminate]).
      destruct (bind (get k (slugify nm)) _ w2) as [[p|e] w3] eqn:Hthird.
      * intros [= <- <-]. apply bind_ok_inv in Hthird.
        destruct Hthird as [t [w4 [Hg3 Hr]]]. injection Hr as <- <-.
        pose proof (get_advances _ _ _ _ _ Hg3) as Hadv3.
        apply get_inv in Hg3. destruct Hg3 as [Hdb [_ [Hok _]]].
        split; [eapply advances_trans; eassumption|].
        intros t0 b [= <- <-].
        destruct (Hok t eq_refl) as [Hin Hsl]. rewrite Hdb. auto.
      * apply bind_inv in Hthird.
        destruct Hthird as [[t [w4 [_ Hr]]] | [e0 [Hg3 [= <-]]]]; [discriminate|].
        pose proof (get_advances _ _ _ _ _ Hg3) as Hadv3.
        destruct e; intros [= <- <-];
          (split; [eapply advances_trans; eassumption | discriminate]).
Qed.

(** A term with the slug exists: it is returned as it is, whatever name
    was passed, and nothing is written. *)
Lemma get_or_create_existing (k : kind) (sl nm : str) (w : World) (t : Term) :
  faults w = [] ->
  NoDup (map slug (table k (db w))) ->
  In t (table k (db w)) -> slug t = sl ->
  get_or_create k sl nm w = (Ok (t, false), w).
Proof.
  intros Hf Hnd Hin Hsl. unfold get_or_create, try_catch.
  rewrite (bind_ok _ _ _ _ _ (get_found k sl w t Hf Hnd Hin Hsl)).
  reflexivity.
Qed.

(** No term has the slug and none has the name: a term is created with
    that name and that slug. *)
Lemma get_or_create_new (k : kind) (nm : str) (w : World) :
  faults w = [] ->
  (forall t, In t (table k (db w)) -> slug t <> slugify nm) ->
  (forall t, In t (table k (db w)) -> name t <> nm) ->
  let t := {| term_id := sequence k (db w); name := nm; slug := slugify nm |} in
  get_or_create k (slugify nm) nm w
  = (Ok (t, true),
     set_db w (set_table k (db w) (table k (db w) ++ [t]) (sequence k (db w) + 1))).
Proof.
  intros Hf Hsl Hnm t. unfold get_or_create, try_catch.
  rewrite (bind_exc _ _ _ _ _ (get_missing k _ w Hf Hsl)).
  rewrite create_with_slug_of_name.
  rewrite (bind_ok _ _ _ _ _ (insert_term_free k nm _ w Hf Hsl Hnm)).
  reflexivity.
Qed.

(** No term has the slug but one has the name: the insertion is
    refused and [get_or_create] raises. *)
Lemma get_or_create_name_taken (k : kind) (nm : str) (w : World) (t : Term) :
  faults w = [] ->
  (forall t, In t (table k (db w)) -> slug t <> slugify nm) ->
  In t (table k (db w)) -> name t = nm ->
  exists w', get_or_create k (slugify nm) nm w = (Exc IntegrityError, w').
Proof.
  intros Hf Hsl Hin Hnm. unfold get_or_create, try_catch.
  rewrite (bind_exc _ _ _ _ _ (get_missing k _ w Hf Hsl)).
  rewrite create_with_slug_of_name.
  rewrite (bind_exc _ _ _ _ _ (insert_term_name_taken k nm _ w t Hf Hin Hnm)).
  set (w1 := set_db w _).
  assert (Hf1 : faults w1 = []) by exact Hf.
  assert (Hsl1 : forall t0, In t0 (table k (db w1)) -> slug t0 <> slugify nm).
  { unfold w1. cbn [db set_db]. rewrite table_set_table. exact Hsl. }
  rewrite (bind_exc _ _ _ _ _ (get_missing k _ w1 Hf1 Hsl1)).
  exists w1. reflexivity.
Qed.

Lemma for_each_inv {A B} (f : A -> M World B) (P : A -> B -> World -> Prop)
      (xs : list A) :
  (forall x w r w', f x w = (r, w') -> advances w w'
                    /\ (forall y, r = Ok y -> P x y w')) ->
  (forall x y w w', P x y w -> advances w w' -> P x y w') ->
  forall w r w', for_each f xs w = (r, w') ->
    advances w w' /\ (forall ys, r = Ok ys -> Forall2 (fun x y => P x y w') xs ys).
Proof.
  intros Hf Hmono. induction xs as [|x rest IH]; intros w r w' Hrun.
  - injection Hrun as <- <-. split; [apply advances_refl|].
    intros ys [= <-]. constructor.
  - cbn [for_each] in Hrun. apply bind_inv in Hrun.
    destruct Hrun as [[y [w1 [Hx Hrun]]] | [e [Hx ->]]].
    + destruct (Hf _ _ _ _ Hx) as [Hadv1 Hp]. apply bind_inv in Hrun.
      destruct Hrun as [[ys [w2 [Hrest Hrun]]] | [e [Hrest ->]]].
      * injection Hrun as <- <-. destruct (IH _ _ _ Hrest) as [Hadv2 Hps].
        split; [eapply advances_trans; eassumption|].
        intros ys0 [= <-]. constructor.
        -- eapply Hmono; [apply Hp; reflexivity | exact Hadv2].
        -- apply Hps. reflexivity.
      * destruct (IH _ _ _ Hrest) as [Hadv2 _].
        split; [eapply advances_trans; eassumption | discriminate].
    + destruct (Hf _ _ _ _ Hx) as [Hadv1 _]. split; [exact Hadv1 | discriminate].
Qed.

(** [resolve_terms]: only terms are added, whatever happens; when it
    returns, every name of the record has a term with its slug in the
    table, and these are the terms returned. *)
Lemma resolve_terms_inv (k : kind) (names : option (list str)) (w : World) r w' :
  resolve_terms k names w = (r, w') ->
  advances w w'
  /\ (forall ts, r = Ok ts ->
        all_resolved names (table k (db w'))
        /\ Forall (fun t => In t (table k (db w'))) ts).
Proof.
  unfold resolve_terms. destruct names as [[|n0 l]|].
  - intros [= <- <-]. split; [apply advances_refl|].
    intros ts [= <-]. split; [intros nm []|constructor].
  - intros Hrun.
    set (P := fun (nm : str) (t : Term) (w0 : World) =>
                In t (table k (db w0)) /\ slug t = slugify nm).
    assert (Hstep : forall x w0 r0 w0',
               bind (get_or_create k (slugify x) x) (fun r1 => ret (fst r1)) w0
               = (r0, w0') ->
               advances w0 w0' /\ (forall y, r0 = Ok y -> P x y w0')).
    { intros x w0 r0 w0' Hx. apply bind_inv in Hx.
      destruct Hx as [[[t b] [w1 [Hg Hx]]] | [e [Hg ->]]].
      * injection Hx as <- <-. apply get_or_create_inv in Hg.
        destruct Hg as [Hadv Hok]. split; [exact Hadv|].
        intros y [= <-]. apply (Hok t b). reflexivity.
      * apply get_or_create_inv in Hg. destruct Hg as [Hadv _].
        split; [exact Hadv | discriminate]. }
    assert (Hmono : forall x y w0 w0', P x y w0 -> advances w0 w0' -> P x y w0').
    { intros x y w0 w0' [Hin Hsl] Hadv. split; [|exact Hsl].
      eapply advances_In; eassumption. }
    destruct (for_each_inv _ P (n0 :: l) Hstep Hmono _ _ _ Hrun) as [Hadv Hall].
    split; [exact Hadv|]. intros ts Hr. specialize (Hall ts Hr).
    split.
    + intros nm Hin. destruct (Forall2_In_left _ _ _ _ Hall Hin) as [y [_ Hy]].
      exists y. exact Hy.
    + apply (Forall2_right _ _ _ _ Hall). intros x y [Hy _]. exact Hy.
  - intros [= <- <-]. split; [apply advances_refl|].
    intros ts [= <-]. split; [intros nm []|constructor].
Qed.

(** When every name already has its term and nothing fails, resolving
    them writes nothing. *)
Lemma resolve_terms_again (k : kind) (names : option (list str)) (w : World) :
  faults w = [] ->
  NoDup (map slug (table k (db w))) ->
  all_resolved names (table k (db w)) ->
  exists ts, resolve_terms k names w = (Ok ts, w).
Proof.
  intros Hf Hnd Hall. unfold resolve_terms.
  destruct names as [[|n0 l]|]; [exists []; reflexivity | | exists []; reflexivity].
  unfold all_resolved in Hall. revert Hall. generalize (n0 :: l). clear n0 l.
  intros l. induction l as [|nm rest IH]; intros Hall.
  - exists []. reflexivity.
  - destruct (Hall nm (or_introl eq_refl)) as [t [Hin Hsl]].
    destruct IH as [ts Hts]; [intros x Hx; apply Hall; right; exact Hx|].
    exists (t :: ts). cbn [for_each].
    assert (Hm : bind (get_or_create k (slugify nm) nm) (fun r0 => ret (fst r0)) w
                 = (Ok t, w)).
    { rewrite (bind_ok _ _ _ _ _ (get_or_create_existing k _ nm w t Hf Hnd Hin Hsl)).
      reflexivity. }
    rewrite (bind_ok _ _ _ _ _ Hm), (bind_ok _ _ _ _ _ Hts). reflexivity.
Qed.
End TermFacts.

Section SlugKey.
Import Py Lib Models BaseParser Props.

Lemma slug_present_or_absent (s : str) (l : list Term) :
  (exists t, In t l /\ slug t = s) \/ (forall t, In t l -> slug t <> s).
Proof.
  induction l as [|x rest [[t [Hin Hs]] | Hno]].
  - right. intros t [].
  - left. exists t. split; [right|]; assumption.
  - destruct (list_eq_dec N.eq_dec (slug x) s) as [E|E].
    + left. exists x. split; [left; reflexivity | exact E].
    + right. intros t [<- | Hin]; [exact E | apply Hno; exact Hin].
Qed.
End SlugKey.

(** Unfolding of the monad operations in a goal. *)
Ltac run_monad :=
  cbv beta iota zeta
      delta [Lib.bind Lib.ret Lib.raise Lib.gets Lib.modify Models.on_world
             Models.self Models.set_self Lib.lift Models.now
             Lib.try_catch Models.call fst snd].

Section ArticleFacts.
Import Py Lib Models Props.

Lemma replace_row_ids (rows : list ArticleRow) (r : ArticleRow) :
  map id (replace_row rows r) = map id rows.
Proof.
  induction rows as [|x rest IH]; [reflexivity|].
  cbn [replace_row]. destruct (id x =? id r)%N eqn:E; cbn [map]; rewrite IH.
  - apply N.eqb_eq in E. rewrite E. reflexivity.
  - reflexivity.
Qed.

Lemma replace_row_In (rows : list ArticleRow) (r : ArticleRow) :
  existsb (fun x => (id x =? id r)%N) rows = true -> In r (replace_row rows r).
Proof.
  induction rows as [|x rest IH]; [discriminate|].
  cbn [existsb replace_row]. destruct (id x =? id r)%N.
  - intros _. left. reflexivity.
  - cbn [orb]. intros Hex. right. apply IH. exact Hex.
Qed.

Lemma statement_frame (w : World) r w' :
  statement w = (r, w') -> db w' = db w.
Proof. intros Hs. apply statement_inv in Hs. apply Hs. Qed.

(** The INSERT on an instance without key. *)
Lemma insert_article_new (a : Article) (w : World) :
  pk a = None ->
  let a1 := stamped_new a (clock w) in
  insert_article (a, w)
  = match statement w with
    | (Exc e, w1) => (Exc e, (a1, w1))
    | (Ok _, w1) =>
        let d := db w1 in
        if url_taken (articles d) None (original_url (fields a1))
        then (Exc IntegrityError,
              (a1, set_db w1 (set_articles d (articles d) (seq_article d + 1))))
        else (Ok tt,
              (set_pk a1 (Some (seq_article d)),
               set_db w1 (set_articles d
                            (articles d ++ [{| id := seq_article d; row := fields a1 |}])
                            (seq_article d + 1))))
    end.
Proof.
  intros Hpk. unfold insert_article, stamped_new. run_monad.
  destruct (statement w) as [[[]|e] w1]; [|reflexivity].
  cbn [pk set_fields fields]. rewrite Hpk.
  destruct (url_taken _ _ _); reflexivity.
Qed.

(** The INSERT, whatever the instance: what it leaves alone, and the
    row it stores when it succeeds. *)
Lemma insert_article_inv (a : Article) (w : World) r a' w' :
  insert_article (a, w) = (r, (a', w')) ->
  article_step a w a' w'
  /\ (r = Ok tt ->
      exists key, pk a' = Some key
                  /\ In {| id := key; row := fields a' |} (articles (db w'))).
Proof.
  unfold insert_article, article_step. run_monad.
  destruct (statement w) as [[[]|e] w1] eqn:Hs; apply statement_frame in Hs.
  - cbn [pk set_fields fields]. rewrite Hs. destruct (pk a) as [key|] eqn:Hpk.
    + destruct (existsb _ _ || url_taken _ _ _); intros [= <- <- <-];
        cbn [db set_db categories tags articles set_articles fields pk set_fields
                _original_status published_at status original_url
                set_updated_at set_created_at]; rewrite ?Hs.
      * repeat split; try reflexivity; try discriminate; try congruence;
          auto using incl_refl.
      * repeat split; try reflexivity; try congruence.
        -- rewrite map_app. apply incl_appl, incl_refl.
        -- intros _. exists key. split; [exact Hpk|].
           apply in_or_app. right. left. reflexivity.
    + destruct (url_taken _ _ _); intros [= <- <- <-];
        cbn [db set_db categories tags articles set_articles fields pk set_fields
                set_pk _original_status published_at status original_url
                set_updated_at set_created_at]; rewrite ?Hs.
      * repeat split; try reflexivity; try discriminate; try congruence;
          auto using incl_refl.
      * repeat split; try reflexivity; try discriminate.
        -- rewrite map_app. apply incl_appl, incl_refl.
        -- intros _. eexists. split; [reflexivity|].
           apply in_or_app. right. left. reflexivity.
  - intros [= <- <- <-]. rewrite Hs.
    cbn [fields set_fields pk _original_status published_at status original_url
                set_updated_at set_created_at].
    repeat split; try reflexivity; try discriminate; try congruence;
          auto using incl_refl.
Qed.

(** The UPDATE on an instance with key [key]. *)
Lemma update_article_run (key : N) (a : Article) (w : World) :
  let a1 := stamped a (clock w) in
  update_article key (a, w)
  = match statement w with
    | (Exc e, w1) => (Exc e, (a1, w1))
    | (Ok _, w1) =>
        let d := db w1 in
        if existsb (fun x => (id x =? key)%N) (articles d)
        then if url_taken (articles d) (Some key) (original_url (fields a1))
             then (Exc IntegrityError, (a1, w1))
             else (Ok true,
                   (a1, set_db w1 (set_articles d
                                     (replace_row (articles d)
                                                  {| id := key; row := fields a1 |})
                                     (seq_article d))))
        else (Ok false, (a1, w1))
    end.
Proof.
  unfold update_article, stamped. run_monad.
  destruct (statement w) as [[[]|e] w1]; [|reflexivity].
  cbn [fields set_fields].
  destruct (existsb _ _); [destruct (url_taken _ _ _)|]; reflexivity.
Qed.

Lemma update_article_inv (key : N) (a : Article) (w : World) r a' w' :
  update_article key (a, w) = (r, (a', w')) ->
  article_step a w a' w'
  /\ seq_article (db w') = seq_article (db w)
  /\ match r with
     | Ok true =>
         existsb (fun x => (id x =? key)%N) (articles (db w)) = true
         /\ articles (db w')
            = replace_row (articles (db w)) {| id := key; row := fields a' |}
     | Ok false =>
         existsb (fun x => (id x =? key)%N) (articles (db w)) = false
         /\ articles (db w') = articles (db w)
     | Exc _ => articles (db w') = articles (db w)
     end.
Proof.
  rewrite update_article_run. cbv zeta. unfold article_step, stamped.
  destruct (statement w) as [[[]|e] w1] eqn:Hs; apply statement_frame in Hs.
  - rewrite Hs.
    destruct (existsb (fun x => (id x =? key)%N) (articles (db w))) eqn:Hex;
      [destruct (url_taken _ _ _)|]; intros [= <- <- <-];
      cbn [db set_db categories tags articles set_articles fields pk set_fields
              seq_article _original_status published_at status original_url
              set_updated_at];
      rewrite ?Hs; repeat split; try reflexivity; try congruence;
      auto using incl_refl.
    rewrite replace_row_ids. apply incl_refl.
  - intros [= <- <- <-]. rewrite Hs.
    cbn [fields set_fields pk _original_status published_at status original_url
                set_updated_at].
    repeat split; try reflexivity; try congruence; auto using incl_refl.
Qed.

Lemma article_step_trans (a1 : Article) (w1 : World) (a2 : Article) (w2 : World)
      (a3 : Article) (w3 : World) :
  article_step a1 w1 a2 w2 -> article_step a2 w2 a3 w3 -> article_step a1 w1 a3 w3.
Proof.
  unfold article_step.
  intros [A1 [B1 [C1 [D1 [E1 [F1 [G1 H1]]]]]]] [A2 [B2 [C2 [D2 [E2 [F2 [G2 H2]]]]]]].
  repeat split; try congruence; [eapply incl_tran; eassumption | auto].
Qed.

Lemma Model_save_unfold (force_insert : bool) (a : Article) (w : World) :
  Model_save force_insert (a, w)
  = match pk a with
    | None => insert_article (a, w)
    | Some key =>
        if force_insert then insert_article (a, w)
        else match update_article key (a, w) with
             | (Ok true, s) => (Ok tt, s)
             | (Ok false, s) => insert_article s
             | (Exc e, s) => (Exc e, s)
             end
    end.
Proof.
  unfold Model_save. cbv beta iota zeta delta [bind self gets fst].
  destruct (pk a) as [key|]; [|reflexivity].
  destruct force_insert; [reflexivity|].
  destruct (update_article key (a, w)) as [[[|]|e] s]; reflexivity.
Qed.

(** [Model.save]: what it leaves alone, and the row it stores when it
    succeeds. *)
Lemma Model_save_inv (force_insert : bool) (a : Article) (w : World) r a' w' :
  Model_save force_insert (a, w) = (r, (a', w')) ->
  article_step a w a' w'
  /\ (r = Ok tt ->
      exists key, pk a' = Some key
                  /\ In {| id := key; row := fields a' |} (articles (db w'))).
Proof.
  rewrite Model_save_unfold. destruct (pk a) as [key|] eqn:Hpk.
  - destruct force_insert; [apply insert_article_inv|].
    destruct (update_article key (a, w)) as [ru [a1 w1]] eqn:Hu.
    apply update_article_inv in Hu. destruct Hu as [Hstep [_ Hr]].
    destruct ru as [[|]|e].
    + intros [= <- <- <-]. split; [exact Hstep|]. intros _.
      destruct Hr as [Hex ->]. exists key. split.
      * apply Hstep. exact Hpk.
      * apply (replace_row_In (articles (db w)) {| id := key; row := fields a1 |}).
        exact Hex.
    + intros Hi. apply insert_article_inv in Hi. destruct Hi as [Hstep2 Hok].
      split; [eapply article_step_trans; eassumption | exact Hok].
    + intros [= <- <- <-]. split; [exact Hstep | discriminate].
  - apply insert_article_inv.
Qed.

(** [Article.save] is [Model.save] on the instance with its publication
    time settled, followed by the update of the remembered status. *)
Lemma Article_save_unfold (force_insert : bool) (a : Article) (w : World) :
  Article_save force_insert (a, w)
  = match Model_save force_insert (published a (clock w), w) with
    | (Ok _, (a', w')) =>
        (Ok tt, (set_original_status a' (Some (status (fields a))), w'))
    | (Exc e, s) => (Exc e, s)
    end.
Proof.
  unfold Article_save, published. run_monad.
  destruct (Py.eqb (status (fields a)) STATUS_PUBLISHED
            && negb match _original_status a with
                    | Some s => Py.eqb s STATUS_PUBLISHED
                    | None => false
                    end
            && match published_at (fields a) with None => true | Some _ => false end);
    destruct (Model_save force_insert _) as [[[]|e] [a' w']]; reflexivity.
Qed.
End ArticleFacts.

Section PublishedAt.
Import Py Lib Models Props.

Lemma Model_save_keeps (force_insert : bool) (a : Article) (w : World) :
  let a' := fst (snd (Model_save force_insert (a, w))) in
  published_at (fields a') = published_at (fields a)
  /\ status (fields a') = status (fields a)
  /\ original_url (fields a') = original_url (fields a)
  /\ _original_status a' = _original_status a.
Proof.
  cbv zeta. destruct (Model_save force_insert (a, w)) as [r [a' w']] eqn:Hsave.
  apply Model_save_inv in Hsave.
  destruct Hsave as [[_ [_ [_ [Hp [Hs [Hu [Ho _]]]]]]] _].
  cbn [fst snd]. auto.
Qed.

(** After a successful [Model.save] the instance has a key and the row
    with that key holds the field values of the instance. *)
Lemma Model_save_stores (force_insert : bool) (a : Article) (w : World) a' w' :
  Model_save force_insert (a, w) = (Ok tt, (a', w')) ->
  exists key, pk a' = Some key
              /\ In {| id := key; row := fields a' |} (articles (db w')).
Proof.
  intros Hsave. apply Model_save_inv in Hsave. apply Hsave. reflexivity.
Qed.

(** What [Article.save] does to the publication time of the instance,
    whether the save succeeds or raises. *)
Lemma Article_save_publication_time (force_insert : bool) (a : Article) (w : World) :
  let a' := fst (snd (Article_save force_insert (a, w))) in
  published_at (fields a') = published_at (fields (published a (clock w)))
  /\ status (fields a') = status (fields a).
Proof.
  cbv zeta. rewrite Article_save_unfold.
  pose proof (Model_save_keeps force_insert (published a (clock w)) w) as Hk.
  cbv zeta in Hk. destruct Hk as [Hp [Hs _]].
  assert (Hst : status (fields (published a (clock w))) = status (fields a)).
  { unfold published. destruct (_ && _ && _); reflexivity. }
  destruct (Model_save force_insert (published a (clock w), w)) as [[[]|e] [a' w']];
    cbn [fst snd] in *; rewrite <- Hst; split; assumption.
Qed.

(** C10. [Article.save] gives the instance a publication time, the
    current time, exactly when its status is PUBLISHED, the status
    remembered from loading or from the last save is another one, and
    no publication time is set; in every other case the publication
    time is left as it is. So a time that is set is never changed or
    cleared, a save with a status other than PUBLISHED changes nothing,
    and saving again after a successful save changes nothing. After a
    successful save the stored row has the publication time of the
    instance. *)
Theorem Article_save_published_at (force_insert : bool) (a : Article) (w : World) :
  let out := Article_save force_insert (a, w) in
  let a' := fst (snd out) in
  let transition :=
    Py.eqb (status (fields a)) STATUS_PUBLISHED
    && negb match _original_status a with
            | Some s => Py.eqb s STATUS_PUBLISHED
            | None => false
            end in
  published_at (fields a')
  = (if transition
     then match published_at (fields a) with
          | None => Some (clock w)
          | Some t => Some t
          end
     else published_at (fields a))
  /\ (forall t, published_at (fields a) = Some t -> published_at (fields a') = Some t)
  /\ (status (fields a) <> STATUS_PUBLISHED ->
      published_at (fields a') = published_at (fields a))
  /\ (_original_status a = Some STATUS_PUBLISHED ->
      published_at (fields a') = published_at (fields a))
  /\ status (fields a') = status (fields a)
  /\ (fst out = Ok tt ->
      _original_status a' = Some (status (fields a))
      /\ (exists key, pk a' = Some key
                      /\ In {| id := key; row := fields a' |}
                            (articles (db (snd (snd out)))))
      /\ (forall force_insert2 w2,
             published_at (fields (fst (snd (Article_save force_insert2 (a', w2)))))
             = published_at (fields a'))).
Proof.
  cbv zeta.
  destruct (Article_save_publication_time force_insert a w) as [Hpub Hst].
  cbv zeta in Hpub, Hst.
  assert (Hmain :
    published_at (fields (fst (snd (Article_save force_insert (a, w)))))
    = (if Py.eqb (status (fields a)) STATUS_PUBLISHED
          && negb match _original_status a with
                  | Some s => Py.eqb s STATUS_PUBLISHED
                  | None => false
                  end
       then match published_at (fields a) with
            | None => Some (clock w)
            | Some t => Some t
            end
       else published_at (fields a))).
  { rewrite Hpub. unfold published.
    destruct (Py.eqb (status (fields a)) STATUS_PUBLISHED
              && negb match _original_status a with
                      | Some s => Py.eqb s STATUS_PUBLISHED
                      | None => false
                      end); cbn [andb]; [|reflexivity].
    destruct (published_at (fields a)) eqn:E; [exact E | reflexivity]. }
  split; [exact Hmain|]. split; [|split; [|split; [|split]]].
  - intros t Ht. rewrite Hmain, Ht. destruct (_ && _); reflexivity.
  - intros Hne. rewrite Hmain. apply str_eqb_neq in Hne. rewrite Hne. reflexivity.
  - intros Ho. rewrite Hmain, Ho, str_eqb_refl, andb_false_r. reflexivity.
  - exact Hst.
  - intros Hok. rewrite Article_save_unfold in Hok |- *.
    destruct (Model_save force_insert (published a (clock w), w))
      as [[[]|e] [a1 w1]] eqn:Hsave; [|discriminate].
    cbn [fst snd]. split; [reflexivity|]. split.
    + destruct (Model_save_stores _ _ _ _ _ Hsave) as [key [Hpk Hin]].
      exists key. split; [exact Hpk | exact Hin].
    + intros force_insert2 w2.
      destruct (Article_save_publication_time force_insert2
                  (set_original_status a1 (Some (status (fields a)))) w2)
        as [Hpub2 _].
      cbv zeta in Hpub2. rewrite Hpub2. unfold published.
      cbn [_original_status set_original_status fields].
      pose proof (Model_save_keeps force_insert (published a (clock w)) w) as Hk.
      cbv zeta in Hk. rewrite Hsave in Hk. cbn [fst snd] in Hk.
      destruct Hk as [_ [Hs1 _]].
      assert (Hst1 : status (fields a1) = status (fields a)).
      { rewrite Hs1. unfold published. destruct (_ && _ && _); reflexivity. }
      rewrite Hst1.
      destruct (Py.eqb (status (fields a)) STATUS_PUBLISHED); reflexivity.
Qed.
End PublishedAt.

Section ModelTests.
Import Py Lib Models Props.

(** The scenario of [test_published_at_logic] in tests/test_models.py:
    an article is created as a draft, its status is set to PUBLISHED and
    it is saved. It has no publication time before, and the current time
    after. *)
Example published_at_is_set_on_publication :
  match Article_objects_create Sample.draft_fields
          (Sample.world Sample.empty_db [] Sample.offline) with
  | (Ok article, w1) =>
      published_at (fields article) = None
      /\ match Article_save false
                 (set_fields article (set_status (fields article) STATUS_PUBLISHED),
                  w1) with
         | (r, (article', w2)) =>
             r = Ok tt
             /\ published_at (fields article') = Some Sample.noon
             /\ map (fun x => published_at (row x)) (articles (db w2))
                = [Some Sample.noon]
         end
  | (Exc _, _) => False
  end.
Proof. vm_compute. repeat split; reflexivity. Qed.

(** The scenario of [test_original_status_tracking]: after a draft is
    created the remembered status is DRAFT, and after its status is set
    to PENDING and it is saved, PENDING. *)
Example original_status_is_tracked :
  match Article_objects_create Sample.draft_fields
          (Sample.world Sample.empty_db [] Sample.offline) with
  | (Ok article, w1) =>
      _original_status article = Some STATUS_DRAFT
      /\ _original_status
           (fst (snd (Article_save false
                        (set_fields article
                           (set_status (fields article) STATUS_PENDING), w1))))
         = Some STATUS_PENDING
  | (Exc _, _) => False
  end.
Proof. vm_compute. repeat split; reflexivity. Qed.

(** An article created with the status PUBLISHED never gets a
    publication time from [save]: no save sees a change of status. *)
Example created_as_published_has_no_publication_time :
  match Article_objects_create
          (set_status Sample.draft_fields STATUS_PUBLISHED)
          (Sample.world Sample.empty_db [] Sample.offline) with
  | (Ok article, w1) =>
      published_at (fields article) = None
      /\ published_at (fields (fst (snd (Article_save false (article, w1))))) = None
  | (Exc _, _) => False
  end.
Proof. vm_compute. repeat split; reflexivity. Qed.
End ModelTests.

Section CommitFacts.
Import Py Lib Models Props.

Lemma find_app {A} (f : A -> bool) (l1 l2 : list A) :
  find f (l1 ++ l2)
  = match find f l1 with Some x => Some x | None => find f l2 end.
Proof.
  induction l1 as [|x l1 IH]; [reflexivity|].
  cbn [app find]. destruct (f x); [reflexivity | exact IH].
Qed.

Lemma replace_row_fresh (rows : list ArticleRow) (r0 r : ArticleRow) :
  Forall (fun x => (id x < id r)%N) rows -> id r0 = id r ->
  replace_row (rows ++ [r0]) r = rows ++ [r].
Proof.
  intros Hall Hid. induction Hall as [|x rest Hx _ IH].
  - cbn. rewrite Hid, N.eqb_refl. reflexivity.
  - cbn [app replace_row].
    assert (E : (id x =? id r)%N = false) by (apply N.eqb_neq; lia).
    rewrite E, IH. reflexivity.
Qed.

Lemma existsb_last_id (rows : list ArticleRow) (r0 : ArticleRow) :
  existsb (fun x => (id x =? id r0)%N) (rows ++ [r0]) = true.
Proof.
  rewrite existsb_app. cbn. rewrite N.eqb_refl, orb_true_r. reflexivity.
Qed.

(** [filter_first]: the store is left alone; the answer is the first row
    with the URL, loaded as an instance. *)
Lemma filter_first_inv (url : str) (w : World) r w' :
  filter_first url w = (r, w') ->
  db w' = db w
  /\ (faults w = [] -> w' = w)
  /\ (faults w = [] -> faults w' = [])
  /\ ((r = Ok (option_map from_db
                 (find (fun x => same_url (original_url (row x)) (Some url))
                       (articles (db w))))
       /\ hd false (faults w) = false)
      \/ (r = Exc DatabaseError /\ hd false (faults w) = true)).
Proof.
  unfold filter_first. intros Hrun. apply bind_inv in Hrun.
  pose proof (statement_raises w) as Hraise.
  destruct Hrun as [[[] [w1 [Hs Hrun]]] | [e [Hs ->]]]; rewrite Hs in Hraise;
    apply statement_inv in Hs; destruct Hs as [Hdb [_ [_ [_ [Hq He]]]]].
  - cbv beta iota zeta delta [bind gets ret] in Hrun. injection Hrun as <- <-.
    split; [exact Hdb|]. split; [|split].
    + intros Hf. apply Hq. exact Hf.
    + intros Hf. destruct (Hq Hf) as [_ ->]. exact Hf.
    + left. rewrite Hdb. split; [reflexivity|].
      destruct (hd false (faults w)); [|reflexivity].
      destruct (proj2 Hraise eq_refl) as [e Habs]. discriminate.
  - split; [exact Hdb|]. split; [|split].
    + intros Hf. destruct (Hq Hf) as [Habs _]. discriminate.
    + intros Hf. destruct (Hq Hf) as [Habs _]. discriminate.
    + right. rewrite (He e eq_refl). split; [reflexivity|].
      apply Hraise. exists e. reflexivity.
Qed.

(** [add]: only the links change. *)
Lemma add_inv (k : kind) (a : Article) (terms : list Term) (w : World) r w' :
  add k a terms w = (r, w') ->
  categories (db w') = categories (db w)
  /\ tags (db w') = tags (db w)
  /\ articles (db w') = articles (db w)
  /\ seq_article (db w') = seq_article (db w).
Proof.
  unfold add. intros Hrun. apply bind_inv in Hrun.
  destruct Hrun as [[[] [w1 [Hs Hrun]]] | [e [Hs ->]]];
    apply statement_inv in Hs; destruct Hs as [Hdb _].
  - cbv beta iota zeta delta [bind lift modify] in Hrun.
    destruct (deref (pk a)) as [key|e]; injection Hrun as <- <-.
    + cbn [db set_db]. rewrite <- Hdb. destruct k; repeat split; reflexivity.
    + rewrite Hdb. repeat split; reflexivity.
  - rewrite Hdb. repeat split; reflexivity.
Qed.

(** [Article.save] on a saved instance, as the committer calls it after
    linking the terms. *)
Lemma Article_save_update_inv (a : Article) (w : World) (key : N) r a' w' :
  pk a = Some key ->
  Article_save false (a, w) = (r, (a', w')) ->
  categories (db w') = categories (db w)
  /\ tags (db w') = tags (db w)
  /\ incl (map id (articles (db w))) (map id (articles (db w')))
  /\ (r = Ok tt ->
      pk a' = Some key
      /\ original_url (fields a') = original_url (fields a)
      /\ _original_status a' = Some (status (fields a'))
      /\ (existsb (fun x => (id x =? key)%N) (articles (db w)) = true ->
          articles (db w')
          = replace_row (articles (db w)) {| id := key; row := fields a' |}
          /\ seq_article (db w') = seq_article (db w))).
Proof.
  intros Hpk. rewrite Article_save_unfold.
  assert (Hpk1 : pk (published a (clock w)) = Some key)
    by (unfold published; destruct (_ && _ && _); exact Hpk).
  assert (Hurl : original_url (fields (published a (clock w)))
                 = original_url (fields a))
    by (unfold published; destruct (_ && _ && _); reflexivity).
  assert (Hst : status (fields (published a (clock w))) = status (fields a))
    by (unfold published; destruct (_ && _ && _); reflexivity).
  destruct (Model_save false (published a (clock w), w)) as [rm [a1 w1]] eqn:Hsave.
  pose proof (Model_save_inv _ _ _ _ _ _ Hsave) as [Hstep _].
  destruct Hstep as [Hc [Ht [Hi [_ [Hs1 [Hu1 [_ Hk1]]]]]]].
  rewrite Model_save_unfold, Hpk1 in Hsave.
  destruct rm as [[]|e]; intros [= <- <- <-];
    (split; [exact Hc|]); (split; [exact Ht|]); (split; [exact Hi|]);
    [|discriminate].
  intros _. cbn [pk fields set_original_status _original_status].
  split; [apply Hk1; exact Hpk1|].
  split; [rewrite Hu1; exact Hurl|].
  split; [rewrite Hs1, Hst; reflexivity|].
  intros Hex.
  destruct (update_article key (published a (clock w), w)) as [ru [a2 w2]] eqn:Hu.
  apply update_article_inv in Hu. destruct Hu as [_ [Hseq Hr]].
  destruct ru as [[|]|e]; [| |discriminate].
  - injection Hsave as <- <-. destruct Hr as [_ Hrows]. split; assumption.
  - destruct Hr as [Hno _]. congruence.
Qed.
End CommitFacts.

Section Commit.
Import Py Lib Models BaseParser Props.
Context `{Runtime}.

(** [create_article]: the term tables and the links are left alone; when
    it returns, the article is the new last row, with the key drawn from
    the sequence and the URL of the record; when it raises, no article
    row was written. *)
Lemma create_article_inv (data : Data) (w : World) r w' :
  create_article data w = (r, w') ->
  Models.categories (db w') = Models.categories (db w)
  /\ Models.tags (db w') = Models.tags (db w)
  /\ match r with
     | Ok a =>
         pk a = Some (seq_article (db w))
         /\ Models.original_url (fields a) = original_url data
         /\ _original_status a = Some (status (fields a))
         /\ articles (db w')
            = articles (db w) ++ [{| id := seq_article (db w); row := fields a |}]
         /\ seq_article (db w') = (seq_article (db w) + 1)%N
     | Exc _ => articles (db w') = articles (db w)
     end.
Proof.
  unfold create_article. intros Hrun.
  destruct (title data) as [title_|];
    [|injection Hrun as <- <-; repeat split; reflexivity].
  destruct (summary data) as [summary_|];
    [|injection Hrun as <- <-; repeat split; reflexivity].
  destruct (original_url data) as [url_|];
    [|injection Hrun as <- <-; repeat split; reflexivity].
  cbv beta iota zeta delta [bind lift item] in Hrun.
  unfold Article_objects_create, call in Hrun.
  rewrite Article_save_unfold in Hrun.
  match type of Hrun with
  | context [published ?a ?t] =>
      assert (Hp : published a t = a) by reflexivity; rewrite Hp in Hrun; clear Hp
  end.
  rewrite Model_save_unfold in Hrun. cbn [pk Article_init] in Hrun.
  rewrite insert_article_new in Hrun by reflexivity. cbv zeta in Hrun.
  destruct (statement w) as [[[]|e] w1] eqn:Hs; apply statement_frame in Hs.
  - rewrite Hs in Hrun. destruct (url_taken _ _ _); injection Hrun as <- <-.
    + cbn [db set_db Models.categories Models.tags articles set_articles].
      repeat split; reflexivity.
    + cbn [db set_db Models.categories Models.tags articles set_articles
              seq_article pk set_pk set_original_status fields stamped_new
              set_fields _original_status Article_init].
      repeat split; reflexivity.
  - injection Hrun as <- <-. rewrite Hs. repeat split; reflexivity.
Qed.

(** [attach]: the term tables are left alone and no article key goes
    away; when it returns, the row of the article holds the field values
    of the instance returned. *)
Lemma attach_inv (a : Article) (cs ts : list Term) (w : World) (key : N) r w' :
  pk a = Some key ->
  attach a cs ts w = (r, w') ->
  Models.categories (db w') = Models.categories (db w)
  /\ Models.tags (db w') = Models.tags (db w)
  /\ incl (map id (articles (db w))) (map id (articles (db w')))
  /\ (forall a', r = Ok a' ->
      pk a' = Some key
      /\ Models.original_url (fields a') = Models.original_url (fields a)
      /\ _original_status a' = Some (status (fields a'))
      /\ (existsb (fun x => (id x =? key)%N) (articles (db w)) = true ->
          articles (db w')
          = replace_row (articles (db w)) {| id := key; row := fields a' |}
          /\ seq_article (db w') = seq_article (db w))).
Proof.
  intros Hpk. unfold attach. intros Hrun.
  assert (Hlink : forall k terms w0 r0 w0',
             match terms with
             | _ :: _ => add k a terms
             | [] => ret tt
             end w0 = (r0, w0') ->
             Models.categories (db w0') = Models.categories (db w0)
             /\ Models.tags (db w0') = Models.tags (db w0)
             /\ articles (db w0') = articles (db w0)
             /\ seq_article (db w0') = seq_article (db w0)).
  { intros k terms w0 r0 w0'. destruct terms.
    - intros [= <- <-]. repeat split; reflexivity.
    - apply add_inv. }
  apply bind_inv in Hrun.
  destruct Hrun as [[[] [w1 [Hc Hrun]]] | [e [Hc ->]]];
    apply Hlink in Hc; destruct Hc as [Hc1 [Ht1 [Ha1 Hq1]]].
  2: { rewrite Hc1, Ht1, Ha1. repeat split; try reflexivity; try discriminate.
       apply incl_refl. }
  apply bind_inv in Hrun.
  destruct Hrun as [[[] [w2 [Ht Hrun]]] | [e [Ht ->]]];
    apply Hlink in Ht; destruct Ht as [Hc2 [Ht2 [Ha2 Hq2]]].
  2: { rewrite Hc2, Ht2, Ha2, Hc1, Ht1, Ha1.
       repeat split; try reflexivity; try discriminate. apply incl_refl. }
  unfold call in Hrun.
  destruct (Article_save false (a, w2)) as [rs [a2 w3]] eqn:Hsave.
  destruct (Article_save_update_inv a w2 key rs a2 w3 Hpk Hsave)
    as [Hc3 [Ht3 [Hi3 Hok]]].
  rewrite Ha2, Ha1 in Hi3, Hok. rewrite Hq2, Hq1 in Hok.
  destruct rs as [[]|e]; injection Hrun as <- <-.
  - rewrite Hc3, Ht3, Hc2, Ht2, Hc1, Ht1.
    split; [reflexivity|]. split; [reflexivity|]. split; [exact Hi3|].
    intros a' [= <-]. apply Hok. reflexivity.
  - rewrite Hc3, Ht3, Hc2, Ht2, Hc1, Ht1.
    repeat split; try reflexivity; try discriminate. exact Hi3.
Qed.

Lemma from_db_of_saved (a : Article) (key : N) :
  pk a = Some key ->
  _original_status a = Some (status (fields a)) ->
  from_db {| id := key; row := fields a |} = a.
Proof.
  destruct a as [p f o]. cbn. intros -> ->. reflexivity.
Qed.

(** What a successful commit leaves behind: the article returned is the
    one a lookup by the URL of the record finds; slugs are still unique;
    every category and tag name of the record has its term. *)
Lemma save_to_db_body_ok (data : Data) (w : World) (a : Article) (w1 : World) :
  consistent (db w) ->
  save_to_db_body data w = (Ok a, w1) ->
  exists url,
    original_url data = Some url
    /\ option_map from_db
         (find (fun x => same_url (Models.original_url (row x)) (Some url))
               (articles (db w1))) = Some a
    /\ NoDup (map slug (Models.categories (db w1)))
    /\ NoDup (map slug (Models.tags (db w1)))
    /\ all_resolved (categories data) (Models.categories (db w1))
    /\ all_resolved (tags data) (Models.tags (db w1)).
Proof.
  intros Hcons Hrun. unfold save_to_db_body in Hrun.
  apply bind_ok_inv in Hrun. destruct Hrun as [cs [wa [Hcats Hrun]]].
  apply resolve_terms_inv in Hcats. destruct Hcats as [Hadv1 Hres1].
  destruct (Hres1 cs eq_refl) as [Hall1 _]. clear Hres1.
  apply bind_ok_inv in Hrun. destruct Hrun as [ts [wb [Htags Hrun]]].
  apply resolve_terms_inv in Htags. destruct Htags as [Hadv2 Hres2].
  destruct (Hres2 ts eq_refl) as [Hall2 _]. clear Hres2.
  apply bind_ok_inv in Hrun. destruct Hrun as [url [wb' [Hurl Hrun]]].
  unfold lift in Hurl. destruct (original_url data) as [url0|] eqn:Hu;
    [|discriminate]. injection Hurl as <- <-.
  pose proof (advances_trans _ _ _ Hadv1 Hadv2) as Hadv.
  destruct Hadv as [_ [Hcons' _]]. specialize (Hcons' Hcons).
  assert (Hall1' : all_resolved (categories data) (Models.categories (db wb))).
  { intros nm Hin. destruct (Hall1 nm Hin) as [t [Ht Hs]]. exists t.
    split; [|exact Hs]. apply (advances_In Category wa wb t Hadv2 Ht). }
  apply bind_ok_inv in Hrun. destruct Hrun as [existing [wc [Hfind Hrun]]].
  apply filter_first_inv in Hfind.
  destruct Hfind as [Hdb [_ [_ [[Hfound _] | [Habs _]]]]]; [|discriminate].
  injection Hfound as Hfound.
  exists url0. split; [reflexivity|].
  destruct existing as [a0|].
  - injection Hrun as <- <-. rewrite Hdb. split; [symmetry; exact Hfound|].
    destruct Hcons' as [Hc [Ht _]]. auto.
  - apply bind_ok_inv in Hrun. destruct Hrun as [article [wd [Hcreate Hrun]]].
    apply create_article_inv in Hcreate.
    destruct Hcreate as [Hc1 [Ht1 [Hpk [Hurl [Horig [Hrows Hseq]]]]]].
    rewrite Hu in Hurl. rewrite Hdb in *.
    destruct (attach_inv article cs ts wd _ _ _ Hpk Hrun)
      as [Hc2 [Ht2 [_ Hok]]].
    destruct (Hok a eq_refl) as [Hpk' [Hurl' [Horig' Hstored]]].
    rewrite Hrows in Hstored.
    destruct Hstored as [Hrows' _];
      [apply (existsb_last_id _ {| id := seq_article (db wb); row := _ |})|].
    assert (Hfresh : replace_row
                       (articles (db wb)
                        ++ [{| id := seq_article (db wb); row := fields article |}])
                       {| id := seq_article (db wb); row := fields a |}
                     = articles (db wb)
                       ++ [{| id := seq_article (db wb); row := fields a |}]).
    { apply replace_row_fresh; [|reflexivity]. destruct Hcons' as [_ [_ Hids]].
      exact Hids. }
    rewrite Hfresh in Hrows'. rewrite Hrows', Hc2, Ht2, Hc1, Ht1.
    split.
    + rewrite find_app.
      destruct (find _ (articles (db wb))); [discriminate|].
      cbn [find row]. rewrite Hurl', Hurl. cbn [same_url].
      rewrite str_eqb_refl. cbn [option_map]. f_equal.
      apply from_db_of_saved; assumption.
    + destruct Hcons' as [Hc [Ht _]]. auto.
Qed.
End Commit.

Section Idempotence.
Import Py Lib Models BaseParser Props.
Context `{Runtime}.

Lemma save_to_db_unfold (data : Data) (w : World) :
  save_to_db data w
  = match save_to_db_body data w with
    | (Ok a, w1) => (Ok (Some a), w1)
    | (Exc _, w1) => (Ok None, w1)
    end.
Proof.
  unfold save_to_db, try_catch, bind, ret.
  destruct (save_to_db_body data w) as [[a|e] w1]; reflexivity.
Qed.

(** The second commit of a URL up to the lookup of the article. *)
Lemma save_to_db_body_existing (data : Data) (w : World) (a : Article) (url : str) :
  original_url data = Some url ->
  option_map from_db
    (find (fun x => same_url (Models.original_url (row x)) (Some url))
          (articles (db w))) = Some a ->
  let out := save_to_db_body data w in
  only_terms_added (db w) (db (snd out))
  /\ (fst out = Ok a \/ exists e, fst out = Exc e)
  /\ (forall cs ts wa wb,
         resolve_terms Category (categories data) w = (Ok cs, wa) ->
         resolve_terms Tag (tags data) wa = (Ok ts, wb) ->
         (hd false (faults wb) = false -> fst out = Ok a)
         /\ (faults wb = [] -> out = (Ok a, wb))).
Proof.
  intros Hurl Hfound. cbv zeta. unfold save_to_db_body.
  destruct (resolve_terms Category (categories data) w) as [[cs|e] wa] eqn:Hcats.
  2: { rewrite (bind_exc _ _ _ _ _ Hcats). cbn [fst snd].
       apply resolve_terms_inv in Hcats. destruct Hcats as [[Hadd _] _].
       split; [exact Hadd|]. split; [right; eauto|]. discriminate. }
  rewrite (bind_ok _ _ _ _ _ Hcats).
  pose proof (resolve_terms_inv _ _ _ _ _ Hcats) as [Hadv1 _].
  destruct (resolve_terms Tag (tags data) wa) as [[ts|e] wb] eqn:Htags.
  2: { rewrite (bind_exc _ _ _ _ _ Htags). cbn [fst snd].
       pose proof (resolve_terms_inv _ _ _ _ _ Htags) as [Hadv2 _].
       destruct (advances_trans _ _ _ Hadv1 Hadv2) as [Hadd _].
       split; [exact Hadd|]. split; [right; eauto|].
       intros cs0 ts0 wa0 wb0 [= <- <-] Ht. rewrite Htags in Ht. discriminate. }
  rewrite (bind_ok _ _ _ _ _ Htags).
  pose proof (resolve_terms_inv _ _ _ _ _ Htags) as [Hadv2 _].
  destruct (advances_trans _ _ _ Hadv1 Hadv2) as [Hadd _].
  rewrite Hurl. unfold lift, item. rewrite (bind_ok _ _ _ url wb) by reflexivity.
  destruct (filter_first url wb) as [rf wc] eqn:Hfind.
  pose proof (filter_first_inv _ _ _ _ Hfind) as [Hdb [Hquiet [_ Hres]]].
  assert (Hrows : articles (db wb) = articles (db w)) by apply Hadd.
  rewrite Hrows, Hfound in Hres.
  destruct Hres as [[-> _] | [-> Hfaulty]].
  - rewrite (bind_ok _ _ _ _ _ Hfind). cbn [fst snd ret]. rewrite Hdb.
    split; [exact Hadd|]. split; [left; reflexivity|].
    intros cs0 ts0 wa0 wb0 [= <- <-] Ht. rewrite Htags in Ht.
    injection Ht as <- <-. split; [reflexivity|].
    intros Hf. rewrite (Hquiet Hf). reflexivity.
  - rewrite (bind_exc _ _ _ _ _ Hfind). cbn [fst snd]. rewrite Hdb.
    split; [exact Hadd|]. split; [right; eauto|].
    intros cs0 ts0 wa0 wb0 [= <- <-] Ht. rewrite Htags in Ht.
    injection Ht as <- <-. split.
    + intros Hf. congruence.
    + intros Hf. rewrite Hf in Hfaulty. discriminate.
Qed.

(** C1, as amended. Once [save_to_db] has returned an article for a
    URL, a further call with a record of the same URL writes no article
    row, changes none, and adds no link; it returns that same article or
    [None], and it returns the article whenever its categories and tags
    are resolved without error and the backend does not fail on the
    lookup of the URL. In particular, committing a record with the same categories
    and tags again, with no backend failure, returns the article and
    leaves the whole world as it is. *)
Theorem save_to_db_again (data1 data2 : Data) (w w1 w2 : World) (a : Article) :
  consistent (db w) ->
  save_to_db data1 w = (Ok (Some a), w1) ->
  original_url data2 = original_url data1 ->
  db w2 = db w1 ->
  let out := save_to_db data2 w2 in
  articles (db (snd out)) = articles (db w1)
  /\ article_categories (db (snd out)) = article_categories (db w1)
  /\ article_tags (db (snd out)) = article_tags (db w1)
  /\ (fst out = Ok (Some a) \/ fst out = Ok None)
  /\ (forall cs ts wa wb,
         resolve_terms Category (categories data2) w2 = (Ok cs, wa) ->
         resolve_terms Tag (tags data2) wa = (Ok ts, wb) ->
         hd false (faults wb) = false ->
         fst out = Ok (Some a))
  /\ (categories data2 = categories data1 ->
      tags data2 = tags data1 ->
      faults w2 = [] ->
      out = (Ok (Some a), w2)).
Proof.
  intros Hcons Hfirst Hsame Hdb. cbv zeta.
  rewrite save_to_db_unfold in Hfirst.
  destruct (save_to_db_body data1 w) as [[a1|e] w1'] eqn:Hbody;
    [|discriminate]. injection Hfirst as -> ->.
  destruct (save_to_db_body_ok data1 w a w1 Hcons Hbody)
    as [url [Hurl [Hfound [Hndc [Hndt [Hallc Hallt]]]]]].
  rewrite Hurl in Hsame. rewrite <- Hdb in Hfound, Hndc, Hndt, Hallc, Hallt.
  pose proof (save_to_db_body_existing data2 w2 a url Hsame Hfound) as Hsecond.
  cbv zeta in Hsecond. destruct Hsecond as [Hadd [Hres Hgood]].
  rewrite save_to_db_unfold.
  destruct (save_to_db_body data2 w2) as [r2 w3] eqn:Hbody2. cbn [fst snd] in *.
  destruct Hadd as [Ha [Hlc [Hlt _]]]. rewrite <- Hdb.
  assert (Hshape : forall (o : option Article) w0,
             match r2 with
             | Ok a0 => (Ok (Some a0), w3)
             | Exc _ => (Ok None, w3)
             end = (Ok o, w0) -> w0 = w3)
    by (intros o w0; destruct r2; intros [= _ <-]; reflexivity).
  split; [destruct r2; exact Ha|].
  split; [destruct r2; exact Hlc|].
  split; [destruct r2; exact Hlt|].
  split; [|split].
  - destruct Hres as [-> | [e ->]]; [left | right]; reflexivity.
  - intros cs ts wa wb Hc Ht Hf.
    destruct (Hgood cs ts wa wb Hc Ht) as [Hfst _]. rewrite (Hfst Hf).
    reflexivity.
  - intros Hc Ht Hf.
    destruct (resolve_terms_again Category (categories data2) w2 Hf) as [cs Hcs].
    + exact Hndc.
    + rewrite Hc. exact Hallc.
    + destruct (resolve_terms_again Tag (tags data2) w2 Hf) as [ts Hts].
      * exact Hndt.
      * rewrite Ht. exact Hallt.
      * destruct (Hgood cs ts w2 w2 Hcs Hts) as [_ Hall].
        specialize (Hall Hf). injection Hall as -> ->. reflexivity.
Qed.
End Idempotence.

Section IdempotenceExamples.
Import Py Lib Models BaseParser Props.

Lemma consistent_sample (d : DB) :
  (NoDup (map slug (Models.categories d)) /\ NoDup (map slug (Models.tags d)))
  -> forallb (fun r => (id r <? seq_article d)%N) (articles d) = true
  -> consistent d.
Proof.
  intros [Hc Ht] Hids. split; [exact Hc|]. split; [exact Ht|].
  apply Forall_forall. intros r Hin.
  rewrite forallb_forall in Hids. apply N.ltb_lt. apply Hids. exact Hin.
Qed.

(** C1, the claim as stated fails. In a store where an editor gave the
    tag "Gen Z" a slug of their own, a record without tags is committed;
    a record of the same URL that carries the tag "Gen Z" is committed
    next. The second commit does not return the article: the tag cannot
    be created, because its name is taken, and the result is [None]. *)
Lemma second_commit_of_url_can_return_none :
  consistent Sample.custom_slug_db
  /\ original_url (Sample.record ["Gen Z"%string]) = original_url (Sample.record [])
  /\ (exists a,
        fst (@save_to_db Sample.runtime (Sample.record [])
               (Sample.world Sample.custom_slug_db [] Sample.offline))
        = Ok (Some a))
  /\ fst (@save_to_db Sample.runtime (Sample.record ["Gen Z"%string])
            (snd (@save_to_db Sample.runtime (Sample.record [])
                    (Sample.world Sample.custom_slug_db [] Sample.offline))))
     = Ok None.
Proof.
  split.
  { apply consistent_sample; [|reflexivity].
    split; vm_compute; repeat constructor; cbn; intuition discriminate. }
  split; [reflexivity|]. split.
  - eexists. vm_compute. reflexivity.
  - vm_compute. reflexivity.
Qed.

(** The amended statement at work: the same record committed twice into
    an empty store. *)
Lemma save_to_db_again_witness :
  consistent Sample.empty_db
  /\ (exists a w1,
        @save_to_db Sample.runtime (Sample.record ["Gen Z"%string])
          (Sample.world Sample.empty_db [] Sample.offline)
        = (Ok (Some a), w1)
        /\ @save_to_db Sample.runtime (Sample.record ["Gen Z"%string]) w1
           = (Ok (Some a), w1)).
Proof.
  assert (Hcons : consistent Sample.empty_db).
  { apply consistent_sample; [|reflexivity]. split; constructor. }
  split; [exact Hcons|].
  destruct (@save_to_db Sample.runtime (Sample.record ["Gen Z"%string])
              (Sample.world Sample.empty_db [] Sample.offline))
    as [r w1] eqn:Hfirst.
  assert (Hr : exists a, r = Ok (Some a) /\ faults w1 = []).
  { apply (f_equal fst) in Hfirst as Hf1. apply (f_equal snd) in Hfirst as Hf2.
    cbn [fst snd] in Hf1, Hf2. subst r w1. eexists. split; vm_compute; reflexivity. }
  destruct Hr as [a [-> Hquiet]]. exists a, w1. split; [reflexivity|].
  destruct (@save_to_db_again Sample.runtime
              (Sample.record ["Gen Z"%string]) (Sample.record ["Gen Z"%string])
              (Sample.world Sample.empty_db [] Sample.offline) w1 w1 a
              Hcons Hfirst eq_refl eq_refl)
    as [_ [_ [_ [_ [_ Hsame]]]]].
  apply Hsame; [reflexivity | reflexivity | exact Hquiet].
Defined.
End IdempotenceExamples.

Section Atomicity.
Import Py Lib Models BaseParser Props.
Context `{Runtime}.

(** Whatever [save_to_db] does and however it ends, terms are only
    added and no article key goes away. *)
Lemma save_to_db_body_frame (data : Data) (w : World) :
  let out := save_to_db_body data w in
  (forall k, exists new, table k (db (snd out)) = table k (db w) ++ new)
  /\ incl (map id (articles (db w))) (map id (articles (db (snd out)))).
Proof.
  cbv zeta.
  assert (Hgrow : forall w0 w0', advances w0 w0' ->
             (forall k, exists new, table k (db w0') = table k (db w0) ++ new)
             /\ incl (map id (articles (db w0))) (map id (articles (db w0')))).
  { intros w0 w0' [Hadd _]. split.
    - intros k. apply only_terms_added_table. exact Hadd.
    - destruct Hadd as [-> _]. apply incl_refl. }
  assert (Hsame : forall (w0 w0' : World),
             Models.categories (db w0') = Models.categories (db w0) ->
             Models.tags (db w0') = Models.tags (db w0) ->
             forall k, table k (db w0') = table k (db w0))
    by (intros w0 w0' Hc Ht k; destruct k; assumption).
  unfold save_to_db_body.
  destruct (resolve_terms Category (categories data) w) as [[cs|e] wa] eqn:Hcats;
    pose proof (resolve_terms_inv _ _ _ _ _ Hcats) as [Hadv1 _].
  2: { rewrite (bind_exc _ _ _ _ _ Hcats). apply Hgrow. exact Hadv1. }
  rewrite (bind_ok _ _ _ _ _ Hcats).
  destruct (resolve_terms Tag (tags data) wa) as [[ts|e] wb] eqn:Htags;
    pose proof (resolve_terms_inv _ _ _ _ _ Htags) as [Hadv2 _];
    pose proof (advances_trans _ _ _ Hadv1 Hadv2) as Hadv.
  2: { rewrite (bind_exc _ _ _ _ _ Htags). apply Hgrow. exact Hadv. }
  rewrite (bind_ok _ _ _ _ _ Htags).
  destruct (Hgrow _ _ Hadv) as [Htab Hids].
  destruct (original_url data) as [url|]; [|exact (conj Htab Hids)].
  unfold lift, item. rewrite (bind_ok _ _ _ url wb) by reflexivity.
  destruct (filter_first url wb) as [rf wc] eqn:Hfind.
  pose proof (filter_first_inv _ _ _ _ Hfind) as [Hdb _].
  destruct rf as [[a0|]|e].
  - rewrite (bind_ok _ _ _ _ _ Hfind). cbn [fst snd ret]. rewrite Hdb.
    exact (conj Htab Hids).
  - rewrite (bind_ok _ _ _ _ _ Hfind).
    destruct (create_article data wc) as [rc wd] eqn:Hcreate.
    pose proof (create_article_inv _ _ _ _ Hcreate) as [Hc1 [Ht1 Hrows]].
    rewrite Hdb in Hc1, Ht1, Hrows.
    destruct rc as [article|e].
    + rewrite (bind_ok _ _ _ _ _ Hcreate).
      destruct Hrows as [Hpk [_ [_ [Hrows _]]]].
      destruct (attach article cs ts wd) as [ra we] eqn:Hattach.
      destruct (attach_inv _ _ _ _ _ _ _ Hpk Hattach) as [Hc2 [Ht2 [Hincl _]]].
      cbn [fst snd]. split.
      * intros k. rewrite (Hsame wd we Hc2 Ht2 k), (Hsame wb wd Hc1 Ht1 k).
        apply Htab.
      * eapply incl_tran; [exact Hids|]. eapply incl_tran; [|exact Hincl].
        rewrite Hrows, map_app. apply incl_appl, incl_refl.
    + rewrite (bind_exc _ _ _ _ _ Hcreate). cbn [fst snd]. split.
      * intros k. rewrite (Hsame wb wd Hc1 Ht1 k). apply Htab.
      * rewrite Hrows. exact Hids.
  - rewrite (bind_exc _ _ _ _ _ Hfind). cbn [fst snd]. rewrite Hdb.
    exact (conj Htab Hids).
Qed.

(** C2, as amended. [save_to_db] never raises: an error at any step
    ends the commit with [None]. Nothing is undone on the way: the world
    it leaves is the one reached when the error occurred, terms written
    before the error stay, no article goes away, and when the article
    was created and a later step fails (linking the categories, linking
    the tags or the final save) the article row stays in the store. *)
Theorem save_to_db_keeps_partial_writes (data : Data) (w : World) :
  let out := save_to_db data w in
  (exists r, fst out = Ok r)
  /\ (forall e w1, save_to_db_body data w = (Exc e, w1) -> out = (Ok None, w1))
  /\ (forall k, exists new, table k (db (snd out)) = table k (db w) ++ new)
  /\ incl (map id (articles (db w))) (map id (articles (db (snd out))))
  /\ (forall cs ts url wa wb wc article wd e we,
         resolve_terms Category (categories data) w = (Ok cs, wa) ->
         resolve_terms Tag (tags data) wa = (Ok ts, wb) ->
         original_url data = Some url ->
         filter_first url wb = (Ok None, wc) ->
         create_article data wc = (Ok article, wd) ->
         attach article cs ts wd = (Exc e, we) ->
         out = (Ok None, we)
         /\ exists key,
              pk article = Some key
              /\ In key (map id (articles (db we)))).
Proof.
  cbv zeta. rewrite save_to_db_unfold.
  pose proof (save_to_db_body_frame data w) as Hframe. cbv zeta in Hframe.
  destruct (save_to_db_body data w) as [rb wz] eqn:Hbody.
  cbn [fst snd] in Hframe. destruct Hframe as [Htab Hids].
  split; [destruct rb; eexists; reflexivity|].
  split; [intros e w1 [= -> ->]; reflexivity|].
  split; [destruct rb; exact Htab|].
  split; [destruct rb; exact Hids|].
  intros cs ts url wa wb wc article wd e we Hcats Htags Hurl Hfind Hcreate Hattach.
  unfold save_to_db_body in Hbody.
  rewrite (bind_ok _ _ _ _ _ Hcats), (bind_ok _ _ _ _ _ Htags), Hurl in Hbody.
  unfold lift, item in Hbody. rewrite (bind_ok _ _ _ url wb) in Hbody by reflexivity.
  rewrite (bind_ok _ _ _ _ _ Hfind), (bind_ok _ _ _ _ _ Hcreate), Hattach in Hbody.
  injection Hbody as <- <-. split; [reflexivity|].
  pose proof (create_article_inv _ _ _ _ Hcreate) as [_ [_ [Hpk [_ [_ [Hrows _]]]]]].
  destruct (attach_inv _ _ _ _ _ _ _ Hpk Hattach) as [_ [_ [Hincl _]]].
  exists (seq_article (db wc)). split; [exact Hpk|].
  apply Hincl. rewrite Hrows, map_app. apply in_or_app. right. left. reflexivity.
Qed.
End Atomicity.

Section AtomicityExample.
Import Py Lib Models BaseParser Props.

(** C2, the claim as stated fails. The backend accepts the six
    statements that resolve the category and the tag of the record, look
    the URL up and insert the article, and fails on the seventh, which
    links the category. The commit ends with [None], and it leaves the
    article row in the store, with no category and no tag linked to it,
    next to the category and the tag it created. *)
Lemma failed_commit_leaves_article_row :
  fst (@save_to_db Sample.runtime (Sample.record ["Gen Z"%string])
         Sample.failing_world) = Ok None
  /\ map id (articles (db (snd (@save_to_db Sample.runtime
                                  (Sample.record ["Gen Z"%string])
                                  Sample.failing_world)))) = [1%N]
  /\ article_categories (db (snd (@save_to_db Sample.runtime
                                    (Sample.record ["Gen Z"%string])
                                    Sample.failing_world))) = []
  /\ article_tags (db (snd (@save_to_db Sample.runtime
                              (Sample.record ["Gen Z"%string])
                              Sample.failing_world))) = []
  /\ map name (Models.categories (db (snd (@save_to_db Sample.runtime
                                     (Sample.record ["Gen Z"%string])
                                     Sample.failing_world))))
     = [u "Health Research"]
  /\ map name (Models.tags (db (snd (@save_to_db Sample.runtime
                               (Sample.record ["Gen Z"%string])
                               Sample.failing_world))))
     = [u "Gen Z"]
  /\ articles (db Sample.failing_world) = [].
Proof. repeat split; vm_compute; reflexivity. Qed.
End AtomicityExample.

Section Batch.
Import Py Lib Models BaseParser ParserManager Props.
Context `{Runtime}.



Lemma keys_setitem (d : results) (k : str) (v : option Article) :
  keys (setitem d k v)
  = if existsb (Py.eqb k) (keys d) then keys d else keys d ++ [k].
Proof.
  unfold keys. induction d as [|[k0 v0] rest IH]; [reflexivity|].
  cbn [setitem map fst existsb].
  destruct (Py.eqb k0 k) eqn:E.
  - apply str_eqb_eq in E. subst k0. rewrite str_eqb_refl. reflexivity.
  - assert (E' : Py.eqb k k0 = false).
    { apply str_eqb_neq. apply str_eqb_neq in E. congruence. }
    rewrite E'. cbn [orb map fst]. rewrite IH.
    destruct (existsb (Py.eqb k) (map fst rest)); reflexivity.
Qed.

(** One turn of the loop: the entry of the URL is set to the value
    recorded for it, whether [parse_url] returned or raised, and the
    world is the one [parse_url] left. *)
Lemma parse_step (parsers : registry) (url_ : str) (acc : results) (w : World) :
  try_catch
    (bind (parse_url parsers url_) (fun article => ret (setitem acc url_ article)))
    (fun _ => ret (setitem acc url_ None)) w
  = (Ok (setitem acc url_ (recorded (fst (parse_url parsers url_ w)))),
     snd (parse_url parsers url_ w)).
Proof.
  unfold try_catch, bind, ret.
  destruct (parse_url parsers url_ w) as [[a|e] w1]; reflexivity.
Qed.

Lemma parse_loop_cons (parsers : registry) (url_ : str) (rest : list str)
      (acc : results) (w : World) :
  parse_loop parsers (url_ :: rest) acc w
  = parse_loop parsers rest
      (setitem acc url_ (recorded (fst (parse_url parsers url_ w))))
      (snd (parse_url parsers url_ w)).
Proof.
  cbn [parse_loop]. unfold bind at 1. rewrite parse_step. reflexivity.
Qed.

(** The loop never raises, and the world it ends in does not depend on
    the dictionary it started with. *)
Lemma parse_loop_total (parsers : registry) (urls : list str) (acc : results)
      (w : World) :
  exists res,
    parse_loop parsers urls acc w
    = (Ok res, snd (parse_loop parsers urls [] w)).
Proof.
  revert acc w. induction urls as [|url_ rest IH]; intros acc w.
  - exists acc. reflexivity.
  - rewrite !parse_loop_cons.
    destruct (IH (setitem acc url_ (recorded (fst (parse_url parsers url_ w))))
                 (snd (parse_url parsers url_ w))) as [res Hres].
    destruct (IH (setitem [] url_ (recorded (fst (parse_url parsers url_ w))))
                 (snd (parse_url parsers url_ w))) as [res0 Hres0].
    exists res. rewrite Hres, Hres0. reflexivity.
Qed.


Lemma parse_loop_keys (parsers : registry) (urls : list str) (acc res : results)
      (w w' : World) :
  parse_loop parsers urls acc w = (Ok res, w') ->
  keys res = keys acc ++ first_occurrences (keys acc) urls.
Proof.
  revert acc w. induction urls as [|url_ rest IH]; intros acc w Hrun.
  - injection Hrun as <- <-. cbn. rewrite app_nil_r. reflexivity.
  - rewrite parse_loop_cons in Hrun. apply IH in Hrun. rewrite Hrun.
    rewrite keys_setitem. cbn [first_occurrences].
    destruct (existsb (Py.eqb url_) (keys acc)).
    + reflexivity.
    + rewrite <- app_assoc. reflexivity.
Qed.




End Batch.

Section BatchExample.
Import Py Lib Models BaseParser ParserManager Props.

(** The isolation example of the design document: of three URLs of a
    supported site the second cannot be fetched; the batch has the three
    keys in order, [None] for the second, and an article for the third. *)
Example batch_of_three :
  option_map
    (map (fun e => (fst e, option_map pk (snd e))))
    (match fst (@parse_multiple_urls Sample.runtime (@init Sample.runtime)
                  [u "https://www.cnbc.com/one"; u "https://www.cnbc.com/broken";
                   u "https://www.cnbc.com/two"]
                  (Sample.world Sample.empty_db [] Sample.one_page_missing)) with
     | Ok res => Some res
     | Exc _ => None
     end)
  = Some [(u "https://www.cnbc.com/one", Some (Some 1%N));
          (u "https://www.cnbc.com/broken", None);
          (u "https://www.cnbc.com/two", Some (Some 2%N))].
Proof. vm_compute. reflexivity. Qed.
End BatchExample.

(* ===================================================================== *)
(** ** The environment: clock, web and requests *)
(* ===================================================================== *)

Section Environment.
Import Py Lib Models BaseParser Props.

Lemma same_env_refl (w : World) : same_env w w.
Proof. repeat split. Qed.

Lemma same_env_trans (w1 w2 w3 : World) :
  same_env w1 w2 -> same_env w2 w3 -> same_env w1 w3.
Proof.
  unfold same_env. intros [A1 [B1 C1]] [A2 [B2 C2]]. repeat split; congruence.
Qed.

Lemma quiet_ret {S A} (proj : S -> World) (a : A) : quiet_on proj (ret a).
Proof. intros s. apply same_env_refl. Qed.

Lemma quiet_raise {S A} (proj : S -> World) (e : exn) :
  quiet_on proj (@raise S A e).
Proof. intros s. apply same_env_refl. Qed.

Lemma quiet_lift {S A} (proj : S -> World) (r : result A) :
  quiet_on proj (@lift S A r).
Proof. intros s. apply same_env_refl. Qed.

Lemma quiet_gets {S A} (proj : S -> World) (f : S -> A) : quiet_on proj (gets f).
Proof. intros s. apply same_env_refl. Qed.

Lemma quiet_bind {S A B} (proj : S -> World) (m : M S A) (k : A -> M S B) :
  quiet_on proj m -> (forall a, quiet_on proj (k a)) -> quiet_on proj (bind m k).
Proof.
  intros Hm Hk s. unfold bind. specialize (Hm s).
  destruct (m s) as [[a|e] s1]; cbn [snd] in *; [|exact Hm].
  eapply same_env_trans; [exact Hm | apply Hk].
Qed.

Lemma quiet_try_catch {S A} (proj : S -> World) (m : M S A) (h : exn -> M S A) :
  quiet_on proj m -> (forall e, quiet_on proj (h e)) ->
  quiet_on proj (try_catch m h).
Proof.
  intros Hm Hh s. unfold try_catch. specialize (Hm s).
  destruct (m s) as [[a|e] s1]; cbn [snd] in *; [exact Hm|].
  eapply same_env_trans; [exact Hm | apply Hh].
Qed.

Lemma quiet_for_each {A B} (f : A -> M World B) (xs : list A) :
  (forall x, quiet_on (fun w => w) (f x)) -> quiet_on (fun w => w) (for_each f xs).
Proof.
  intros Hf. induction xs as [|x rest IH]; cbn [for_each].
  - apply quiet_ret.
  - apply quiet_bind; [apply Hf|]. intros y.
    apply quiet_bind; [exact IH|]. intros ys. apply quiet_ret.
Qed.

Lemma quiet_statement : quiet_on (fun w => w) statement.
Proof.
  intros w. destruct (statement w) as [r w'] eqn:Hs. apply statement_inv in Hs.
  cbn [snd]. destruct Hs as [_ [Hc [Hw [Hr _]]]]. repeat split; assumption.
Qed.

Lemma quiet_set_db (f : World -> DB) :
  quiet_on (fun w => w) (modify (fun w => set_db w (f w))).
Proof. intros w. repeat split. Qed.

Lemma quiet_on_world {A} (m : M World A) :
  quiet_on (fun w => w) m -> quiet_on (@snd Article World) (on_world m).
Proof.
  intros Hm [a w]. unfold on_world. specialize (Hm w).
  destruct (m w) as [r w']. exact Hm.
Qed.

Lemma quiet_set_self (f : Article -> Article) :
  quiet_on (@snd Article World) (set_self f).
Proof. intros [a w]. repeat split. Qed.

Lemma quiet_call {A} (a : Article) (m : M (Article * World) A) :
  quiet_on (@snd Article World) m -> quiet_on (fun w => w) (call a m).
Proof.
  intros Hm w. unfold call. specialize (Hm (a, w)).
  destruct (m (a, w)) as [[x|e] [a' w']]; exact Hm.
Qed.

Create HintDb quiet.
#[local] Hint Resolve quiet_ret quiet_raise quiet_lift quiet_gets quiet_statement
  quiet_set_db quiet_set_self quiet_on_world quiet_call : quiet.

Ltac quiet :=
  repeat first
    [ solve [auto with quiet]
    | progress cbv zeta
    | apply quiet_bind; [|intros ?]
    | apply quiet_try_catch; [|intros ?]
    | apply quiet_for_each; intros ?
    | match goal with
      | |- quiet_on _ (match ?x with _ => _ end) => destruct x
      | |- quiet_on _ (if ?x then _ else _) => destruct x
      end ].

Lemma quiet_get (k : kind) (s : str) : quiet_on (fun w => w) (get k s).
Proof. unfold get. quiet. Qed.

Lemma quiet_insert_term (k : kind) (nm sl : str) :
  quiet_on (fun w => w) (insert_term k nm sl).
Proof. unfold insert_term. quiet. Qed.

Lemma quiet_get_or_create `{Runtime} (k : kind) (sl nm : str) :
  quiet_on (fun w => w) (get_or_create k sl nm).
Proof.
  unfold get_or_create, create, SlugMixin_save.
  pose proof quiet_get. pose proof quiet_insert_term. quiet.
Qed.

Lemma quiet_resolve_terms `{Runtime} (k : kind) (names : option (list str)) :
  quiet_on (fun w => w) (resolve_terms k names).
Proof.
  unfold resolve_terms. pose proof quiet_get_or_create. quiet.
Qed.

Lemma quiet_filter_first (url_ : str) : quiet_on (fun w => w) (filter_first url_).
Proof. unfold filter_first. quiet. Qed.

Lemma quiet_add (k : kind) (a : Article) (terms : list Term) :
  quiet_on (fun w => w) (add k a terms).
Proof.
  unfold add. quiet.
Qed.

Lemma quiet_insert_article : quiet_on (@snd Article World) insert_article.
Proof. unfold insert_article, now, self. quiet. Qed.

Lemma quiet_update_article (key : N) :
  quiet_on (@snd Article World) (update_article key).
Proof. unfold update_article, now, self. quiet. Qed.

Lemma quiet_Model_save (force_insert : bool) :
  quiet_on (@snd Article World) (Model_save force_insert).
Proof.
  unfold Model_save, self.
  pose proof quiet_insert_article. pose proof quiet_update_article. quiet.
Qed.

Lemma quiet_Article_save (force_insert : bool) :
  quiet_on (@snd Article World) (Article_save force_insert).
Proof.
  unfold Article_save, now, self. pose proof quiet_Model_save. quiet.
Qed.

Lemma quiet_create_article `{Runtime} (data : Data) :
  quiet_on (fun w => w) (create_article data).
Proof.
  unfold create_article, Article_objects_create.
  pose proof quiet_Article_save. quiet.
Qed.

Lemma quiet_attach (a : Article) (cs ts : list Term) :
  quiet_on (fun w => w) (attach a cs ts).
Proof.
  unfold attach. pose proof quiet_Article_save. pose proof quiet_add. quiet.
Qed.

Lemma quiet_save_to_db_body `{Runtime} (data : Data) :
  quiet_on (fun w => w) (save_to_db_body data).
Proof.
  unfold save_to_db_body.
  pose proof quiet_resolve_terms. pose proof quiet_filter_first.
  pose proof quiet_create_article. pose proof quiet_attach. quiet.
Qed.

Lemma quiet_save_to_db `{Runtime} (data : Data) :
  quiet_on (fun w => w) (save_to_db data).
Proof.
  unfold save_to_db. pose proof quiet_save_to_db_body. quiet.
Qed.

End Environment.

(* ===================================================================== *)
(** ** What a commit writes *)
(* ===================================================================== *)

Section CommitEffects.
Import Py Lib Models BaseParser Props.
Context `{Runtime}.

Lemma published_unless_published (a : Article) (t : datetime) :
  Py.eqb (status (fields a)) STATUS_PUBLISHED = false -> published a t = a.
Proof. unfold published. intros ->. reflexivity. Qed.

Lemma add_run (k : kind) (a : Article) (terms : list Term) (w : World) (key : N) :
  pk a = Some key ->
  add k a terms w
  = match statement w with
    | (Ok _, w1) =>
        (Ok tt,
         set_db w1 (set_links k (db w1)
                      (add_links (links k (db w1)) (links_to key terms))))
    | (Exc e, w1) => (Exc e, w1)
    end.
Proof.
  intros Hpk. unfold add. run_monad.
  destruct (statement w) as [[[]|e] w1]; [|reflexivity].
  unfold deref. rewrite Hpk. reflexivity.
Qed.

Lemma add_links_nil (have : list (N * N)) : add_links have [] = have.
Proof. reflexivity. Qed.

(** The linking step of [attach] for one kind of term. *)
Lemma link_step (k : kind) (a : Article) (terms : list Term) (w : World) (key : N)
      r w' :
  pk a = Some key ->
  match terms with
  | _ :: _ => add k a terms
  | [] => ret tt
  end w = (r, w') ->
  same_env w w'
  /\ Models.categories (db w') = Models.categories (db w)
  /\ Models.tags (db w') = Models.tags (db w)
  /\ articles (db w') = articles (db w)
  /\ seq_article (db w') = seq_article (db w)
  /\ links (match k with Category => Tag | Tag => Category end) (db w')
     = links (match k with Category => Tag | Tag => Category end) (db w)
  /\ (links k (db w') = links k (db w)
      \/ links k (db w') = add_links (links k (db w)) (links_to key terms))
  /\ (r = Ok tt ->
      links k (db w') = add_links (links k (db w)) (links_to key terms))
  /\ (faults w = [] -> r = Ok tt /\ faults w' = []).
Proof.
  intros Hpk Hrun.
  assert (Henv : same_env w w').
  { destruct terms.
    - injection Hrun as <- <-. apply same_env_refl.
    - pose proof (quiet_add k a (t :: terms) w) as Hq. rewrite Hrun in Hq.
      exact Hq. }
  split; [exact Henv|]. destruct terms as [|t0 rest].
  - injection Hrun as <- <-.
    repeat split; try reflexivity; try assumption. left. reflexivity.
  - rewrite (add_run k a _ w key Hpk) in Hrun.
    destruct (statement w) as [[[]|e] w1] eqn:Hs;
      pose proof (statement_inv _ _ _ Hs) as [_ [_ [_ [_ [Hq _]]]]];
      apply statement_frame in Hs; injection Hrun as <- <-.
    + cbn [db set_db]. rewrite Hs.
      assert (Hf : faults w = [] ->
                   faults (set_db w1 (set_links k (db w)
                                        (add_links (links k (db w))
                                                   (links_to key (t0 :: rest)))))
                   = []).
      { intros Hf. destruct (Hq Hf) as [_ ->]. exact Hf. }
      destruct k; cbn [links set_links Models.categories Models.tags articles
                       seq_article article_categories article_tags];
        (split; [reflexivity|]); (split; [reflexivity|]);
        (split; [reflexivity|]); (split; [reflexivity|]);
        (split; [reflexivity|]); (split; [right; reflexivity|]);
        (split; [reflexivity|]); intros Hf0; (split; [reflexivity|]);
        apply Hf; exact Hf0.
    + rewrite Hs. repeat split; try reflexivity; try discriminate;
        try (left; reflexivity);
        match goal with
        | Hf : faults w = [] |- _ => destruct (Hq Hf) as [Habs _]; discriminate
        end.
Qed.

Lemma url_taken_other_key (rows : list ArticleRow) (key : N) (url_ : option str) :
  url_taken rows None url_ = false -> url_taken rows (Some key) url_ = false.
Proof.
  unfold url_taken. induction rows as [|x rest IH]; [reflexivity|].
  cbn [existsb]. rewrite andb_true_r. intros Hno.
  apply orb_false_iff in Hno. destruct Hno as [Hx Hrest].
  rewrite Hx, (IH Hrest). reflexivity.
Qed.

Lemma url_taken_find (rows : list ArticleRow) (url_ : str) :
  url_taken rows None (Some url_)
  = match find (fun x => same_url (Models.original_url (row x)) (Some url_)) rows with
    | Some _ => true
    | None => false
    end.
Proof.
  unfold url_taken. induction rows as [|x rest IH]; [reflexivity|].
  cbn [existsb find]. rewrite andb_true_r.
  destruct (same_url _ _); [reflexivity | exact IH].
Qed.

(** [create_article] step by step. *)
Lemma create_article_run (data : Data) (w : World) :
  create_article data w
  = match title data, summary data, original_url data with
    | Some title_, Some summary_, Some url_ =>
        let f := draft_of data title_ summary_ url_ (clock w) in
        match statement w with
        | (Exc e, w1) => (Exc e, w1)
        | (Ok _, w1) =>
            let d := db w1 in
            if url_taken (articles d) None (Some url_)
            then (Exc IntegrityError,
                  set_db w1 (set_articles d (articles d) (seq_article d + 1)))
            else (Ok {| pk := Some (seq_article d); fields := f;
                        _original_status := Some STATUS_DRAFT |},
                  set_db w1 (set_articles d
                               (articles d ++ [{| id := seq_article d; row := f |}])
                               (seq_article d + 1)))
        end
    | _, _, _ => (Exc KeyError, w)
    end.
Proof.
  unfold create_article.
  destruct (title data) as [title_|]; [|reflexivity].
  destruct (summary data) as [summary_|]; [|reflexivity].
  destruct (original_url data) as [url_|]; [|reflexivity].
  cbv beta iota zeta delta [bind lift item].
  unfold Article_objects_create, call.
  rewrite Article_save_unfold.
  match goal with
  | |- context [published ?a ?t] =>
      assert (Hp : published a t = a) by reflexivity; rewrite Hp; clear Hp
  end.
  rewrite Model_save_unfold. cbn [pk Article_init].
  rewrite insert_article_new by reflexivity. cbv zeta.
  destruct (statement w) as [[[]|e] w1] eqn:Hs; [|reflexivity].
  cbn [fields stamped_new set_fields Article_init Models.original_url
       set_updated_at set_created_at].
  destruct (url_taken _ _ _); reflexivity.
Qed.

(** The second save of the commit, on the draft that is the last row. *)
Lemma save_of_draft (a : Article) (w : World) (key : N) (rows : list ArticleRow)
      (r0 : ArticleRow) r a' w' :
  pk a = Some key ->
  Py.eqb (status (fields a)) STATUS_PUBLISHED = false ->
  articles (db w) = rows ++ [r0] -> id r0 = key ->
  Forall (fun x => (id x < key)%N) rows ->
  url_taken rows None (Models.original_url (fields a)) = false ->
  Article_save false (a, w) = (r, (a', w')) ->
  Models.categories (db w') = Models.categories (db w)
  /\ Models.tags (db w') = Models.tags (db w)
  /\ article_categories (db w') = article_categories (db w)
  /\ article_tags (db w') = article_tags (db w)
  /\ seq_article (db w') = seq_article (db w)
  /\ (articles (db w') = articles (db w)
      \/ articles (db w')
         = rows ++ [{| id := key;
                       row := set_updated_at (fields a) (Some (clock w)) |}])
  /\ (r = Ok tt ->
      a' = set_original_status (stamped a (clock w)) (Some (status (fields a)))
      /\ articles (db w')
         = rows ++ [{| id := key;
                       row := set_updated_at (fields a) (Some (clock w)) |}])
  /\ (faults w = [] -> r = Ok tt /\ faults w' = []).
Proof.
  intros Hpk Hst Hrows Hid Hlt Hfree. rewrite Article_save_unfold.
  rewrite (published_unless_published a (clock w) Hst).
  rewrite Model_save_unfold, Hpk, update_article_run. cbv zeta.
  destruct (statement w) as [[[]|e] w1] eqn:Hs;
    pose proof (statement_inv _ _ _ Hs) as [_ [_ [_ [_ [Hq _]]]]];
    apply statement_frame in Hs; cbv beta iota.
  - rewrite Hs, Hrows.
    assert (Hex : existsb (fun x => (id x =? key)%N) (rows ++ [r0]) = true).
    { rewrite <- Hid. apply existsb_last_id. }
    rewrite Hex.
    assert (Hnot : url_taken (rows ++ [r0]) (Some key)
                     (Models.original_url (fields (stamped a (clock w)))) = false).
    { unfold url_taken. rewrite existsb_app. apply orb_false_iff. split.
      - apply (url_taken_other_key rows key _ Hfree).
      - cbn [existsb]. rewrite Hid, N.eqb_refl. cbn [negb].
        rewrite andb_false_r. reflexivity. }
    rewrite Hnot.
    assert (Hrep : replace_row (rows ++ [r0])
                     {| id := key; row := fields (stamped a (clock w)) |}
                   = rows ++ [{| id := key; row := fields (stamped a (clock w)) |}]).
    { apply replace_row_fresh; [exact Hlt | exact Hid]. }
    rewrite Hrep. intros [= <- <- <-].
    cbn [db set_db articles set_articles Models.categories Models.tags
         article_categories article_tags seq_article stamped set_fields fields
         faults].
    repeat split; try reflexivity; try (right; reflexivity).
    match goal with
    | Hf : faults w = [] |- _ => destruct (Hq Hf) as [_ ->]; exact Hf
    end.
  - intros [= <- <- <-]. rewrite Hs.
    repeat split; try reflexivity; try discriminate; try (left; reflexivity);
      match goal with
      | Hf : faults w = [] |- _ => destruct (Hq Hf) as [Habs _]; discriminate
      end.
Qed.

(** [resolve_terms]: the terms returned, name by name. *)
Lemma resolve_terms_pairs (k : kind) (names : option (list str)) (w : World)
      (ts : list Term) (w' : World) :
  resolve_terms k names w = (Ok ts, w') ->
  Forall2 (fun nm t => slug t = slugify nm /\ In t (table k (db w')))
          (names_of names) ts.
Proof.
  unfold resolve_terms, names_of. destruct names as [[|n0 l]|].
  - intros [= <- <-]. constructor.
  - intros Hrun.
    set (P := fun (nm : str) (t : Term) (w0 : World) =>
                slug t = slugify nm /\ In t (table k (db w0))).
    assert (Hstep : forall x w0 r0 w0',
               bind (get_or_create k (slugify x) x) (fun r1 => ret (fst r1)) w0
               = (r0, w0') ->
               advances w0 w0' /\ (forall y, r0 = Ok y -> P x y w0')).
    { intros x w0 r0 w0' Hx. apply bind_inv in Hx.
      destruct Hx as [[[t b] [w1 [Hg Hx]]] | [e [Hg ->]]].
      * injection Hx as <- <-. apply get_or_create_inv in Hg.
        destruct Hg as [Hadv Hok]. split; [exact Hadv|].
        intros y [= <-]. destruct (Hok t b eq_refl). split; assumption.
      * apply get_or_create_inv in Hg. destruct Hg as [Hadv _].
        split; [exact Hadv | discriminate]. }
    assert (Hmono : forall x y w0 w0', P x y w0 -> advances w0 w0' -> P x y w0').
    { intros x y w0 w0' [Hsl Hin] Hadv. split; [exact Hsl|].
      eapply advances_In; eassumption. }
    destruct (for_each_inv _ P (n0 :: l) Hstep Hmono _ _ _ Hrun) as [_ Hall].
    exact (Hall ts eq_refl).
  - intros [= <- <-]. constructor.
Qed.

Lemma Forall2_weaken {A B} (P Q : A -> B -> Prop) (xs : list A) (ys : list B) :
  (forall x y, P x y -> Q x y) -> Forall2 P xs ys -> Forall2 Q xs ys.
Proof. intros Himp Hall. induction Hall; constructor; auto. Qed.

(** The effect of the body of [save_to_db] on the store, whatever its
    outcome. Either no article row and no link is written (and the
    article returned, if any, is the one stored under the URL), or the
    draft of the record is the new last row and the links written are
    links of this draft to the terms resolved. *)
Lemma save_to_db_body_effect (data : Data) (w : World) r w' :
  Forall (fun x => (id x < seq_article (db w))%N) (articles (db w)) ->
  save_to_db_body data w = (r, w') ->
  (articles (db w') = articles (db w)
   /\ article_categories (db w') = article_categories (db w)
   /\ article_tags (db w') = article_tags (db w)
   /\ (seq_article (db w') = seq_article (db w)
       \/ seq_article (db w') = (seq_article (db w) + 1)%N)
   /\ (forall a, r = Ok a ->
         exists url_,
           original_url data = Some url_
           /\ option_map from_db
                (find (fun x => same_url (Models.original_url (row x)) (Some url_))
                      (articles (db w))) = Some a))
  \/ (exists title_ summary_ url_ cs ts,
        title data = Some title_ /\ summary data = Some summary_
        /\ original_url data = Some url_
        /\ find (fun x => same_url (Models.original_url (row x)) (Some url_))
                (articles (db w)) = None
        /\ Forall2 (fun nm t => slug t = slugify nm
                                /\ In t (Models.categories (db w')))
                   (names_of (categories data)) cs
        /\ Forall2 (fun nm t => slug t = slugify nm /\ In t (Models.tags (db w')))
                   (names_of (tags data)) ts
        /\ articles (db w')
           = articles (db w)
             ++ [{| id := seq_article (db w);
                    row := draft_of data title_ summary_ url_ (clock w) |}]
        /\ seq_article (db w') = (seq_article (db w) + 1)%N
        /\ (article_categories (db w') = article_categories (db w)
            \/ article_categories (db w')
               = add_links (article_categories (db w))
                           (links_to (seq_article (db w)) cs))
        /\ (article_tags (db w') = article_tags (db w)
            \/ article_tags (db w')
               = add_links (article_tags (db w)) (links_to (seq_article (db w)) ts))
        /\ (forall a, r = Ok a ->
              a = {| pk := Some (seq_article (db w));
                     fields := draft_of data title_ summary_ url_ (clock w);
                     _original_status := Some STATUS_DRAFT |}
              /\ article_categories (db w')
                 = add_links (article_categories (db w))
                             (links_to (seq_article (db w)) cs)
              /\ article_tags (db w')
                 = add_links (article_tags (db w))
                             (links_to (seq_article (db w)) ts))).
Proof.
  intros Hids Hrun. unfold save_to_db_body in Hrun.
  assert (Hsame : forall w0, only_terms_added (db w) (db w0) ->
            articles (db w0) = articles (db w)
            /\ article_categories (db w0) = article_categories (db w)
            /\ article_tags (db w0) = article_tags (db w)
            /\ (seq_article (db w0) = seq_article (db w)
                \/ seq_article (db w0) = (seq_article (db w) + 1)%N)).
  { intros w0 [A [B [C [D _]]]]. repeat split; try assumption. left. exact D. }
  apply bind_inv in Hrun.
  destruct Hrun as [[cs [wa [Hcats Hrun]]] | [e [Hcats ->]]].
  2: { left. apply resolve_terms_inv in Hcats. destruct Hcats as [[Hadd _] _].
       destruct (Hsame _ Hadd) as [A [B [C D]]].
       repeat split; try assumption. discriminate. }
  pose proof (quiet_resolve_terms Category (categories data) w) as Henv1.
  rewrite Hcats in Henv1. cbn [snd] in Henv1.
  pose proof (resolve_terms_pairs _ _ _ _ _ Hcats) as Hcs.
  apply resolve_terms_inv in Hcats. destruct Hcats as [Hadv1 _].
  apply bind_inv in Hrun.
  destruct Hrun as [[ts [wb [Htags Hrun]]] | [e [Htags ->]]].
  2: { left. apply resolve_terms_inv in Htags. destruct Htags as [Hadv2 _].
       destruct (advances_trans _ _ _ Hadv1 Hadv2) as [Hadd _].
       destruct (Hsame _ Hadd) as [A [B [C D]]].
       repeat split; try assumption. discriminate. }
  pose proof (quiet_resolve_terms Tag (tags data) wa) as Henv2.
  rewrite Htags in Henv2. cbn [snd] in Henv2.
  pose proof (resolve_terms_pairs _ _ _ _ _ Htags) as Hts.
  apply resolve_terms_inv in Htags. destruct Htags as [Hadv2 _].
  pose proof (advances_trans _ _ _ Hadv1 Hadv2) as Hadv.
  destruct Hadv as [Hadd _].
  destruct (Hsame _ Hadd) as [Harts [Hlc [Hlt _]]].
  assert (Hseq : seq_article (db wb) = seq_article (db w)) by apply Hadd.
  assert (Hcs' : Forall2 (fun nm t => slug t = slugify nm
                                      /\ In t (Models.categories (db wb)))
                         (names_of (categories data)) cs).
  { eapply Forall2_weaken; [|exact Hcs]. intros nm t [Hsl Hin].
    split; [exact Hsl|]. apply (advances_In Category wa wb t Hadv2 Hin). }
  clear Hcs. cbn [table] in Hts.
  apply bind_inv in Hrun.
  destruct Hrun as [[url_ [wb' [Hurl Hrun]]] | [e [Hurl ->]]].
  2: { left. unfold lift in Hurl. injection Hurl as _ <-.
       repeat split; try assumption; [left; exact Hseq | discriminate]. }
  unfold lift in Hurl. destruct (original_url data) as [url0|] eqn:Hu;
    [|discriminate]. injection Hurl as <- <-.
  apply bind_inv in Hrun.
  destruct Hrun as [[existing [wc [Hfind Hrun]]] | [e [Hfind ->]]].
  2: { left. apply filter_first_inv in Hfind. destruct Hfind as [Hdb _].
       rewrite Hdb. repeat split; try assumption; [left; exact Hseq | discriminate]. }
  pose proof (quiet_filter_first url0 wb) as Henv3.
  rewrite Hfind in Henv3. cbn [snd] in Henv3.
  apply filter_first_inv in Hfind.
  destruct Hfind as [Hdb [_ [_ [[Hfound _] | [Habs _]]]]]; [|discriminate].
  injection Hfound as Hfound. rewrite Harts in Hfound.
  destruct existing as [a0|].
  { left. injection Hrun as <- <-. rewrite Hdb.
    repeat split; try assumption; [left; exact Hseq|].
    intros a [= <-]. exists url0. split; [reflexivity | symmetry; exact Hfound]. }
  assert (Hnone : find (fun x => same_url (Models.original_url (row x)) (Some url0))
                       (articles (db w)) = None).
  { destruct (find _ (articles (db w))); [discriminate | reflexivity]. }
  assert (Hclock : clock wc = clock w).
  { destruct Henv1 as [C1 _]. destruct Henv2 as [C2 _]. destruct Henv3 as [C3 _].
    congruence. }
  apply bind_inv in Hrun.
  destruct Hrun as [[article [wd [Hcreate Hrun]]] | [e [Hcreate ->]]].
  2: { left. rewrite create_article_run, Hu in Hcreate.
       destruct (title data) as [title_|]; [|injection Hcreate as _ <-].
       2: { rewrite Hdb. repeat split; try assumption;
              [left; exact Hseq | discriminate]. }
       destruct (summary data) as [summary_|]; [|injection Hcreate as _ <-].
       2: { rewrite Hdb. repeat split; try assumption;
              [left; exact Hseq | discriminate]. }
       cbv zeta in Hcreate.
       destruct (statement wc) as [[[]|e1] w1] eqn:Hs; apply statement_frame in Hs.
       - rewrite Hs, Hdb, Harts, url_taken_find, Hnone in Hcreate. discriminate.
       - injection Hcreate as _ <-. rewrite Hs, Hdb.
         repeat split; try assumption; [left; exact Hseq | discriminate]. }
  right. rewrite create_article_run, Hu in Hcreate.
  destruct (title data) as [title_|]; [|discriminate].
  destruct (summary data) as [summary_|]; [|discriminate].
  cbv zeta in Hcreate.
  destruct (statement wc) as [[[]|e1] w1] eqn:Hs; [|discriminate].
  pose proof (quiet_statement wc) as Henv4. rewrite Hs in Henv4. cbn [snd] in Henv4.
  apply statement_frame in Hs.
  rewrite Hs, Hdb, Harts, url_taken_find, Hnone, Hseq, Hclock in Hcreate.
  injection Hcreate as <- <-.
  exists title_, summary_, url0, cs, ts.
  split; [reflexivity|]. split; [reflexivity|]. split; [reflexivity|].
  split; [exact Hnone|].
  set (key := seq_article (db w)) in *.
  set (f := draft_of data title_ summary_ url0 (clock w)) in *.
  set (a := {| pk := Some key; fields := f; _original_status := Some STATUS_DRAFT |})
    in *.
  set (wd := set_db w1 (set_articles (db wb)
                          (articles (db w) ++ [{| id := key; row := f |}])
                          (key + 1)%N)) in *.
  assert (Hwd_c : Models.categories (db wd) = Models.categories (db wb))
    by reflexivity.
  assert (Hwd_t : Models.tags (db wd) = Models.tags (db wb)) by reflexivity.
  assert (Hwd_a : articles (db wd) = articles (db w) ++ [{| id := key; row := f |}])
    by reflexivity.
  assert (Hwd_s : seq_article (db wd) = (key + 1)%N) by reflexivity.
  assert (Hwd_lc : article_categories (db wd) = article_categories (db w))
    by exact Hlc.
  assert (Hwd_lt : article_tags (db wd) = article_tags (db w)) by exact Hlt.
  assert (Hwd_clock : clock wd = clock w).
  { change (clock wd) with (clock w1). destruct Henv4 as [C4 _]. congruence. }
  clearbody wd.
  unfold attach in Hrun.
  assert (Hpk : pk a = Some key) by reflexivity.
  apply bind_inv in Hrun.
  destruct Hrun as [[[] [w2 [Hl1 Hrun]]] | [e [Hl1 ->]]];
    apply (link_step Category a cs wd key _ _ Hpk) in Hl1;
    cbn [links] in Hl1;
    destruct Hl1 as [He1 [Hc1 [Ht1 [Ha1 [Hs1 [Ho1 [Hd1 [Hk1 _]]]]]]]].
  2: { assert (E1 : Models.categories (db w') = Models.categories (db wb))
         by congruence.
       assert (E2 : Models.tags (db w') = Models.tags (db wb)) by congruence.
       assert (E3 : articles (db w')
                    = articles (db w) ++ [{| id := key; row := f |}])
         by congruence.
       assert (E4 : seq_article (db w') = (key + 1)%N) by congruence.
       assert (E5 : article_tags (db w') = article_tags (db w)) by congruence.
       rewrite Hwd_lc in Hd1. rewrite E1, E2, E3, E4.
       split; [exact Hcs'|]. split; [exact Hts|].
       split; [reflexivity|]. split; [reflexivity|].
       split; [exact Hd1|]. split; [left; exact E5 | discriminate]. }
  specialize (Hk1 eq_refl).
  apply bind_inv in Hrun.
  destruct Hrun as [[[] [w3 [Hl2 Hrun]]] | [e [Hl2 ->]]];
    apply (link_step Tag a ts w2 key _ _ Hpk) in Hl2;
    cbn [links] in Hl2;
    destruct Hl2 as [He2 [Hc2 [Ht2 [Ha2 [Hs2 [Ho2 [Hd2 [Hk2 _]]]]]]]].
  2: { assert (E1 : Models.categories (db w') = Models.categories (db wb))
         by congruence.
       assert (E2 : Models.tags (db w') = Models.tags (db wb)) by congruence.
       assert (E3 : articles (db w')
                    = articles (db w) ++ [{| id := key; row := f |}])
         by congruence.
       assert (E4 : seq_article (db w') = (key + 1)%N) by congruence.
       assert (E5 : article_categories (db w')
                    = add_links (article_categories (db w)) (links_to key cs))
         by congruence.
       rewrite Ho1, Hwd_lt in Hd2. rewrite E1, E2, E3, E4.
       split; [exact Hcs'|]. split; [exact Hts|].
       split; [reflexivity|]. split; [reflexivity|].
       split; [right; exact E5|]. split; [exact Hd2 | discriminate]. }
  specialize (Hk2 eq_refl). rewrite Ho1, Hwd_lt in Hk2. rewrite Hwd_lc in Hk1.
  unfold call in Hrun.
  destruct (Article_save false (a, w3)) as [rs [a2 w4]] eqn:Hsave.
  assert (Hrows3 : articles (db w3) = articles (db w) ++ [{| id := key; row := f |}])
    by congruence.
  assert (Hfree : url_taken (articles (db w)) None (Models.original_url (fields a))
                  = false).
  { cbn [fields a f draft_of Models.original_url]. rewrite url_taken_find, Hnone.
    reflexivity. }
  destruct (save_of_draft a w3 key (articles (db w)) {| id := key; row := f |}
              rs a2 w4 Hpk eq_refl Hrows3 eq_refl Hids Hfree Hsave)
    as [Hc4 [Ht4 [Hlc4 [Hlt4 [Hs4 [Hrows4 [Hok4 _]]]]]]].
  assert (Hclock3 : clock w3 = clock w).
  { destruct He1 as [C1 _]. destruct He2 as [C2 _]. congruence. }
  assert (Hstamp : set_updated_at (fields a) (Some (clock w3)) = f).
  { rewrite Hclock3. reflexivity. }
  rewrite Hstamp in Hrows4, Hok4. rewrite Hrows3 in Hrows4.
  assert (Hrows' : articles (db w4) = articles (db w) ++ [{| id := key; row := f |}]).
  { destruct Hrows4 as [-> | ->]; reflexivity. }
  assert (Hw' : db w' = db w4 /\ (forall a', r = Ok a' -> rs = Ok tt /\ a' = a2)).
  { destruct rs as [[]|e]; injection Hrun as <- <-; (split; [reflexivity|]).
    - intros a' [= <-]. split; reflexivity.
    - discriminate. }
  destruct Hw' as [Hdb' Hret].
  assert (E1 : Models.categories (db w') = Models.categories (db wb))
    by congruence.
  assert (E2 : Models.tags (db w') = Models.tags (db wb)) by congruence.
  assert (E3 : articles (db w') = articles (db w) ++ [{| id := key; row := f |}])
    by congruence.
  assert (E4 : seq_article (db w') = (key + 1)%N) by congruence.
  assert (E5 : article_categories (db w')
               = add_links (article_categories (db w)) (links_to key cs))
    by congruence.
  assert (E6 : article_tags (db w')
               = add_links (article_tags (db w)) (links_to key ts))
    by congruence.
  rewrite E1, E2, E3, E4.
  split; [exact Hcs'|]. split; [exact Hts|].
  split; [reflexivity|]. split; [reflexivity|].
  split; [right; exact E5|]. split; [right; exact E6|].
  intros a' Ha'. destruct (Hret a' Ha') as [-> ->].
  destruct (Hok4 eq_refl) as [-> _].
  split; [|split; assumption].
  unfold stamped. rewrite Hstamp. reflexivity.
Qed.

End CommitEffects.

(* ===================================================================== *)
(** ** The store after a commit *)
(* ===================================================================== *)

Section LinkFacts.
Import Py Lib Models Props.

Lemma link_eqb_eq (a b : N * N) : link_eqb a b = true <-> a = b.
Proof.
  destruct a as [a1 a2], b as [b1 b2]. unfold link_eqb. cbn [fst snd].
  rewrite andb_true_iff, !N.eqb_eq. split.
  - intros [-> ->]. reflexivity.
  - intros [= -> ->]. split; reflexivity.
Qed.

Lemma existsb_link (l : N * N) (have : list (N * N)) :
  existsb (link_eqb l) have = true <-> In l have.
Proof.
  rewrite existsb_exists. split.
  - intros [x [Hin Heq]]. apply link_eqb_eq in Heq. subst x. exact Hin.
  - intros Hin. exists l. split; [exact Hin | apply link_eqb_eq; reflexivity].
Qed.

Lemma add_links_In (l : N * N) (new have : list (N * N)) :
  In l (add_links have new) <-> In l have \/ In l new.
Proof.
  revert have. induction new as [|x rest IH]; intros have; cbn [add_links In].
  - tauto.
  - destruct (existsb (link_eqb x) have) eqn:Hex.
    + apply existsb_link in Hex. rewrite IH. split.
      * intros [Hh | Hr]; auto.
      * intros [Hh | [<- | Hr]]; auto.
    + rewrite IH, in_app_iff. cbn [In]. tauto.
Qed.

Lemma add_links_NoDup (new have : list (N * N)) :
  NoDup have -> NoDup (add_links have new).
Proof.
  revert have. induction new as [|x rest IH]; intros have Hnd; cbn [add_links].
  - exact Hnd.
  - destruct (existsb (link_eqb x) have) eqn:Hex.
    + apply IH. exact Hnd.
    + apply IH. apply NoDup_snoc; [exact Hnd|].
      intros Hin. apply existsb_link in Hin. congruence.
Qed.

Lemma links_to_In (key : N) (terms : list Term) (l : N * N) :
  In l (links_to key terms) <-> exists t, In t terms /\ l = (key, term_id t).
Proof.
  unfold links_to. rewrite in_map_iff. split.
  - intros [t [<- Hin]]. exists t. split; [exact Hin | reflexivity].
  - intros [t [Hin ->]]. exists t. split; [reflexivity | exact Hin].
Qed.

Lemma stored_urls_In (d : DB) (url_ : str) :
  In url_ (stored_urls d)
  <-> exists r, In r (articles d) /\ original_url (row r) = Some url_.
Proof.
  unfold stored_urls. rewrite in_flat_map. split.
  - intros [r [Hin Hu]]. exists r. split; [exact Hin|].
    destruct (original_url (row r)) as [u0|]; [|contradiction].
    destruct Hu as [<- | []]. reflexivity.
  - intros [r [Hin Hu]]. exists r. split; [exact Hin|]. rewrite Hu. left.
    reflexivity.
Qed.

Lemma find_url_none (rows : list ArticleRow) (url_ : str) :
  find (fun x => same_url (original_url (row x)) (Some url_)) rows = None
  <-> (forall r, In r rows -> original_url (row r) <> Some url_).
Proof.
  split.
  - intros Hnone r Hin Hu. apply (find_none _ _ Hnone) in Hin.
    cbv beta in Hin. rewrite Hu in Hin. cbn [same_url] in Hin.
    rewrite str_eqb_refl in Hin. discriminate.
  - intros Hall. destruct (find _ rows) as [r|] eqn:Hf; [|reflexivity].
    apply find_some in Hf. destruct Hf as [Hin Hs]. exfalso.
    apply (Hall r Hin). destruct (original_url (row r)) as [u0|]; [|discriminate].
    cbn [same_url] in Hs. apply str_eqb_eq in Hs. rewrite Hs. reflexivity.
Qed.

Lemma Forall2_In_right {A B} (P : A -> B -> Prop) (xs : list A) (ys : list B)
      (y : B) :
  Forall2 P xs ys -> In y ys -> exists x, In x xs /\ P x y.
Proof.
  intros Hall. induction Hall as [|x0 y0 xs ys Hp _ IH]; [intros []|].
  intros [<- | Hin].
  - exists x0. split; [left; reflexivity | exact Hp].
  - destruct (IH Hin) as [x [Hx Hpx]]. exists x. split; [right; exact Hx | exact Hpx].
Qed.

End LinkFacts.

Section StoreAfterCommit.
Import Py Lib Models BaseParser Props Views.
Context `{Runtime}.

(** The term tables after the body of [save_to_db] are those left by
    the resolution of the terms: slugs stay unique. *)
Lemma save_to_db_body_slugs (data : Data) (w : World) :
  consistent (db w) ->
  NoDup (map slug (Models.categories (db (snd (save_to_db_body data w)))))
  /\ NoDup (map slug (Models.tags (db (snd (save_to_db_body data w))))).
Proof.
  intros Hcons.
  assert (Hkeep : forall w0, advances w w0 ->
             NoDup (map slug (Models.categories (db w0)))
             /\ NoDup (map slug (Models.tags (db w0)))).
  { intros w0 [_ [Hc _]]. destruct (Hc Hcons) as [A [B _]]. auto. }
  unfold save_to_db_body.
  destruct (resolve_terms Category (categories data) w) as [[cs|e] wa] eqn:Hcats;
    pose proof (resolve_terms_inv _ _ _ _ _ Hcats) as [Hadv1 _].
  2: { rewrite (bind_exc _ _ _ _ _ Hcats). apply Hkeep. exact Hadv1. }
  rewrite (bind_ok _ _ _ _ _ Hcats).
  destruct (resolve_terms Tag (tags data) wa) as [[ts|e] wb] eqn:Htags;
    pose proof (resolve_terms_inv _ _ _ _ _ Htags) as [Hadv2 _];
    pose proof (advances_trans _ _ _ Hadv1 Hadv2) as Hadv.
  2: { rewrite (bind_exc _ _ _ _ _ Htags). apply Hkeep. exact Hadv. }
  rewrite (bind_ok _ _ _ _ _ Htags).
  destruct (Hkeep _ Hadv) as [Hc Ht].
  destruct (original_url data) as [url|]; [|exact (conj Hc Ht)].
  unfold lift, item. rewrite (bind_ok _ _ _ url wb) by reflexivity.
  destruct (filter_first url wb) as [rf wc] eqn:Hfind.
  pose proof (filter_first_inv _ _ _ _ Hfind) as [Hdb _].
  destruct rf as [[a0|]|e].
  - rewrite (bind_ok _ _ _ _ _ Hfind). cbn [fst snd ret]. rewrite Hdb.
    exact (conj Hc Ht).
  - rewrite (bind_ok _ _ _ _ _ Hfind).
    destruct (create_article data wc) as [rc wd] eqn:Hcreate.
    pose proof (create_article_inv _ _ _ _ Hcreate) as [Hc1 [Ht1 Hrows]].
    rewrite Hdb in Hc1, Ht1.
    destruct rc as [article|e].
    + rewrite (bind_ok _ _ _ _ _ Hcreate).
      destruct Hrows as [Hpk _].
      destruct (attach article cs ts wd) as [ra we] eqn:Hattach.
      destruct (attach_inv _ _ _ _ _ _ _ Hpk Hattach) as [Hc2 [Ht2 _]].
      cbn [fst snd]. rewrite Hc2, Ht2, Hc1, Ht1. exact (conj Hc Ht).
    + rewrite (bind_exc _ _ _ _ _ Hcreate). cbn [fst snd].
      rewrite Hc1, Ht1. exact (conj Hc Ht).
  - rewrite (bind_exc _ _ _ _ _ Hfind). cbn [fst snd]. rewrite Hdb.
    exact (conj Hc Ht).
Qed.

Lemma save_to_db_world (data : Data) (w : World) :
  snd (save_to_db data w) = snd (save_to_db_body data w).
Proof.
  rewrite save_to_db_unfold.
  destruct (save_to_db_body data w) as [[a|e] w1]; reflexivity.
Qed.

Lemma linked_links (k : kind) (d d' : DB) (t : Term) (r : ArticleRow) :
  (forall l, fst l = id r -> (In l (links k d') <-> In l (links k d))) ->
  linked k d' t r = linked k d t r.
Proof.
  intros Hsame. unfold linked.
  destruct (existsb _ (links k d)) eqn:E.
  - apply existsb_link. apply Hsame; [reflexivity|]. apply existsb_link. exact E.
  - destruct (existsb _ (links k d')) eqn:E'; [|reflexivity].
    apply existsb_link in E'. apply Hsame in E'; [|reflexivity].
    apply existsb_link in E'. congruence.
Qed.

End StoreAfterCommit.

Section Schema.
Import Py Lib Models BaseParser Props.
Context `{Runtime}.

(** X1. [save_to_db] keeps the store well formed, whatever its outcome:
    slugs, article keys and URLs stay unique, the keys stay below the
    sequence, no link is stored twice, and every link joins a stored
    article and a stored term. *)
Theorem save_to_db_keeps_schema (data : Data) (w : World) :
  well_formed (db w) -> well_formed (db (snd (save_to_db data w))).
Proof.
  intros [Hcons [Hids [Hurls [Hnd Href]]]].
  rewrite save_to_db_world.
  pose proof (save_to_db_body_slugs data w Hcons) as Hslugs.
  pose proof (save_to_db_body_frame data w) as Hframe. cbv zeta in Hframe.
  destruct (save_to_db_body data w) as [r w'] eqn:Hrun. cbn [snd] in *.
  destruct Hframe as [Htab _]. destruct Hslugs as [Hsc Hst].
  assert (Hlt : Forall (fun x => (id x < seq_article (db w))%N) (articles (db w)))
    by apply Hcons.
  assert (Hterm : forall k l, In l (links k (db w)) ->
             In (snd l) (map term_id (table k (db w')))).
  { intros k l Hin. destruct (Htab k) as [new ->]. rewrite map_app.
    apply in_or_app. left. apply (Href k l Hin). }
  destruct (save_to_db_body_effect data w r w' Hlt Hrun)
    as [(Ha & Hlc & Hltg & Hseq & _)
       | (title_ & summary_ & url_ & cs & ts & _ & _ & _ & Hnone & Hcs & Hts
          & Ha & Hseq & Hlc & Hltg & _)].
  - assert (Hlinks : forall k, links k (db w') = links k (db w))
      by (intros k; destruct k; assumption).
    split.
    { split; [exact Hsc|]. split; [exact Hst|]. rewrite Ha.
      eapply Forall_impl; [|exact Hlt]. cbv beta. intros x Hx.
      destruct Hseq as [-> | ->]; lia. }
    split; [rewrite Ha; exact Hids|].
    split; [unfold stored_urls; rewrite Ha; exact Hurls|].
    split; [intros k; rewrite Hlinks; apply Hnd|].
    intros k l Hin. rewrite Hlinks in Hin. split.
    + rewrite Ha. apply (Href k l Hin).
    + apply Hterm. exact Hin.
  - set (key := seq_article (db w)) in *.
    assert (Hfresh : ~ In key (map id (articles (db w)))).
    { intros Hin. apply in_map_iff in Hin. destruct Hin as [x [Hx Hin]].
      rewrite Forall_forall in Hlt. specialize (Hlt x Hin). lia. }
    assert (Hlinks : forall k l, In l (links k (db w')) ->
               In l (links k (db w))
               \/ exists t, In t (table k (db w')) /\ l = (key, term_id t)).
    { intros k l Hin. destruct k; cbn [links table] in *.
      - destruct Hlc as [E | E]; rewrite E in Hin; [left; exact Hin|].
        apply add_links_In in Hin. destruct Hin as [Hin | Hin]; [left; exact Hin|].
        right. apply links_to_In in Hin. destruct Hin as [t [Hin ->]].
        exists t. split; [|reflexivity].
        destruct (Forall2_In_right _ _ _ t Hcs Hin) as [nm [_ [_ Ht]]]. exact Ht.
      - destruct Hltg as [E | E]; rewrite E in Hin; [left; exact Hin|].
        apply add_links_In in Hin. destruct Hin as [Hin | Hin]; [left; exact Hin|].
        right. apply links_to_In in Hin. destruct Hin as [t [Hin ->]].
        exists t. split; [|reflexivity].
        destruct (Forall2_In_right _ _ _ t Hts Hin) as [nm [_ [_ Ht]]]. exact Ht. }
    split.
    { split; [exact Hsc|]. split; [exact Hst|]. rewrite Ha, Hseq.
      apply Forall_app. split.
      - eapply Forall_impl; [|exact Hlt]. cbv beta. intros x Hx. lia.
      - constructor; [cbn [id]; lia | constructor]. }
    split.
    { rewrite Ha, map_app. cbn [map id]. apply NoDup_snoc; assumption. }
    split.
    { unfold stored_urls. rewrite Ha, flat_map_app. cbn [flat_map row draft_of
        Models.original_url app]. apply NoDup_snoc; [exact Hurls|].
      intros Hin. apply stored_urls_In in Hin. destruct Hin as [x [Hx Hu]].
      apply (proj1 (find_url_none _ _) Hnone x Hx Hu). }
    split.
    { intros k. destruct k; cbn [links].
      - destruct Hlc as [-> | ->]; [|apply add_links_NoDup]; apply (Hnd Category).
      - destruct Hltg as [-> | ->]; [|apply add_links_NoDup]; apply (Hnd Tag). }
    intros k l Hin. destruct (Hlinks k l Hin) as [Hold | [t [Ht ->]]].
    + split; [|apply Hterm; exact Hold].
      rewrite Ha, map_app. apply in_or_app. left. apply (Href k l Hold).
    + cbn [fst snd]. split.
      * rewrite Ha, map_app. apply in_or_app. right. left. reflexivity.
      * apply in_map. exact Ht.
Qed.

End Schema.

Section NewArticle.
Import Py Lib Models BaseParser Props Views.
Context `{Runtime}.

Lemma draft_is_not_published (data : Data) (title_ summary_ url_ : str)
      (t : datetime) (key : N) :
  is_published {| id := key; row := draft_of data title_ summary_ url_ t |} = false.
Proof. reflexivity. Qed.

(** X2. A commit of a record whose URL is not stored yet. The article
    returned has the key drawn from the sequence and is the draft of the
    record: its title, summary and URL, the defaults for the keys the
    record lacks, status DRAFT, no publication time, no user; both
    timestamps are set. Its row is the new last row of the table and
    holds the same values. For every category name and every tag name of
    the record the article is linked to a stored term with the slug of
    the name, and every link the commit writes joins the new article to
    such a term: a stored term with the slug of a name of the record.
    The detail view selects the new row, the list view does not. *)
Theorem save_to_db_stores_draft (data : Data) (w w1 : World) (a : Article)
        (url_ : str) :
  consistent (db w) ->
  original_url data = Some url_ ->
  (forall r, In r (articles (db w)) -> Models.original_url (row r) <> Some url_) ->
  save_to_db data w = (Ok (Some a), w1) ->
  let key := seq_article (db w) in
  pk a = Some key
  /\ _original_status a = Some STATUS_DRAFT
  /\ (exists title_ summary_,
        title data = Some title_ /\ summary data = Some summary_
        /\ Models.title (fields a) = title_
        /\ Models.summary (fields a) = summary_
        /\ Models.original_url (fields a) = Some url_
        /\ Models.source_name (fields a) = get_default (source_name data) []
        /\ Models.publication_date (fields a)
           = match publication_date data with Some d => d | None => None end
        /\ Models.authors (fields a) = get_default (authors data) []
        /\ Models.full_text_content (fields a)
           = Some (get_default (full_text_content data) [])
        /\ status (fields a) = STATUS_DRAFT
        /\ added_by (fields a) = None
        /\ published_by (fields a) = None
        /\ published_at (fields a) = None
        /\ created_at (fields a) <> None
        /\ updated_at (fields a) <> None)
  /\ articles (db w1) = articles (db w) ++ [{| id := key; row := fields a |}]
  /\ (forall nm, In nm (names_of (categories data)) ->
        exists t, In t (Models.categories (db w1)) /\ slug t = slugify nm
                  /\ In (key, term_id t) (article_categories (db w1)))
  /\ (forall nm, In nm (names_of (tags data)) ->
        exists t, In t (Models.tags (db w1)) /\ slug t = slugify nm
                  /\ In (key, term_id t) (article_tags (db w1)))
  /\ (forall l, In l (article_categories (db w1)) ->
        In l (article_categories (db w))
        \/ exists nm t, In nm (names_of (categories data))
                        /\ In t (Models.categories (db w1))
                        /\ slug t = slugify nm /\ l = (key, term_id t))
  /\ (forall l, In l (article_tags (db w1)) ->
        In l (article_tags (db w))
        \/ exists nm t, In nm (names_of (tags data))
                        /\ In t (Models.tags (db w1))
                        /\ slug t = slugify nm /\ l = (key, term_id t))
  /\ In {| id := key; row := fields a |} (ArticleDetailView_get_queryset (db w1))
  /\ ~ In {| id := key; row := fields a |} (ArticleListView_get_queryset (db w1)).
Proof.
  intros Hcons Hurl Hnew Hrun. cbv zeta.
  rewrite save_to_db_unfold in Hrun.
  destruct (save_to_db_body data w) as [[a0|e] w0] eqn:Hbody; [|discriminate].
  injection Hrun as -> ->.
  assert (Hlt : Forall (fun x => (id x < seq_article (db w))%N) (articles (db w)))
    by apply Hcons.
  destruct (save_to_db_body_effect data w _ _ Hlt Hbody)
    as [(_ & _ & _ & _ & Hold)
       | (title_ & summary_ & url0 & cs & ts & Ht & Hs & Hu & _ & Hcs & Hts
          & Ha & _ & _ & _ & Hok)].
  { exfalso. destruct (Hold a eq_refl) as [url0 [Hu Hfind]].
    rewrite Hurl in Hu. injection Hu as <-.
    apply find_url_none in Hnew. rewrite Hnew in Hfind. discriminate. }
  rewrite Hurl in Hu. injection Hu as <-.
  destruct (Hok a eq_refl) as [-> [Hlc Hlt']]. cbn [pk fields _original_status].
  split; [reflexivity|]. split; [reflexivity|].
  split.
  { exists title_, summary_. split; [exact Ht|]. split; [exact Hs|].
    cbn. repeat split; discriminate. }
  split; [exact Ha|].
  split.
  { intros nm Hin. destruct (Forall2_In_left _ _ _ _ Hcs Hin) as [t [Hint [Hsl Htab]]].
    exists t. split; [exact Htab|]. split; [exact Hsl|].
    rewrite Hlc. apply add_links_In. right. apply links_to_In. exists t. auto. }
  split.
  { intros nm Hin. destruct (Forall2_In_left _ _ _ _ Hts Hin) as [t [Hint [Hsl Htab]]].
    exists t. split; [exact Htab|]. split; [exact Hsl|].
    rewrite Hlt'. apply add_links_In. right. apply links_to_In. exists t. auto. }
  split.
  { intros l Hin. rewrite Hlc in Hin. apply add_links_In in Hin.
    destruct Hin as [Hin | Hin]; [left; exact Hin|]. right.
    apply links_to_In in Hin. destruct Hin as [t [Hint ->]].
    destruct (Forall2_In_right _ _ _ t Hcs Hint) as [nm [Hnm [Hsl Htab]]].
    exists nm, t. auto. }
  split.
  { intros l Hin. rewrite Hlt' in Hin. apply add_links_In in Hin.
    destruct Hin as [Hin | Hin]; [left; exact Hin|]. right.
    apply links_to_In in Hin. destruct Hin as [t [Hint ->]].
    destruct (Forall2_In_right _ _ _ t Hts Hint) as [nm [Hnm [Hsl Htab]]].
    exists nm, t. auto. }
  split.
  { unfold ArticleDetailView_get_queryset. rewrite Ha. apply in_or_app.
    right. left. reflexivity. }
  unfold ArticleListView_get_queryset. intros Hin. apply filter_In in Hin.
  destruct Hin as [_ Hpub]. rewrite draft_is_not_published in Hpub. discriminate.
Qed.

(** X3. A commit never changes what the public views list, whatever its
    outcome: the published articles are the same before and after it,
    and so are the published articles of every category and of every
    tag; the query set a category or tag view built before the commit
    selects the same rows after it. *)
Theorem save_to_db_keeps_listings (data : Data) (w : World) :
  consistent (db w) ->
  let w' := snd (save_to_db data w) in
  ArticleListView_get_queryset (db w') = ArticleListView_get_queryset (db w)
  /\ (forall k t, published_with k t (db w') = published_with k t (db w))
  /\ (forall category_slug q w0,
        CategoryArticlesView_get_queryset category_slug w = (Ok q, w0) ->
        q (db w') = q (db w))
  /\ (forall tag_slug q w0,
        TagArticlesView_get_queryset tag_slug w = (Ok q, w0) ->
        q (db w') = q (db w)).
Proof.
  intros Hcons. cbv zeta. rewrite save_to_db_world.
  destruct (save_to_db_body data w) as [r w'] eqn:Hrun. cbn [snd].
  assert (Hlt : Forall (fun x => (id x < seq_article (db w))%N) (articles (db w)))
    by apply Hcons.
  assert (Hviews : ArticleListView_get_queryset (db w')
                   = ArticleListView_get_queryset (db w)
                   /\ (forall k t, published_with k t (db w')
                                   = published_with k t (db w))).
  { destruct (save_to_db_body_effect data w r w' Hlt Hrun)
      as [(Ha & Hlc & Hltg & _)
         | (title_ & summary_ & url_ & cs & ts & _ & _ & _ & _ & _ & _
            & Ha & _ & Hlc & Hltg & _)].
    - assert (Hlinks : forall k, links k (db w') = links k (db w))
        by (intros k; destruct k; assumption).
      split.
      + unfold ArticleListView_get_queryset. rewrite Ha. reflexivity.
      + intros k t. unfold published_with, linked. rewrite Ha, Hlinks.
        reflexivity.
    - split.
      + unfold ArticleListView_get_queryset. rewrite Ha, filter_app.
        cbn [filter]. rewrite draft_is_not_published. apply app_nil_r.
      + intros k t. unfold published_with. rewrite Ha, filter_app.
        cbn [filter]. rewrite draft_is_not_published. cbn [andb].
        rewrite app_nil_r. apply filter_ext_in. intros x Hx. f_equal.
        apply linked_links. intros l Hl.
        rewrite Forall_forall in Hlt. specialize (Hlt x Hx).
        assert (Hnew : forall terms, ~ In l (links_to (seq_article (db w)) terms)).
        { intros terms Hin. apply links_to_In in Hin.
          destruct Hin as [t0 [_ ->]]. cbn [fst] in Hl. lia. }
        destruct k; cbn [links].
        * destruct Hlc as [-> | ->]; [tauto|]. rewrite add_links_In.
          specialize (Hnew cs). tauto.
        * destruct Hltg as [-> | ->]; [tauto|]. rewrite add_links_In.
          specialize (Hnew ts). tauto. }
  destruct Hviews as [Hlist Hterm].
  split; [exact Hlist|]. split; [exact Hterm|].
  split.
  - intros category_slug q w0 Hq. unfold CategoryArticlesView_get_queryset in Hq.
    apply bind_ok_inv in Hq. destruct Hq as [t [w2 [_ Hq]]].
    injection Hq as <- _. apply Hterm.
  - intros tag_slug q w0 Hq. unfold TagArticlesView_get_queryset in Hq.
    apply bind_ok_inv in Hq. destruct Hq as [t [w2 [_ Hq]]].
    injection Hq as <- _. apply Hterm.
Qed.

End NewArticle.

(* ===================================================================== *)
(** ** The application's registry from URL to article *)
(* ===================================================================== *)

Section Pipeline.
Import Py Lib Models BaseParser ParserManager Props.
Context `{Runtime}.

Lemma cnbc_parse_run (url_ : str) (w : World) :
  CnbcParser.parse (CnbcParser.init url_) w
  = match web w (requests w) url_ with
    | Some page => (Ok (record_of Cnbc url_ page (date_part (clock w))), requested w)
    | None => (Ok empty, requested w)
    end.
Proof.
  unfold CnbcParser.parse, ensure_content, fetch_content, http_get, requested.
  cbn [soup CnbcParser.init BaseParser.init set_source_name url].
  run_monad. destruct (web w (requests w) url_); reflexivity.
Qed.

Lemma roots_parse_run (url_ : str) (w : World) :
  RootsOfLonelinessParser.parse (RootsOfLonelinessParser.init url_) w
  = match web w (requests w) url_ with
    | Some page =>
        (Ok (record_of RootsOfLoneliness url_ page (date_part (clock w))),
         requested w)
    | None => (Ok empty, requested w)
    end.
Proof.
  unfold RootsOfLonelinessParser.parse, ensure_content, fetch_content, http_get,
    requested.
  cbn [soup RootsOfLonelinessParser.init BaseParser.init set_source_name url].
  run_monad. destruct (web w (requests w) url_); reflexivity.
Qed.

Lemma record_of_url (s : strategy) (url_ : str) (page : Bs4.PageElement)
      (today : date) :
  original_url (record_of s url_ page today) = Some url_
  /\ truthy_data (record_of s url_ page today) = true.
Proof. destruct s; split; reflexivity. Qed.

(** [parse_url] with the registry of the application: the dispatcher
    picks a strategy, the page is requested once, the record built from
    it is committed. *)
Lemma parse_url_run (url_ : str) (w : World) :
  parse_url init url_ w
  = match strategy_for url_ with
    | None => (Ok None, w)
    | Some s =>
        match web w (requests w) url_ with
        | None => (Ok None, requested w)
        | Some page =>
            save_to_db (record_of s url_ page (date_part (clock w))) (requested w)
        end
    end.
Proof.
  unfold parse_url, init, strategy_for. cbn [get_parser_for_url].
  destruct (contains (u "rootsofloneliness.com") url_).
  - cbn [parse new RootsOfLonelinessParser.class].
    unfold bind. rewrite roots_parse_run.
    destruct (web w (requests w) url_) as [page|]; [|reflexivity].
    rewrite (proj2 (record_of_url RootsOfLoneliness url_ page _)). reflexivity.
  - destruct (contains (u "cnbc.com") url_); [|reflexivity].
    cbn [parse new CnbcParser.class].
    unfold bind. rewrite cnbc_parse_run.
    destruct (web w (requests w) url_) as [page|]; [|reflexivity].
    rewrite (proj2 (record_of_url Cnbc url_ page _)). reflexivity.
Qed.

End Pipeline.

Section PipelineProperties.
Import Py Lib Models BaseParser ParserManager Props.
Context `{Runtime}.

Lemma strategy_for_registry (url_ : str) :
  strategy_for url_ = None <-> get_parser_for_url init url_ = None.
Proof.
  unfold strategy_for, init. cbn [get_parser_for_url].
  destruct (contains (u "rootsofloneliness.com") url_); [split; discriminate|].
  destruct (contains (u "cnbc.com") url_); split; try discriminate; reflexivity.
Qed.

(** X4. [parse_url] with the registry of the application when no page
    is to be had. A URL of no registered domain gives [None] without a
    request and without any change to the world. A URL of a registered
    domain whose request fails gives [None] after exactly one request,
    and the store is not touched: no statement is sent. *)
Theorem parse_url_without_page (url_ : str) (w : World) :
  (get_parser_for_url init url_ = None ->
   contains (u "rootsofloneliness.com") url_ = false
   /\ contains (u "cnbc.com") url_ = false
   /\ parse_url init url_ w = (Ok None, w))
  /\ (get_parser_for_url init url_ <> None ->
      web w (requests w) url_ = None ->
      parse_url init url_ w = (Ok None, requested w)
      /\ db (requested w) = db w
      /\ faults (requested w) = faults w
      /\ requests (requested w) = S (requests w)).
Proof.
  split.
  - intros Hnone. split; [|split].
    + unfold init in Hnone. cbn [get_parser_for_url] in Hnone.
      destruct (contains (u "rootsofloneliness.com") url_);
        [discriminate | reflexivity].
    + unfold init in Hnone. cbn [get_parser_for_url] in Hnone.
      destruct (contains (u "rootsofloneliness.com") url_); [discriminate|].
      destruct (contains (u "cnbc.com") url_); [discriminate | reflexivity].
    + rewrite parse_url_run. apply strategy_for_registry in Hnone.
      rewrite Hnone. reflexivity.
  - intros Hsome Hweb. split; [|repeat split].
    rewrite parse_url_run, Hweb.
    destruct (strategy_for url_) eqn:Hs; [reflexivity|].
    apply strategy_for_registry in Hs. contradiction.
Qed.

Lemma parse_url_env (url_ : str) (w : World) :
  let w' := snd (parse_url init url_ w) in
  clock w' = clock w /\ web w' = web w
  /\ requests w'
     = requests w + (if present (get_parser_for_url init url_) then 1 else 0).
Proof.
  cbv zeta. rewrite parse_url_run.
  destruct (strategy_for url_) as [s|] eqn:Hs.
  - assert (Hp : present (get_parser_for_url init url_) = true).
    { destruct (get_parser_for_url init url_) eqn:Hg; [reflexivity|].
      apply strategy_for_registry in Hg. congruence. }
    rewrite Hp.
    destruct (web w (requests w) url_) as [page|].
    + destruct (quiet_save_to_db (record_of s url_ page (date_part (clock w)))
                  (requested w)) as [Hc [Hw Hr]].
      rewrite Hc, Hw, Hr. cbn [requested set_requests clock web requests].
      repeat split. lia.
    + cbn [snd requested set_requests clock web requests]. repeat split. lia.
  - apply strategy_for_registry in Hs. rewrite Hs. cbn [snd present].
    repeat split. lia.
Qed.

Lemma parse_loop_env (urls : list str) (acc : results) (w : World) :
  let w' := snd (parse_loop init urls acc w) in
  clock w' = clock w /\ web w' = web w
  /\ requests w'
     = requests w
       + List.length (filter (fun url_ => present (get_parser_for_url init url_)) urls).
Proof.
  cbv zeta. revert acc w. induction urls as [|url_ rest IH]; intros acc w.
  - cbn. repeat split. lia.
  - rewrite parse_loop_cons.
    destruct (IH (setitem acc url_ (recorded (fst (parse_url init url_ w))))
                 (snd (parse_url init url_ w))) as [Hc [Hw Hr]].
    destruct (parse_url_env url_ w) as [Hc1 [Hw1 Hr1]].
    rewrite Hc, Hw, Hr, Hc1, Hw1, Hr1. cbn [filter].
    destruct (present (get_parser_for_url init url_)); cbn [List.length];
      repeat split; lia.
Qed.

(** X5. A batch requests one page for every URL of the list that the
    dispatcher has a strategy for, repeated URLs included, and none for
    the others; it changes neither the clock nor the web. *)
Theorem parse_multiple_urls_requests (urls : list str) (w : World) :
  let w' := snd (parse_multiple_urls init urls w) in
  requests w'
  = requests w
    + List.length (filter (fun url_ => present (get_parser_for_url init url_)) urls)
  /\ clock w' = clock w
  /\ web w' = web w.
Proof.
  cbv zeta. unfold parse_multiple_urls.
  destruct (parse_loop_env urls [] w) as [Hc [Hw Hr]]. auto.
Qed.

(** X6. Parsing a URL again never duplicates its article. Once
    [parse_url] has returned an article for a URL, a later [parse_url]
    of the same URL on that store, whatever the page then looks like and
    whatever fails, leaves the article rows and the links as they are
    and returns that article or [None]; when the same page is served
    at the same time and nothing fails, it returns that article and
    leaves the store as it is. *)
Theorem parse_url_again (url_ : str) (w w1 : World) (a : Article) :
  consistent (db w) ->
  parse_url init url_ w = (Ok (Some a), w1) ->
  forall w2, db w2 = db w1 ->
    let out := parse_url init url_ w2 in
    articles (db (snd out)) = articles (db w1)
    /\ article_categories (db (snd out)) = article_categories (db w1)
    /\ article_tags (db (snd out)) = article_tags (db w1)
    /\ (fst out = Ok (Some a) \/ fst out = Ok None)
    /\ (faults w2 = [] -> clock w2 = clock w ->
        web w2 (requests w2) url_ = web w (requests w) url_ ->
        fst out = Ok (Some a) /\ db (snd out) = db w1).
Proof.
  intros Hcons Hrun w2 Hdb2. cbv zeta.
  rewrite parse_url_run in Hrun. rewrite parse_url_run.
  destruct (strategy_for url_) as [s|]; [|discriminate].
  destruct (web w (requests w) url_) as [page|] eqn:Hpage; [|discriminate].
  set (data1 := record_of s url_ page (date_part (clock w))) in *.
  rewrite save_to_db_unfold in Hrun.
  destruct (save_to_db_body data1 (requested w)) as [[a0|e] w0] eqn:Hbody;
    [|discriminate].
  injection Hrun as -> ->.
  assert (Hcons' : consistent (db (requested w))) by exact Hcons.
  destruct (save_to_db_body_ok data1 (requested w) a w1 Hcons' Hbody)
    as [url0 [Hu [Hfind [Hnc [Hnt [Hrc Hrt]]]]]].
  assert (Hu1 : original_url data1 = Some url_)
    by apply (proj1 (record_of_url s url_ page _)).
  rewrite Hu1 in Hu. injection Hu as <-.
  destruct (web w2 (requests w2) url_) as [page2|] eqn:Hpage2.
  2: { cbn [fst snd]. change (db (requested w2)) with (db w2). rewrite Hdb2.
       split; [reflexivity|]. split; [reflexivity|]. split; [reflexivity|].
       split; [right; reflexivity|]. intros _ _ Hsame. discriminate. }
  set (data2 := record_of s url_ page2 (date_part (clock w2))).
  assert (Hu2 : original_url data2 = Some url_)
    by apply (proj1 (record_of_url s url_ page2 _)).
  assert (Hfind2 : option_map from_db
                     (find (fun x => same_url (Models.original_url (row x))
                                              (Some url_))
                           (articles (db (requested w2)))) = Some a).
  { change (db (requested w2)) with (db w2). rewrite Hdb2. exact Hfind. }
  pose proof (save_to_db_body_existing data2 (requested w2) a url_ Hu2 Hfind2)
    as Hex. cbv zeta in Hex. destruct Hex as [Hadd [Hres Hgood]].
  change (db (requested w2)) with (db w2) in Hadd. rewrite Hdb2 in Hadd.
  rewrite save_to_db_unfold.
  destruct (save_to_db_body data2 (requested w2)) as [rb wb] eqn:Hbody2.
  cbn [fst snd] in Hadd, Hres.
  assert (Hsnd : snd (match rb with
                      | Ok a1 => (Ok (Some a1), wb)
                      | Exc _ => (Ok None, wb)
                      end) = wb) by (destruct rb; reflexivity).
  rewrite Hsnd. destruct Hadd as [Ha [Hlc [Hlt _]]].
  split; [exact Ha|]. split; [exact Hlc|]. split; [exact Hlt|].
  split.
  { destruct Hres as [-> | [e ->]]; [left | right]; reflexivity. }
  intros Hf Hclock Hsame.
  assert (Hd : data2 = data1).
  { unfold data2, data1. rewrite Hclock. injection Hsame as ->. reflexivity. }
  assert (Hf2 : faults (requested w2) = []) by exact Hf.
  assert (Hnc2 : NoDup (map slug (table Category (db (requested w2))))).
  { change (db (requested w2)) with (db w2). rewrite Hdb2. exact Hnc. }
  assert (Hnt2 : NoDup (map slug (table Tag (db (requested w2))))).
  { change (db (requested w2)) with (db w2). rewrite Hdb2. exact Hnt. }
  assert (Hrc2 : all_resolved (categories data2)
                              (table Category (db (requested w2)))).
  { change (db (requested w2)) with (db w2). rewrite Hdb2, Hd. exact Hrc. }
  assert (Hrt2 : all_resolved (tags data2) (table Tag (db (requested w2)))).
  { change (db (requested w2)) with (db w2). rewrite Hdb2, Hd. exact Hrt. }
  destruct (resolve_terms_again Category (categories data2) (requested w2)
              Hf2 Hnc2 Hrc2) as [cs Hcs].
  destruct (resolve_terms_again Tag (tags data2) (requested w2) Hf2 Hnt2 Hrt2)
    as [ts Hts].
  destruct (Hgood cs ts _ _ Hcs Hts) as [_ Hq]. specialize (Hq Hf2).
  injection Hq as -> ->.
  split; [reflexivity|]. change (db (requested w2)) with (db w2). exact Hdb2.
Qed.

End PipelineProperties.

(* ===================================================================== *)
(** ** When a commit goes through *)
(* ===================================================================== *)

Section Success.
Import Py Lib Models BaseParser Props.
Context `{Runtime}.

(** A name can be resolved in a table when its slug has a term there
    or no term there has the name. *)
Lemma resolvable_after_insert (nm nm' : str) (rows : list Term) (key : N) :
  ((exists t, In t rows /\ slug t = slugify nm')
   \/ (forall t, In t rows -> name t <> nm')) ->
  (exists t, In t (rows ++ [{| term_id := key; name := nm; slug := slugify nm |}])
             /\ slug t = slugify nm')
  \/ (forall t, In t (rows ++ [{| term_id := key; name := nm; slug := slugify nm |}])
                -> name t <> nm').
Proof.
  intros [[t [Hin Hs]] | Hfree].
  - left. exists t. split; [apply in_or_app; left; exact Hin | exact Hs].
  - destruct (list_eq_dec N.eq_dec nm nm') as [<- | Hne].
    + left. eexists. split; [apply in_or_app; right; left; reflexivity|].
      reflexivity.
    + right. intros t Hin. apply in_app_or in Hin. destruct Hin as [Hin | [<- | []]].
      * apply Hfree. exact Hin.
      * exact Hne.
Qed.

Lemma other_table_set_table (k k' : kind) (d : DB) (t : list Term) (n : N) :
  k' <> k -> table k' (set_table k d t n) = table k' d.
Proof. destruct k, k'; intros Hne; try reflexivity; contradiction. Qed.

Lemma for_each_terms_total (k : kind) (l : list str) (w : World) :
  faults w = [] ->
  NoDup (map slug (table k (db w))) ->
  (forall nm, In nm l ->
     (exists t, In t (table k (db w)) /\ slug t = slugify nm)
     \/ (forall t, In t (table k (db w)) -> name t <> nm)) ->
  exists ts w',
    for_each (fun term_name =>
                bind (get_or_create k (slugify term_name) term_name)
                     (fun r => ret (fst r))) l w
    = (Ok ts, w')
    /\ faults w' = []
    /\ (forall k', k' <> k -> table k' (db w') = table k' (db w))
    /\ (forall t, In t (table k (db w')) ->
          In t (table k (db w))
          \/ exists nm, In nm l /\ slug t = slugify nm).
Proof.
  revert w. induction l as [|nm rest IH]; intros w Hf Hnd Hall.
  - exists [], w. repeat split; auto.
  - cbn [for_each].
    destruct (slug_present_or_absent (slugify nm) (table k (db w)))
      as [[t [Hin Hs]] | Habsent].
    + pose proof (get_or_create_existing k _ nm w t Hf Hnd Hin Hs) as Hg.
      destruct (IH w Hf Hnd) as [ts [w' [Hrest [Hf' [Hother Hprov]]]]].
      { intros nm' Hin'. apply Hall. right. exact Hin'. }
      exists (t :: ts), w'.
      assert (Hm : bind (get_or_create k (slugify nm) nm) (fun r0 => ret (fst r0)) w
                   = (Ok t, w)).
      { rewrite (bind_ok _ _ _ _ _ Hg). reflexivity. }
      rewrite (bind_ok _ _ _ _ _ Hm), (bind_ok _ _ _ _ _ Hrest).
      split; [reflexivity|]. split; [exact Hf'|]. split; [exact Hother|].
      intros t0 Ht0. destruct (Hprov t0 Ht0) as [Hold | [nm' [Hin' Hs']]];
        [left; exact Hold | right; exists nm'; split; [right; exact Hin' | exact Hs']].
    + assert (Hfree : forall t, In t (table k (db w)) -> name t <> nm).
      { destruct (Hall nm (or_introl eq_refl)) as [[t [Hin Hs]] | Hfree];
          [|exact Hfree]. exfalso. apply (Habsent t Hin Hs). }
      pose proof (get_or_create_new k nm w Hf Habsent Hfree) as Hg.
      cbv zeta in Hg.
      set (t1 := {| term_id := sequence k (db w); name := nm; slug := slugify nm |})
        in *.
      set (w1 := set_db w (set_table k (db w) (table k (db w) ++ [t1])
                                     (sequence k (db w) + 1))) in *.
      assert (Htab : table k (db w1) = table k (db w) ++ [t1])
        by apply table_set_table.
      destruct (IH w1) as [ts [w' [Hrest [Hf' [Hother Hprov]]]]].
      { exact Hf. }
      { rewrite Htab, map_app. cbn [map slug t1]. apply NoDup_snoc; [exact Hnd|].
        intros Hin. apply in_map_iff in Hin. destruct Hin as [t [Hs Hin]].
        apply (Habsent t Hin Hs). }
      { intros nm' Hin'. rewrite Htab.
        apply resolvable_after_insert. apply Hall. right. exact Hin'. }
      exists (t1 :: ts), w'.
      assert (Hm : bind (get_or_create k (slugify nm) nm) (fun r0 => ret (fst r0)) w
                   = (Ok t1, w1)).
      { rewrite (bind_ok _ _ _ _ _ Hg). reflexivity. }
      rewrite (bind_ok _ _ _ _ _ Hm), (bind_ok _ _ _ _ _ Hrest).
      split; [reflexivity|]. split; [exact Hf'|]. split.
      * intros k' Hne. rewrite (Hother k' Hne).
        apply other_table_set_table. exact Hne.
      * intros t0 Ht0. destruct (Hprov t0 Ht0) as [Hold | [nm' [Hin' Hs']]].
        -- rewrite Htab in Hold. apply in_app_or in Hold.
           destruct Hold as [Hold | [<- | []]]; [left; exact Hold|].
           right. exists nm. split; [left; reflexivity | reflexivity].
        -- right. exists nm'. split; [right; exact Hin' | exact Hs'].
Qed.

Lemma resolve_terms_total (k : kind) (names : option (list str)) (w : World) :
  faults w = [] ->
  NoDup (map slug (table k (db w))) ->
  (forall nm, In nm (names_of names) ->
     (exists t, In t (table k (db w)) /\ slug t = slugify nm)
     \/ (forall t, In t (table k (db w)) -> name t <> nm)) ->
  exists ts w',
    resolve_terms k names w = (Ok ts, w')
    /\ faults w' = []
    /\ (forall k', k' <> k -> table k' (db w') = table k' (db w)).
Proof.
  intros Hf Hnd Hall. unfold resolve_terms.
  destruct names as [[|n0 l]|].
  - exists [], w. repeat split; auto.
  - destruct (for_each_terms_total k (n0 :: l) w Hf Hnd Hall)
      as [ts [w' [Hrun [Hf' [Hother _]]]]].
    exists ts, w'. auto.
  - exists [], w. repeat split; auto.
Qed.

Lemma for_each_stops {A B} (f : A -> M World B) (pre : list A) (x : A)
      (post : list A) (w w1 w2 : World) (ys : list B) (e : exn) :
  for_each f pre w = (Ok ys, w1) ->
  f x w1 = (Exc e, w2) ->
  for_each f (pre ++ x :: post) w = (Exc e, w2).
Proof.
  revert w ys. induction pre as [|p pre IH]; intros w ys Hpre Hx.
  - injection Hpre as _ <-. cbn [app for_each]. rewrite (bind_exc _ _ _ _ _ Hx).
    reflexivity.
  - cbn [app for_each] in *. apply bind_ok_inv in Hpre.
    destruct Hpre as [y [wa [Hp Hpre]]]. apply bind_ok_inv in Hpre.
    destruct Hpre as [ys' [wb [Hrest Hret]]]. injection Hret as _ <-.
    rewrite (bind_ok _ _ _ _ _ Hp), (bind_exc _ _ _ _ _ (IH _ _ Hrest Hx)).
    reflexivity.
Qed.

(** The body of [save_to_db] runs to its end under these
    conditions. *)
Lemma commit_body_goes_through (data : Data) (w : World)
      (title_ summary_ url_ : str) :
  consistent (db w) ->
  faults w = [] ->
  title data = Some title_ ->
  summary data = Some summary_ ->
  original_url data = Some url_ ->
  (forall nm, In nm (names_of (categories data)) ->
     (exists t, In t (Models.categories (db w)) /\ slug t = slugify nm)
     \/ (forall t, In t (Models.categories (db w)) -> name t <> nm)) ->
  (forall nm, In nm (names_of (tags data)) ->
     (exists t, In t (Models.tags (db w)) /\ slug t = slugify nm)
     \/ (forall t, In t (Models.tags (db w)) -> name t <> nm)) ->
  exists a w',
    save_to_db_body data w = (Ok a, w')
    /\ faults w' = []
    /\ Models.original_url (fields a) = Some url_.
Proof.
  intros Hcons Hf Htitle Hsummary Hurl Hcats Htags.
  unfold save_to_db_body.
  destruct (resolve_terms_total Category (categories data) w Hf
              (consistent_table Category _ Hcons) Hcats)
    as [cs [wa [Hrc [Hfa Hoa]]]].
  pose proof (resolve_terms_inv _ _ _ _ _ Hrc) as [Hadv1 _].
  assert (Hcons_a : consistent (db wa)) by (apply Hadv1; exact Hcons).
  assert (Htags_a : forall nm, In nm (names_of (tags data)) ->
            (exists t, In t (table Tag (db wa)) /\ slug t = slugify nm)
            \/ (forall t, In t (table Tag (db wa)) -> name t <> nm)).
  { rewrite (Hoa Tag) by discriminate. exact Htags. }
  destruct (resolve_terms_total Tag (tags data) wa Hfa
              (consistent_table Tag _ Hcons_a) Htags_a)
    as [ts [wb [Hrt [Hfb _]]]].
  pose proof (resolve_terms_inv _ _ _ _ _ Hrt) as [Hadv2 _].
  pose proof (advances_trans _ _ _ Hadv1 Hadv2) as [Hadd [Hcons_b _]].
  specialize (Hcons_b Hcons).
  rewrite (bind_ok _ _ _ _ _ Hrc), (bind_ok _ _ _ _ _ Hrt), Hurl.
  unfold lift, item. rewrite (bind_ok _ _ _ url_ wb) by reflexivity.
  destruct (filter_first url_ wb) as [rf wc] eqn:Hfind.
  pose proof (quiet_filter_first url_ wb) as Henv. rewrite Hfind in Henv.
  cbn [snd] in Henv.
  pose proof (filter_first_inv _ _ _ _ Hfind) as [_ [Hsame [_ Hres]]].
  specialize (Hsame Hfb). subst wc.
  destruct Hres as [[-> _] | [_ Habs]]; [|rewrite Hfb in Habs; discriminate].
  rewrite (bind_ok _ _ _ _ _ Hfind).
  destruct (find (fun x => same_url (Models.original_url (row x)) (Some url_))
                 (articles (db wb))) as [r0|] eqn:Hfound; cbn [option_map].
  - exists (from_db r0), wb. split; [reflexivity|]. split; [exact Hfb|].
    apply find_some in Hfound. destruct Hfound as [_ Hs].
    cbn [from_db Article_init fields].
    destruct (Models.original_url (row r0)) as [u0|]; [|discriminate].
    cbn [same_url] in Hs. apply str_eqb_eq in Hs. rewrite Hs. reflexivity.
  - destruct (create_article data wb) as [rc wd] eqn:Hcreate.
    pose proof Hcreate as Hcreate0.
    rewrite create_article_run, Htitle, Hsummary, Hurl in Hcreate.
    cbv zeta in Hcreate. rewrite (statement_quiet wb Hfb) in Hcreate.
    rewrite url_taken_find, Hfound in Hcreate. injection Hcreate as <- <-.
    rewrite (bind_ok _ _ _ _ _ Hcreate0).
    set (key := seq_article (db wb)) in *.
    set (f := draft_of data title_ summary_ url_ (clock wb)) in *.
    set (a := {| pk := Some key; fields := f;
                 _original_status := Some STATUS_DRAFT |}) in *.
    set (wd := set_db wb (set_articles (db wb)
                            (articles (db wb) ++ [{| id := key; row := f |}])
                            (key + 1)%N)) in *.
    assert (Hpk : pk a = Some key) by reflexivity.
    unfold attach.
    destruct (match cs with
              | [] => ret tt
              | _ :: _ => add Category a cs
              end wd) as [r1 w1] eqn:Hl1.
    destruct (link_step Category a cs wd key _ _ Hpk Hl1)
      as (_ & _ & _ & Ha1 & _ & _ & _ & _ & Hq1).
    destruct (Hq1 Hfb) as [-> Hf1]. rewrite (bind_ok _ _ _ _ _ Hl1).
    destruct (match ts with
              | [] => ret tt
              | _ :: _ => add Tag a ts
              end w1) as [r2 w2] eqn:Hl2.
    destruct (link_step Tag a ts w1 key _ _ Hpk Hl2)
      as (_ & _ & _ & Ha2 & _ & _ & _ & _ & Hq2).
    destruct (Hq2 Hf1) as [-> Hf2]. rewrite (bind_ok _ _ _ _ _ Hl2).
    unfold call.
    destruct (Article_save false (a, w2)) as [rs [a2 w3]] eqn:Hsave.
    assert (Hrows2 : articles (db w2)
                     = articles (db wb) ++ [{| id := key; row := f |}])
      by (rewrite Ha2, Ha1; reflexivity).
    assert (Hfree : url_taken (articles (db wb)) None
                      (Models.original_url (fields a)) = false).
    { cbn [fields a f draft_of Models.original_url].
      rewrite url_taken_find, Hfound. reflexivity. }
    assert (Hids : Forall (fun x => (id x < key)%N) (articles (db wb)))
      by apply Hcons_b.
    destruct (save_of_draft a w2 key (articles (db wb)) {| id := key; row := f |}
                rs a2 w3 Hpk eq_refl Hrows2 eq_refl Hids Hfree Hsave)
      as (_ & _ & _ & _ & _ & _ & Hok & Hq3).
    destruct (Hq3 Hf2) as [-> Hf3]. destruct (Hok eq_refl) as [-> _].
    eexists. exists w3. split; [reflexivity|]. split; [exact Hf3|].
    reflexivity.
Qed.

(** X7. When a commit goes through. On a consistent store, with a
    backend that fails on no statement, a record that has a title, a
    summary and a URL, and whose category and tag names each either have
    a term under their slug or are not the name of any term, is
    committed: [save_to_db] returns an article with the URL of the
    record, and the article found under that URL afterwards is that
    one. *)
Theorem save_to_db_succeeds (data : Data) (w : World) (title_ summary_ url_ : str) :
  consistent (db w) ->
  faults w = [] ->
  title data = Some title_ ->
  summary data = Some summary_ ->
  original_url data = Some url_ ->
  (forall nm, In nm (names_of (categories data)) ->
     (exists t, In t (Models.categories (db w)) /\ slug t = slugify nm)
     \/ (forall t, In t (Models.categories (db w)) -> name t <> nm)) ->
  (forall nm, In nm (names_of (tags data)) ->
     (exists t, In t (Models.tags (db w)) /\ slug t = slugify nm)
     \/ (forall t, In t (Models.tags (db w)) -> name t <> nm)) ->
  exists a w',
    save_to_db data w = (Ok (Some a), w')
    /\ faults w' = []
    /\ Models.original_url (fields a) = Some url_
    /\ option_map from_db
         (find (fun x => same_url (Models.original_url (row x)) (Some url_))
               (articles (db w'))) = Some a.
Proof.
  intros Hcons Hf Htitle Hsummary Hurl Hcats Htags.
  destruct (commit_body_goes_through data w title_ summary_ url_
              Hcons Hf Htitle Hsummary Hurl Hcats Htags)
    as [a [w' [Hrun [Hf' Hu']]]].
  exists a, w'. rewrite save_to_db_unfold, Hrun.
  split; [reflexivity|]. split; [exact Hf'|]. split; [exact Hu'|].
  destruct (save_to_db_body_ok data w a w' Hcons Hrun) as [url0 [Hu0 [Hfind _]]].
  rewrite Hurl in Hu0. injection Hu0 as <-. exact Hfind.
Qed.

(** X8. From URL to article. On a consistent store, with a backend
    that fails on no statement, a URL of a registered domain whose page
    can be fetched, and for which the category and tag names of the
    record built from the page each either have a term under their slug
    or are not the name of any term, yields an article: [parse_url]
    returns an article with that URL after exactly one request. *)
Theorem parse_url_commits (url_ : str) (w : World) (s : strategy)
        (page : Bs4.PageElement) :
  consistent (db w) ->
  faults w = [] ->
  strategy_for url_ = Some s ->
  web w (requests w) url_ = Some page ->
  (forall nm,
     In nm (names_of (categories (record_of s url_ page (date_part (clock w))))) ->
     (exists t, In t (Models.categories (db w)) /\ slug t = slugify nm)
     \/ (forall t, In t (Models.categories (db w)) -> name t <> nm)) ->
  (forall nm,
     In nm (names_of (tags (record_of s url_ page (date_part (clock w))))) ->
     (exists t, In t (Models.tags (db w)) /\ slug t = slugify nm)
     \/ (forall t, In t (Models.tags (db w)) -> name t <> nm)) ->
  exists a w',
    ParserManager.parse_url ParserManager.init url_ w = (Ok (Some a), w')
    /\ ParserManager.get_parser_for_url ParserManager.init url_ <> None
    /\ Models.original_url (fields a) = Some url_
    /\ requests w' = S (requests w)
    /\ faults w' = [].
Proof.
  intros Hcons Hf Hs Hpage Hcats Htags.
  rewrite parse_url_run, Hs, Hpage.
  set (data := record_of s url_ page (date_part (clock w))) in *.
  assert (Hkeys : exists title_ summary_,
             title data = Some title_ /\ summary data = Some summary_
             /\ original_url data = Some url_).
  { unfold data. destruct s; eexists; eexists; repeat split; reflexivity. }
  destruct Hkeys as [title_ [summary_ [Ht [Hsum Hu]]]].
  destruct (commit_body_goes_through data (requested w) title_ summary_ url_
              Hcons Hf Ht Hsum Hu Hcats Htags) as [a [w' [Hbody [Hf' Hu']]]].
  assert (Hrun : save_to_db data (requested w) = (Ok (Some a), w')).
  { rewrite save_to_db_unfold, Hbody. reflexivity. }
  exists a, w'. split; [exact Hrun|]. split.
  { intros Hnone. apply strategy_for_registry in Hnone. congruence. }
  split; [exact Hu'|]. split; [|exact Hf'].
  pose proof (quiet_save_to_db data (requested w)) as [_ [_ Hr]].
  rewrite Hrun in Hr. exact Hr.
Qed.

End Success.

(* ===================================================================== *)
(** ** The key of the taxonomy *)
(* ===================================================================== *)

Section SlugKeyed.
Import Py Lib Models BaseParser Props.
Context `{Runtime}.

Lemma slug_determines_term (l : list Term) (t t2 : Term) :
  NoDup (map slug l) -> In t l -> In t2 l -> slug t = slug t2 -> t = t2.
Proof.
  intros Hnd Hin Hin2 Hsl.
  pose proof (filter_slug_unique (slug t2) t l Hnd Hin Hsl) as E.
  rewrite (filter_slug_unique (slug t2) t2 l Hnd Hin2 eq_refl) in E.
  injection E as <-. reflexivity.
Qed.

Lemma Forall2_combine {A B} (P : A -> B -> Prop) (xs : list A) (ys : list B)
      (x : A) (y : B) :
  Forall2 P xs ys -> In (x, y) (combine xs ys) -> P x y.
Proof.
  intros Hall. induction Hall as [|x0 y0 xs ys Hp _ IH]; [intros []|].
  cbn [combine]. intros [E | Hin]; [injection E as <- <-; exact Hp | apply IH; exact Hin].
Qed.

(** C9, as amended. The committer resolves a name by the slug of the
    name alone. On a store with unique slugs:
    - with no backend failure, a term that has the slug of the name is
      returned as it is and nothing is written, whatever its stored
      name;
    - with no backend failure, when no term has the slug and no term
      has the name, a term is created with the name and the slug;
    - with no backend failure, when no term has the slug and a term
      has the name, nothing is created: [get_or_create] raises
      [IntegrityError], and so does the resolution of a list that
      starts with the name;
    - whenever the resolution of a list of names returns, the stored
      terms are still there, every name has got a stored term with its
      slug, and two names of the list with the same slug, wherever they
      stand, have got one and the same term;
    - with no backend failure, the resolution of a list returns when
      each of its names has a term under its slug or is the name of no
      term. *)
Theorem get_or_create_keyed_on_slug (k : kind) (w : World) :
  consistent (db w) ->
  (forall nm,
     faults w = [] ->
     (forall t, In t (table k (db w)) -> slug t = slugify nm ->
        get_or_create k (slugify nm) nm w = (Ok (t, false), w))
     /\ ((forall t, In t (table k (db w)) -> slug t <> slugify nm) ->
         (forall t, In t (table k (db w)) -> name t <> nm) ->
         exists w',
           get_or_create k (slugify nm) nm w
           = (Ok ({| term_id := sequence k (db w); name := nm;
                     slug := slugify nm |}, true), w')
           /\ table k (db w')
              = table k (db w)
                ++ [{| term_id := sequence k (db w); name := nm;
                       slug := slugify nm |}])
     /\ ((forall t, In t (table k (db w)) -> slug t <> slugify nm) ->
         (exists t, In t (table k (db w)) /\ name t = nm) ->
         forall rest,
         exists w',
           get_or_create k (slugify nm) nm w = (Exc IntegrityError, w')
           /\ resolve_terms k (Some (nm :: rest)) w = (Exc IntegrityError, w')
           /\ table k (db w') = table k (db w)))
  /\ (forall names ts w',
        resolve_terms k (Some names) w = (Ok ts, w') ->
        (exists new, table k (db w') = table k (db w) ++ new)
        /\ Forall2 (fun nm t => In t (table k (db w')) /\ slug t = slugify nm)
                   names ts
        /\ (forall nm nm2 t t2,
              In (nm, t) (combine names ts) ->
              In (nm2, t2) (combine names ts) ->
              slugify nm = slugify nm2 ->
              t = t2))
  /\ (forall names,
        faults w = [] ->
        (forall nm, In nm names ->
           (exists t, In t (table k (db w)) /\ slug t = slugify nm)
           \/ (forall t, In t (table k (db w)) -> name t <> nm)) ->
        exists ts w', resolve_terms k (Some names) w = (Ok ts, w')).
Proof.
  intros Hcons.
  pose proof (consistent_table k _ Hcons) as Hnd.
  split; [|split].
  - intros nm Hf. split; [|split].
    + intros t Hin Hsl. apply get_or_create_existing; assumption.
    + intros Hsl Hnm. eexists. split.
      * apply get_or_create_new; assumption.
      * cbn [db set_db]. apply table_set_table.
    + intros Hsl [t [Hin Hnm]] rest.
      set (w1 := set_db w (set_table k (db w) (table k (db w))
                                     (sequence k (db w) + 1))).
      assert (Hf1 : faults w1 = []) by exact Hf.
      assert (Htab : table k (db w1) = table k (db w))
        by (unfold w1; cbn [db set_db]; apply table_set_table).
      assert (Hg : get_or_create k (slugify nm) nm w = (Exc IntegrityError, w1)).
      { unfold get_or_create, try_catch.
        rewrite (bind_exc _ _ _ _ _ (get_missing k _ w Hf Hsl)).
        rewrite create_with_slug_of_name.
        rewrite (bind_exc _ _ _ _ _ (insert_term_name_taken k nm _ w t Hf Hin Hnm)).
        fold w1.
        assert (Hsl1 : forall t0, In t0 (table k (db w1)) -> slug t0 <> slugify nm)
          by (rewrite Htab; exact Hsl).
        rewrite (bind_exc _ _ _ _ _ (get_missing k _ w1 Hf1 Hsl1)).
        reflexivity. }
      exists w1. split; [exact Hg|]. split; [|exact Htab].
      unfold resolve_terms. cbn [for_each].
      rewrite (bind_exc _ _ _ _ _ (bind_exc _ _ _ _ _ Hg)). reflexivity.
  - intros names ts w' Hrun.
    destruct (resolve_terms_inv _ _ _ _ _ Hrun) as [[Hadd [Hkeep _]] _].
    pose proof (resolve_terms_pairs _ _ _ _ _ Hrun) as Hpairs.
    cbn [names_of] in Hpairs.
    assert (Hall : Forall2 (fun nm t => In t (table k (db w')) /\ slug t = slugify nm)
                           names ts).
    { eapply Forall2_weaken; [|exact Hpairs]. cbv beta. intros nm t [Hs Hi]. auto. }
    split; [exact (only_terms_added_table k _ _ Hadd)|].
    split; [exact Hall|].
    intros nm nm2 t t2 Hin Hin2 Hsame.
    destruct (Forall2_combine _ _ _ _ _ Hall Hin) as [Ht Hs].
    destruct (Forall2_combine _ _ _ _ _ Hall Hin2) as [Ht2 Hs2].
    apply (slug_determines_term (table k (db w'))).
    + apply consistent_table. apply Hkeep. exact Hcons.
    + exact Ht.
    + exact Ht2.
    + congruence.
  - intros names Hf Hres.
    destruct (resolve_terms_total k (Some names) w Hf Hnd Hres)
      as [ts [w' [Hrun _]]].
    exists ts, w'. exact Hrun.
Qed.

End SlugKeyed.

Section SlugKeyExamples.
Import Py Lib Models BaseParser Props.

(** The theorem at work: in the store where an editor named the term
    with slug [gen-z] "Generation Z", committing the tags "Gen Z" and
    "gen z" resolves both to that term and leaves its name alone. *)
Lemma get_or_create_keyed_on_slug_witness :
  consistent Sample.edited_db
  /\ exists t w',
       @resolve_terms Sample.runtime Tag (Some [u "Gen Z"; u "gen z"])
                      (Sample.world Sample.edited_db [] Sample.offline)
       = (Ok [t; t], w')
       /\ In t (table Tag (db w'))
       /\ slug t = u "gen-z"
       /\ In {| term_id := 1; name := u "Generation Z"; slug := u "gen-z" |}
             (table Tag (db w')).
Proof.
  assert (Hcons : consistent Sample.edited_db).
  { apply consistent_sample; [|reflexivity].
    split; vm_compute; repeat constructor; cbn; intuition discriminate. }
  split; [exact Hcons|].
  destruct (@get_or_create_keyed_on_slug Sample.runtime Tag
              (Sample.world Sample.edited_db [] Sample.offline) Hcons)
    as (_ & Hlist & Htotal).
  destruct (Htotal [u "Gen Z"; u "gen z"] eq_refl) as [ts [w' Hrun]].
  { intros nm [<- | [<- | []]]; left;
      (exists {| term_id := 1; name := u "Generation Z"; slug := u "gen-z" |});
      (split; [left; reflexivity | vm_compute; reflexivity]). }
  destruct (Hlist _ ts w' Hrun) as ([new Hnew] & Hall & Hshared).
  inversion Hall as [|nm t l ts1 [Hin Hsl] Hrest]; subst.
  inversion Hrest as [|nm2 t2 l2 ts2 _ Hnil]; subst.
  inversion Hnil; subst.
  assert (E : t = t2).
  { apply (Hshared (u "Gen Z") (u "gen z")).
    - left. reflexivity.
    - right. left. reflexivity.
    - vm_compute. reflexivity. }
  subst t2. exists t, w'. split; [exact Hrun|]. split; [exact Hin|].
  split; [exact Hsl|]. rewrite Hnew. apply in_or_app. left. left. reflexivity.
Defined.

(** C9, the claim as stated fails. In a store where an editor gave the
    tag "Gen Z" a slug of their own, the two distinct names "Gen Z" and
    "gen z" have the same slug and resolve to no term at all: no term
    has the slug, the name "Gen Z" is taken, and the resolution raises
    [IntegrityError]; the commit of a record with these tags returns
    [None]. The slugs of the store are unique and its backend fails on
    no statement. *)
Lemma names_of_one_slug_can_stay_unresolved :
  consistent Sample.custom_slug_db
  /\ u "Gen Z" <> u "gen z"
  /\ @slugify Sample.runtime (u "Gen Z") = @slugify Sample.runtime (u "gen z")
  /\ fst (@resolve_terms Sample.runtime Tag (Some [u "Gen Z"; u "gen z"])
            (Sample.world Sample.custom_slug_db [] Sample.offline))
     = Exc IntegrityError
  /\ fst (@save_to_db Sample.runtime (Sample.record ["Gen Z"; "gen z"]%string)
            (Sample.world Sample.custom_slug_db [] Sample.offline))
     = Ok None.
Proof.
  split.
  { apply consistent_sample; [|reflexivity].
    split; vm_compute; repeat constructor; cbn; intuition discriminate. }
  split; [vm_compute; discriminate|].
  split; [vm_compute; reflexivity|].
  split; vm_compute; reflexivity.
Qed.

End SlugKeyExamples.


Section NameTaken.
Import Py Lib Models BaseParser Props.
Context `{Runtime}.

(** X9. A name that is taken stops the commit. In a list of names,
    let one be the name of a stored term while its slug belongs to no
    term, with the names before it resolvable and of other slugs. On a
    consistent store, with a backend that fails on no statement, the
    resolution of the list raises [IntegrityError] at that name and
    writes no article; [save_to_db] of a record with these categories,
    or with these tags once its categories are resolved, returns
    [None]. *)
Theorem resolve_terms_name_taken (k : kind) (pre : list str) (nm : str)
        (post : list str) (w : World) (t : Term) :
  consistent (db w) ->
  faults w = [] ->
  (forall nm', In nm' pre ->
     ((exists x, In x (table k (db w)) /\ slug x = slugify nm')
      \/ (forall x, In x (table k (db w)) -> name x <> nm'))
     /\ slugify nm' <> slugify nm) ->
  (forall x, In x (table k (db w)) -> slug x <> slugify nm) ->
  In t (table k (db w)) ->
  name t = nm ->
  exists w',
    resolve_terms k (Some (pre ++ nm :: post)) w = (Exc IntegrityError, w')
    /\ articles (db w') = articles (db w)
    /\ (forall data,
          k = Category -> categories data = Some (pre ++ nm :: post) ->
          save_to_db data w = (Ok None, w'))
    /\ (forall data w0 cs,
          k = Tag -> tags data = Some (pre ++ nm :: post) ->
          resolve_terms Category (categories data) w0 = (Ok cs, w) ->
          save_to_db data w0 = (Ok None, w')).
Proof.
  intros Hcons Hf Hpre Habsent Hin Hname.
  set (f := fun term_name =>
              bind (get_or_create k (slugify term_name) term_name)
                   (fun r => ret (fst r))).
  destruct (for_each_terms_total k pre w Hf (consistent_table k _ Hcons))
    as [ys [w1 [Hrun [Hf1 [_ Hprov]]]]].
  { intros nm' Hnm'. apply (Hpre nm' Hnm'). }
  fold f in Hrun.
  assert (Hadv : advances w w1).
  { assert (Hr : resolve_terms k (Some pre) w = (Ok ys, w1) \/ w1 = w).
    { unfold resolve_terms. destruct pre; [right|left; exact Hrun].
      injection Hrun as _ <-. reflexivity. }
    destruct Hr as [Hr | ->]; [|apply advances_refl].
    apply (resolve_terms_inv _ _ _ _ _ Hr). }
  assert (Habsent1 : forall x, In x (table k (db w1)) -> slug x <> slugify nm).
  { intros x Hx. destruct (Hprov x Hx) as [Hold | [nm' [Hnm' Hs]]].
    - apply Habsent. exact Hold.
    - rewrite Hs. apply (Hpre nm' Hnm'). }
  assert (Hin1 : In t (table k (db w1))) by (apply (advances_In k w w1 t Hadv Hin)).
  destruct (get_or_create_name_taken k nm w1 t Hf1 Habsent1 Hin1 Hname) as [w' Hg].
  assert (Hstep : f nm w1 = (Exc IntegrityError, w')).
  { unfold f. rewrite (bind_exc _ _ _ _ _ Hg). reflexivity. }
  pose proof (for_each_stops f pre nm post w w1 w' ys IntegrityError Hrun Hstep)
    as Hall.
  assert (Hres : resolve_terms k (Some (pre ++ nm :: post)) w
                 = (Exc IntegrityError, w')).
  { unfold resolve_terms. destruct pre; exact Hall. }
  exists w'. split; [exact Hres|]. split.
  { apply resolve_terms_inv in Hres. destruct Hres as [[[Ha _] _] _]. exact Ha. }
  split.
  - intros data -> Hc. rewrite save_to_db_unfold. unfold save_to_db_body.
    rewrite Hc, (bind_exc _ _ _ _ _ Hres). reflexivity.
  - intros data w0 cs -> Ht Hc. rewrite save_to_db_unfold. unfold save_to_db_body.
    rewrite (bind_ok _ _ _ _ _ Hc), Ht, (bind_exc _ _ _ _ _ Hres). reflexivity.
Qed.

End NameTaken.

Section NeverRaises.
Import Py Lib Models BaseParser ParserManager Props.
Context `{Runtime}.

Lemma save_to_db_body_url (data : Data) (w : World) (a : Article) (w1 : World) :
  save_to_db_body data w = (Ok a, w1) ->
  exists url_, original_url data = Some url_
               /\ Models.original_url (fields a) = Some url_.
Proof.
  intros Hrun. unfold save_to_db_body in Hrun.
  apply bind_ok_inv in Hrun. destruct Hrun as [cs [wa [_ Hrun]]].
  apply bind_ok_inv in Hrun. destruct Hrun as [ts [wb [_ Hrun]]].
  apply bind_ok_inv in Hrun. destruct Hrun as [url_ [wb' [Hurl Hrun]]].
  unfold lift in Hurl. destruct (original_url data) as [url0|] eqn:Hu;
    [|discriminate]. injection Hurl as <- <-.
  exists url0. split; [reflexivity|].
  apply bind_ok_inv in Hrun. destruct Hrun as [existing [wc [Hfind Hrun]]].
  apply filter_first_inv in Hfind.
  destruct Hfind as [_ [_ [_ [[Hfound _] | [Habs _]]]]]; [|discriminate].
  injection Hfound as Hfound.
  destruct existing as [a0|].
  - injection Hrun as <- _.
    destruct (find _ (articles (db wb))) as [r0|] eqn:Hf; [|discriminate].
    injection Hfound as ->. apply find_some in Hf. destruct Hf as [_ Hs].
    cbn [from_db Article_init fields].
    destruct (Models.original_url (row r0)) as [u0|]; [|discriminate].
    cbn [same_url] in Hs. apply str_eqb_eq in Hs. rewrite Hs. reflexivity.
  - apply bind_ok_inv in Hrun. destruct Hrun as [article [wd [Hcreate Hrun]]].
    apply create_article_inv in Hcreate.
    destruct Hcreate as [_ [_ [Hpk [Hurl _]]]].
    destruct (attach_inv article cs ts wd _ _ _ Hpk Hrun) as [_ [_ [_ Hok]]].
    destruct (Hok a eq_refl) as [_ [Hurl' _]]. rewrite Hurl', Hurl. exact Hu.
Qed.

(** X10. [parse_url] with the registry of the application never
    raises, whatever the web answers and whatever the backend does: it
    returns [None] or an article, and an article it returns has the URL
    that was asked for. So a batch records for every URL what
    [parse_url] returned for it; its handler for exceptions is never
    taken. *)
Theorem parse_url_never_raises (url_ : str) (w : World) :
  exists r,
    fst (parse_url init url_ w) = Ok r
    /\ recorded (fst (parse_url init url_ w)) = r
    /\ (forall a, r = Some a -> Models.original_url (fields a) = Some url_).
Proof.
  rewrite parse_url_run.
  destruct (strategy_for url_) as [s|];
    [|exists None; repeat split; discriminate].
  destruct (web w (requests w) url_) as [page|];
    [|exists None; repeat split; discriminate].
  rewrite save_to_db_unfold.
  destruct (save_to_db_body _ (requested w)) as [[a|e] w1] eqn:Hbody.
  - exists (Some a). split; [reflexivity|]. split; [reflexivity|].
    intros a0 [= <-]. destruct (save_to_db_body_url _ _ _ _ Hbody) as [u0 [Hu Ha]].
    rewrite (proj1 (record_of_url s url_ page _)) in Hu. injection Hu as <-.
    exact Ha.
  - exists None. repeat split; discriminate.
Qed.

End NeverRaises.

(* ===================================================================== *)
(** ** The statistics the strategies extract *)
(* ===================================================================== *)

Section Statistics.
Import Py Lib Re Bs4 BaseParser Props.
Context `{Runtime}.

Lemma search_number (t : str) :
  found (search false (plus (Cls isdecimal)) t) = true <-> has_number t.
Proof.
  rewrite search_matches. unfold has_number. cbn [matches plus atom_ok]. split.
  - intros [before [rest [after [-> [taken [-> [Hall [Hlen _]]]]]]]].
    destruct taken as [|c taken]; [cbn in Hlen; lia|].
    inversion Hall; subst. exists c. split; [|assumption].
    apply in_or_app. right. left. reflexivity.
  - intros [c [Hin Hc]]. apply in_split in Hin. destruct Hin as [before [after ->]].
    exists before, (c :: after), after. split; [reflexivity|].
    exists [c]. split; [reflexivity|].
    split; [constructor; [exact Hc | constructor]|]. split; [cbn; lia | constructor].
Qed.

Lemma search_digit_then (tail t : str) :
  found (search false (Cat (plus (Cls isdecimal)) (lits tail)) t) = true
  <-> digit_then tail t.
Proof.
  rewrite search_matches. unfold digit_then. split.
  - intros [before [rest [after Hm]]].
    destruct (proj1 (matches_digits_then false isdecimal (lits tail) t after))
      as [before' [d [rest' [-> [Hd Hr]]]]]; [exists before, rest; exact Hm|].
    apply matches_lits in Hr. destruct Hr as [middle [-> Hall]].
    apply lits_exact in Hall. subst middle. exists before', d, after. auto.
  - intros [before [d [after [-> Hd]]]].
    destruct (proj2 (matches_digits_then false isdecimal (lits tail)
                       (before ++ d :: tail ++ after) after))
      as [before' [rest' Hm]].
    + exists before, d, (tail ++ after). split; [reflexivity|].
      split; [exact Hd|]. apply matches_lits. exists tail.
      split; [reflexivity | apply lits_exact; reflexivity].
    + exists before', rest', after. exact Hm.
Qed.

Lemma search_digits_around (sep t : str) :
  found (search false (Cat (plus (Cls isdecimal))
                           (Cat (lits sep) (plus (Cls isdecimal)))) t) = true
  <-> digits_around sep t.
Proof.
  rewrite search_matches. unfold digits_around. split.
  - intros [before [rest [after Hm]]].
    destruct (proj1 (matches_digits_then false isdecimal
                       (Cat (lits sep) (plus (Cls isdecimal))) t after))
      as [before' [d [rest' [-> [Hd Hr]]]]]; [exists before, rest; exact Hm|].
    cbn [matches] in Hr. destruct Hr as [mid [Hl Hp]].
    apply matches_lits in Hl. destruct Hl as [middle [-> Hall]].
    apply lits_exact in Hall. subst middle.
    cbn [plus atom_ok] in Hp. destruct Hp as [taken [-> [Hall [Hlen _]]]].
    destruct taken as [|d2 taken]; [cbn in Hlen; lia|]. inversion Hall; subst.
    exists before', d, d2, (taken ++ after). auto.
  - intros [before [d [d2 [after [-> [Hd Hd2]]]]]].
    destruct (proj2 (matches_digits_then false isdecimal
                       (Cat (lits sep) (plus (Cls isdecimal)))
                       (before ++ d :: sep ++ d2 :: after) after))
      as [before' [rest' Hm]].
    + exists before, d, (sep ++ d2 :: after). split; [reflexivity|].
      split; [exact Hd|]. cbn [matches]. exists (d2 :: after). split.
      * apply matches_lits. exists sep.
        split; [reflexivity | apply lits_exact; reflexivity].
      * cbn [plus atom_ok]. exists [d2]. split; [reflexivity|].
        split; [constructor; [exact Hd2 | constructor]|].
        split; [cbn; lia | constructor].
    + exists before', rest', after. exact Hm.
Qed.

Lemma search_digit_then_char (c : N) (t : str) :
  found (search false (Cat (plus (Cls isdecimal)) (Atom (Lit c))) t) = true
  <-> digit_then [c] t.
Proof.
  rewrite search_matches. unfold digit_then. split.
  - intros [before [rest [after Hm]]].
    destruct (proj1 (matches_digits_then false isdecimal (Atom (Lit c)) t after))
      as [before' [d [rest' [-> [Hd Hr]]]]]; [exists before, rest; exact Hm|].
    cbn [matches atom_ok lit_matches] in Hr. destruct Hr as [c0 [-> Hc]].
    apply N.eqb_eq in Hc. subst c0. exists before', d, after. auto.
  - intros [before [d [after [-> Hd]]]].
    destruct (proj2 (matches_digits_then false isdecimal (Atom (Lit c))
                       (before ++ d :: [c] ++ after) after))
      as [before' [rest' Hm]].
    + exists before, d, (c :: after). split; [reflexivity|].
      split; [exact Hd|]. cbn [matches atom_ok lit_matches]. exists c.
      split; [reflexivity | apply N.eqb_refl].
    + exists before', rest', after. exact Hm.
Qed.

Lemma is_statistic_spec (t : str) :
  CnbcParser.is_statistic t = true
  <-> mentions topic_words t
      /\ (digit_then (u "%") t \/ (has_number t /\ mentions study_words t)).
Proof.
  unfold CnbcParser.is_statistic.
  change CnbcParser.percent_re
    with (Cat (plus (Cls isdecimal)) (Atom (Lit 37%N))).
  change CnbcParser.number_re with (plus (Cls isdecimal)).
  change CnbcParser.topic_re with (alts (map lit topic_words)).
  change CnbcParser.study_re with (alts (map lit study_words)).
  change (u "%") with [37%N].
  pose proof (search_digit_then_char 37%N t) as Hp.
  pose proof (search_number t) as Hn.
  pose proof (search_words topic_words t) as Ht.
  pose proof (search_words study_words t) as Hs.
  specialize (Ht ltac:(discriminate)). specialize (Hs ltac:(discriminate)).
  destruct (found (search false (Cat (plus (Cls isdecimal)) (Atom (Lit 37%N))) t));
    destruct (found (search false (plus (Cls isdecimal)) t));
    destruct (found (search true (alts (map lit topic_words)) t));
    destruct (found (search true (alts (map lit study_words)) t));
    cbn [andb]; intuition congruence.
Qed.

End Statistics.

Section ExtractStatistics.
Import Py Lib Re Bs4 BaseParser Props.
Context `{Runtime}.

(** X11. The statistics of the CNBC strategy. Without a page there are
    none. With a page they are, among the stripped texts of its
    paragraphs and list items, exactly those that mention a topic word
    (lone, isolat, disconnect, social, in any case) and hold either a
    digit directly followed by a percent sign, or a digit together with
    a study word (Cigna, survey, study, report, in any case). *)
Theorem cnbc_extract_statistics_spec (self : Parser) :
  (soup self = None -> CnbcParser.extract_statistics self = [])
  /\ (forall page s,
        soup self = Some page ->
        (In s (CnbcParser.extract_statistics self)
         <-> In s (item_texts page [u "p"; u "li"])
             /\ mentions topic_words s
             /\ (digit_then (u "%") s
                 \/ (has_number s /\ mentions study_words s)))).
Proof.
  unfold CnbcParser.extract_statistics. split.
  - intros ->. reflexivity.
  - intros page s ->. cbn [deref rbind try_except]. rewrite filter_In.
    rewrite is_statistic_spec. unfold item_texts. reflexivity.
Qed.

Lemma roots_statistic_spec (t : str) :
  found (search false RootsOfLonelinessParser.statistic_re t) = true
  <-> digit_then (u "%") t \/ digit_then (u " percent") t
      \/ digits_around (u " in ") t.
Proof.
  change RootsOfLonelinessParser.statistic_re
    with (Alt (Cat (plus (Cls isdecimal)) (Atom (Lit 37%N)))
              (Alt (Cat (plus (Cls isdecimal)) (lits (u " percent")))
                   (Cat (plus (Cls isdecimal))
                        (Cat (lits (u " in ")) (plus (Cls isdecimal)))))).
  change (u "%") with [37%N].
  rewrite <- search_digit_then_char, <- search_digit_then, <- search_digits_around.
  rewrite !search_matches. cbn [matches]. split.
  - intros [before [rest [after [Hs [Hm | [Hm | Hm]]]]]];
      [left | right; left | right; right]; exists before, rest, after; auto.
  - intros [[before [rest [after [Hs Hm]]]]
           | [[before [rest [after [Hs Hm]]]] | [before [rest [after [Hs Hm]]]]]];
      exists before, rest, after; auto.
Qed.

(** X12. The statistics of the Roots Of Loneliness strategy. Without a
    page there are none. With a page they are, among the stripped texts
    of its list items and paragraphs, exactly those that hold a digit
    directly followed by a percent sign or by the word percent after
    one space, or two digits with the word in between single spaces
    between them. *)
Theorem roots_extract_statistics_spec (self : Parser) :
  (soup self = None -> RootsOfLonelinessParser.extract_statistics self = [])
  /\ (forall page s,
        soup self = Some page ->
        (In s (RootsOfLonelinessParser.extract_statistics self)
         <-> In s (item_texts page [u "li"; u "p"])
             /\ (digit_then (u "%") s \/ digit_then (u " percent") s
                 \/ digits_around (u " in ") s))).
Proof.
  unfold RootsOfLonelinessParser.extract_statistics. split.
  - intros ->. reflexivity.
  - intros page s ->. cbn [deref rbind try_except]. rewrite filter_In.
    rewrite roots_statistic_spec. unfold item_texts. reflexivity.
Qed.

End ExtractStatistics.

(* ===================================================================== *)
(** ** The management command *)
(* ===================================================================== *)

Section ResultCounts.
Import Py Lib Models BaseParser ParserManager Props ParseUrlsCommand.

Lemma existsb_str (x : str) (l : list str) :
  existsb (Py.eqb x) l = true <-> In x l.
Proof.
  rewrite existsb_exists. split.
  - intros [y [Hin Heq]]. apply str_eqb_eq in Heq. subst y. exact Hin.
  - intros Hin. exists x. split; [exact Hin | apply str_eqb_refl].
Qed.

Lemma first_occurrences_length (seen urls : list str) :
  List.length (first_occurrences seen urls) <= List.length urls.
Proof.
  revert seen. induction urls as [|x rest IH]; intros seen; cbn [first_occurrences].
  - apply Nat.le_refl.
  - destruct (existsb (Py.eqb x) seen); cbn [List.length].
    + specialize (IH seen). lia.
    + specialize (IH (seen ++ [x])). lia.
Qed.

Lemma first_occurrences_full (seen urls : list str) :
  List.length (first_occurrences seen urls) = List.length urls ->
  NoDup urls /\ (forall x, In x urls -> ~ In x seen).
Proof.
  revert seen. induction urls as [|x rest IH]; intros seen; cbn [first_occurrences].
  - intros _. split; [constructor | intros x []].
  - destruct (existsb (Py.eqb x) seen) eqn:Hex; cbn [List.length].
    + intros Hlen. pose proof (first_occurrences_length seen rest). lia.
    + intros Hlen. injection Hlen as Hlen.
      destruct (IH _ Hlen) as [Hnd Hfresh]. split.
      * constructor; [|exact Hnd]. intros Hin.
        apply (Hfresh x Hin). apply in_or_app. right. left. reflexivity.
      * intros y [<- | Hin] Hseen.
        -- apply existsb_str in Hseen. congruence.
        -- apply (Hfresh y Hin). apply in_or_app. left. exact Hseen.
Qed.

Lemma first_occurrences_distinct (seen urls : list str) :
  NoDup urls -> (forall x, In x urls -> ~ In x seen) ->
  first_occurrences seen urls = urls.
Proof.
  revert seen. induction urls as [|x rest IH]; intros seen Hnd Hfresh;
    [reflexivity|].
  cbn [first_occurrences]. inversion Hnd as [|? ? Hx Hrest]; subst.
  destruct (existsb (Py.eqb x) seen) eqn:Hex.
  - apply existsb_str in Hex. exfalso. apply (Hfresh x); [left; reflexivity | exact Hex].
  - f_equal. apply IH; [exact Hrest|].
    intros y Hin Hseen. apply in_app_or in Hseen. destruct Hseen as [Hseen | [<- | []]].
    + apply (Hfresh y); [right; exact Hin | exact Hseen].
    + contradiction.
Qed.

Lemma first_occurrences_NoDup (seen urls : list str) :
  NoDup (first_occurrences seen urls)
  /\ (forall x, In x (first_occurrences seen urls) -> In x urls /\ ~ In x seen).
Proof.
  revert seen. induction urls as [|x rest IH]; intros seen; cbn [first_occurrences].
  - split; [constructor | intros x []].
  - destruct (existsb (Py.eqb x) seen) eqn:Hex.
    + destruct (IH seen) as [Hnd Hin]. split; [exact Hnd|].
      intros y Hy. destruct (Hin y Hy). split; [right|]; assumption.
    + destruct (IH (seen ++ [x])) as [Hnd Hin]. split.
      * constructor; [|exact Hnd]. intros Hx. destruct (Hin x Hx) as [_ Hno].
        apply Hno. apply in_or_app. right. left. reflexivity.
      * intros y [<- | Hy].
        -- split; [left; reflexivity|]. intros Hseen.
           apply existsb_str in Hseen. congruence.
        -- destruct (Hin y Hy) as [Hr Hno]. split; [right; exact Hr|].
           intros Hseen. apply Hno. apply in_or_app. left. exact Hseen.
Qed.

Lemma filter_length_le {A} (f : A -> bool) (l : list A) :
  List.length (filter f l) <= List.length l.
Proof.
  induction l as [|x l IH]; [apply Nat.le_refl|].
  cbn [filter]. destruct (f x); cbn [List.length]; lia.
Qed.

Lemma filter_length_all {A} (f : A -> bool) (l : list A) :
  List.length (filter f l) = List.length l <-> (forall x, In x l -> f x = true).
Proof.
  induction l as [|x l IH]; cbn [filter].
  - split; [intros _ x [] | reflexivity].
  - destruct (f x) eqn:Hx; cbn [List.length].
    + split.
      * intros Hlen y [<- | Hin]; [exact Hx|]. apply IH; [lia | exact Hin].
      * intros Hall. f_equal. apply IH. intros y Hin. apply Hall. right. exact Hin.
    + split.
      * intros Hlen. pose proof (filter_length_le f l). lia.
      * intros Hall. specialize (Hall x (or_introl eq_refl)). congruence.
Qed.

Lemma getitem_In (d : results) (k : str) (v : option Article) :
  getitem d k = Some v -> In (k, v) d.
Proof.
  induction d as [|[k0 v0] rest IH]; [discriminate|].
  cbn [getitem]. destruct (Py.eqb k0 k) eqn:E.
  - apply str_eqb_eq in E. subst k0. intros [= <-]. left. reflexivity.
  - intros Hg. right. apply IH. exact Hg.
Qed.

Lemma In_getitem (d : results) (k : str) (v : option Article) :
  NoDup (keys d) -> In (k, v) d -> getitem d k = Some v.
Proof.
  induction d as [|[k0 v0] rest IH]; [intros _ []|].
  cbn [keys map fst getitem]. intros Hnd. inversion Hnd as [|? ? Hk0 Hrest]; subst.
  intros [[= -> ->] | Hin].
  - rewrite str_eqb_refl. reflexivity.
  - destruct (Py.eqb k0 k) eqn:E.
    + apply str_eqb_eq in E. subst k0. exfalso. apply Hk0.
      apply (in_map fst) in Hin. exact Hin.
    + apply IH; assumption.
Qed.

(** The count of successes of a batch, as the management command
    computes it. *)
Lemma success_count_of_batch `{Runtime} (parsers : registry) (urls : list str)
      (w : World) :
  exists res,
    parse_multiple_urls parsers urls w
    = (Ok res, snd (parse_multiple_urls parsers urls w))
    /\ List.length res = List.length (first_occurrences [] urls)
    /\ success_count res <= List.length (first_occurrences [] urls)
    /\ List.length (first_occurrences [] urls) <= List.length urls
    /\ (success_count res = List.length urls
        <-> NoDup urls
            /\ forall url_, In url_ urls ->
                 exists a, getitem res url_ = Some (Some a)).
Proof.
  unfold parse_multiple_urls.
  destruct (parse_loop_total parsers urls [] w) as [res Hres].
  exists res. split; [exact Hres|].
  pose proof (parse_loop_keys _ _ _ _ _ _ Hres) as Hkeys. cbn [keys map app] in Hkeys.
  assert (Hlen : List.length res = List.length (first_occurrences [] urls)).
  { rewrite <- Hkeys. unfold keys. symmetry. apply length_map. }
  pose proof (filter_length_le (fun kv => present (snd kv)) res) as Hle.
  pose proof (first_occurrences_length [] urls) as Hfo.
  fold (success_count res) in Hle.
  split; [exact Hlen|]. split; [lia|]. split; [exact Hfo|].
  assert (Hnd : NoDup (keys res)).
  { rewrite Hkeys. apply first_occurrences_NoDup. }
  split.
  - intros Hall.
    assert (Hfull : List.length (first_occurrences [] urls) = List.length urls)
      by lia.
    destruct (first_occurrences_full _ _ Hfull) as [Hdist _].
    split; [exact Hdist|]. intros url_ Hin.
    assert (Hsome : success_count res = List.length res) by lia.
    unfold success_count in Hsome.
    rewrite filter_length_all in Hsome.
    assert (Hkey : In url_ (keys res)).
    { rewrite Hkeys, (first_occurrences_distinct [] urls Hdist); [exact Hin|].
      intros x _ []. }
    unfold keys in Hkey. apply in_map_iff in Hkey.
    destruct Hkey as [[k v] [Hk Hkv]]. cbn [fst] in Hk. subst k.
    specialize (Hsome _ Hkv). cbn [snd] in Hsome.
    destruct v as [a|]; [|discriminate]. exists a.
    apply In_getitem; assumption.
  - intros [Hdist Hall].
    assert (Hfull : first_occurrences [] urls = urls).
    { apply first_occurrences_distinct; [exact Hdist | intros x _ []]. }
    rewrite Hfull in Hlen. rewrite <- Hlen. unfold success_count.
    apply filter_length_all. intros [k v] Hkv. cbn [snd].
    assert (Hk : In k urls).
    { rewrite <- Hfull, <- Hkeys. unfold keys.
      apply (in_map fst) in Hkv. exact Hkv. }
    destruct (Hall k Hk) as [a Ha].
    rewrite (In_getitem res k v Hnd Hkv) in Ha. injection Ha as ->. reflexivity.
Qed.

End ResultCounts.

Section Reports.
Import Py Lib Models BaseParser ParserManager Props.
Context `{Runtime}.

(** X13. The lines of the management command. It never raises. After
    the line that announces the run it writes the count of successes
    over the number of URLs given, then one line for each distinct URL
    in the order of first occurrence, styled SUCCESS for an article and
    ERROR otherwise. The count is the number of SUCCESS lines; it is at
    most the number of distinct URLs, and it reaches the number of URLs
    given exactly when these are pairwise distinct and each of them gave
    an article. *)
Theorem handle_lines (urls : list str) (w : World) :
  exists res started finished,
    ParseUrlsCommand.handle urls w
    = (Ok (started :: finished :: map ParseUrlsCommand.report res),
       snd (parse_multiple_urls init urls w))
    /\ fst (parse_multiple_urls init urls w) = Ok res
    /\ map fst res = first_occurrences [] urls
    /\ finished
       = (ParseUrlsCommand.SUCCESS,
          u "Парсинг завершен. Успешно: "
          ++ Builtins.str_of_int (N.of_nat (ParseUrlsCommand.success_count res))
          ++ u "/" ++ Builtins.str_of_int (N.of_nat (List.length urls)))
    /\ List.length
         (filter (fun line => match fst line with
                              | ParseUrlsCommand.SUCCESS => true
                              | ParseUrlsCommand.ERROR => false
                              end)
                 (map ParseUrlsCommand.report res))
       = ParseUrlsCommand.success_count res
    /\ ParseUrlsCommand.success_count res
       <= List.length (first_occurrences [] urls)
    /\ List.length (first_occurrences [] urls) <= List.length urls
    /\ (ParseUrlsCommand.success_count res = List.length urls
        <-> NoDup urls
            /\ forall url_, In url_ urls ->
                 exists a, getitem res url_ = Some (Some a)).
Proof.
  destruct (success_count_of_batch init urls w)
    as [res [Hrun [Hlen [Hle [Hfo Hall]]]]].
  exists res. unfold ParseUrlsCommand.handle.
  rewrite (bind_ok _ _ _ _ _ Hrun). cbn [ret].
  eexists _, _. split; [reflexivity|].
  split; [rewrite Hrun; reflexivity|].
  split.
  { pose proof (parse_loop_keys init urls [] res w _ Hrun) as Hkeys.
    exact Hkeys. }
  split; [reflexivity|].
  split.
  { unfold ParseUrlsCommand.success_count. clear.
    induction res as [|[k [a|]] rest IH]; [reflexivity| |];
      cbn [map filter ParseUrlsCommand.report fst snd present List.length];
      rewrite IH; reflexivity. }
  split; [exact Hle|]. split; [exact Hfo | exact Hall].
Qed.

End Reports.

(* ===================================================================== *)
(** ** Stripping *)
(* ===================================================================== *)

Section StripFacts.
Import Py.

Lemma lstrip_head (s : str) :
  lstrip s = [] \/ exists c rest, lstrip s = c :: rest /\ isspace c = false.
Proof.
  induction s as [|c s IH]; [left; reflexivity|].
  cbn [lstrip]. destruct (isspace c) eqn:Hc; [exact IH|].
  right. exists c, s. auto.
Qed.

Lemma lstrip_fixed (c : N) (rest : str) :
  isspace c = false -> lstrip (c :: rest) = c :: rest.
Proof. intros Hc. cbn [lstrip]. rewrite Hc. reflexivity. Qed.

Lemma lstrip_app_last (l : str) (c : N) :
  isspace c = false -> lstrip (l ++ [c]) = lstrip l ++ [c].
Proof.
  intros Hc. induction l as [|x l IH]; cbn [app lstrip].
  - rewrite Hc. reflexivity.
  - destruct (isspace x); [exact IH | reflexivity].
Qed.

(** Neither end of a stripped string is whitespace. *)
Lemma strip_ends (s : str) :
  strip s = []
  \/ exists first_ middle last_,
       (strip s = [first_] /\ last_ = first_ /\ middle = []
        \/ strip s = first_ :: middle ++ [last_])
       /\ isspace first_ = false /\ isspace last_ = false.
Proof.
  unfold strip, rstrip.
  destruct (lstrip_head s) as [-> | [c [rest [-> Hc]]]]; [left; reflexivity|].
  right. cbn [rev]. rewrite (lstrip_app_last (rev rest) c Hc), rev_app_distr.
  cbn [rev app].
  destruct (lstrip_head (rev rest)) as [-> | [c2 [rest2 [-> Hc2]]]].
  - exists c, [], c. cbn. auto.
  - exists c, (rev rest2), c2. cbn [rev]. auto.
Qed.

Lemma strip_idempotent (s : str) : strip (strip s) = strip s.
Proof.
  destruct (strip_ends s) as [-> | [f [m [l [[[-> [-> ->]] | ->] [Hf Hl]]]]]].
  - reflexivity.
  - unfold strip, rstrip. rewrite (lstrip_fixed f [] Hf). cbn [rev app].
    rewrite (lstrip_fixed f [] Hf). reflexivity.
  - unfold strip, rstrip. rewrite (lstrip_fixed f _ Hf).
    change (f :: m ++ [l]) with ((f :: m) ++ [l]). rewrite rev_app_distr.
    cbn [rev app]. rewrite (lstrip_fixed l _ Hl).
    change (l :: rev m ++ [f]) with ([l] ++ rev (f :: m)).
    rewrite rev_app_distr, rev_involutive. reflexivity.
Qed.

End StripFacts.

(* ===================================================================== *)
(** ** What the strategies put into a record *)
(* ===================================================================== *)

Section RecordTexts.
Import Py Lib Re Bs4 BaseParser Props.
Context `{Runtime}.

Lemma join_nonempty (sep first_ : str) (rest : list str) :
  first_ <> [] -> join sep (first_ :: rest) <> [].
Proof.
  intros Hne. cbn [join]. destruct rest; [exact Hne|].
  intros Habs. apply app_eq_nil in Habs. destruct Habs as [Habs _]. contradiction.
Qed.

Lemma In_firstn {A} (n : nat) (l : list A) (x : A) : In x (firstn n l) -> In x l.
Proof.
  intros Hin. rewrite <- (firstn_skipn n l). apply in_or_app. left. exact Hin.
Qed.

Lemma keyword_sentence_nonempty (s : str) :
  found (search true CnbcParser.summary_re s) = true -> s <> [].
Proof. intros Hf ->. vm_compute in Hf. discriminate. Qed.

Lemma cnbc_default_summary_nonempty : CnbcParser.default_summary <> [].
Proof. vm_compute. discriminate. Qed.

Lemma roots_default_summary_nonempty : RootsOfLonelinessParser.default_summary <> [].
Proof. vm_compute. discriminate. Qed.

Lemma cnbc_summary_not_empty (statistics : list str) (content : str) :
  CnbcParser.create_summary statistics content <> [].
Proof.
  unfold CnbcParser.create_summary. destruct statistics as [|s0 rest].
  - destruct (truthy content); [|apply cnbc_default_summary_nonempty].
    rewrite pick_sentences_spec by (cbn; lia). cbn [app].
    destruct (firstn 3 (filter _ (slice_to 5 (split_sentences content))))
      as [|r0 more] eqn:Hpick; [apply cnbc_default_summary_nonempty|].
    apply join_nonempty. apply keyword_sentence_nonempty.
    assert (Hin : In r0 (firstn 3 (filter (fun s => found (search true CnbcParser.summary_re s))
                                          (slice_to 5 (split_sentences content)))))
      by (rewrite Hpick; left; reflexivity).
    apply In_firstn in Hin. apply filter_In in Hin. apply Hin.
  - unfold CnbcParser.lead_in. intros Habs.
    apply app_eq_nil in Habs. destruct Habs as [Habs _].
    apply app_eq_nil in Habs. destruct Habs as [_ Habs]. discriminate.
Qed.

Lemma roots_summary_not_empty (statistics : list str) :
  RootsOfLonelinessParser.create_summary statistics <> [].
Proof.
  unfold RootsOfLonelinessParser.create_summary. destruct statistics as [|s0 rest].
  - apply roots_default_summary_nonempty.
  - unfold RootsOfLonelinessParser.lead_in. intros Habs.
    apply app_eq_nil in Habs. destruct Habs as [Habs _].
    apply app_eq_nil in Habs. destruct Habs as [_ Habs]. discriminate.
Qed.

(** X14. The summary is never empty: [create_summary] of either
    strategy returns a non-empty text for every list of statistics and
    every body text, so every record a strategy builds from a page has a
    non-empty summary, whatever the page holds. *)
Theorem create_summary_nonempty (s : strategy) (statistics : list str)
        (content url_ : str) (page : PageElement) (today : date) :
  summary_of s statistics content <> []
  /\ exists text_, summary (record_of s url_ page today) = Some text_
                   /\ text_ <> [].
Proof.
  split.
  - destruct s; cbn [summary_of];
      [apply cnbc_summary_not_empty | apply roots_summary_not_empty].
  - destruct s; cbn [record_of].
    + eexists. split; [reflexivity|]. apply cnbc_summary_not_empty.
    + eexists. split; [reflexivity|]. apply roots_summary_not_empty.
Qed.

Lemma author_scan_stripped (elems : list PageElement) (a : str) :
  CnbcParser.author_scan elems = Some a -> strip a = a.
Proof.
  induction elems as [|e rest IH]; [discriminate|].
  cbn [CnbcParser.author_scan].
  destruct (contains (u "by ") (lower (text e))); [|exact IH].
  destruct (search false CnbcParser.by_re (text e)) as [m|]; [|exact IH].
  destruct (group 1 m) as [g|]; [|exact IH].
  intros [= <-]. apply strip_idempotent.
Qed.

(** X15. The title and the author a strategy extracts have no
    whitespace at either end: stripping them again changes nothing.
    This holds for the text taken from the page and for the generic
    values alike. *)
Theorem extracted_names_are_stripped (self : Parser) :
  strip (CnbcParser.extract_title self) = CnbcParser.extract_title self
  /\ strip (CnbcParser.extract_author self) = CnbcParser.extract_author self
  /\ strip (RootsOfLonelinessParser.extract_title self)
     = RootsOfLonelinessParser.extract_title self.
Proof.
  assert (Hd1 : strip CnbcParser.default_title = CnbcParser.default_title)
    by (vm_compute; reflexivity).
  assert (Hd2 : strip (u "CNBC Staff") = u "CNBC Staff") by (vm_compute; reflexivity).
  assert (Hd3 : strip RootsOfLonelinessParser.default_title
                = RootsOfLonelinessParser.default_title)
    by (vm_compute; reflexivity).
  split; [|split].
  - unfold CnbcParser.extract_title.
    destruct (soup self) as [page|]; cbn [deref rbind try_except]; [|exact Hd1].
    destruct (find page [u "h1"] any); cbn [try_except];
      [apply strip_idempotent|].
    destruct (find page [u "h1"; u "h2"] _); cbn [try_except];
      [apply strip_idempotent | exact Hd1].
  - unfold CnbcParser.extract_author.
    destruct (soup self) as [page|]; cbn [deref rbind try_except]; [|exact Hd2].
    destruct (find page [u "span"; u "div"; u "a"] _); cbn [try_except];
      [apply strip_idempotent|].
    destruct (CnbcParser.author_scan _) as [a|] eqn:Hscan; cbn [try_except];
      [apply (author_scan_stripped _ _ Hscan) | exact Hd2].
  - unfold RootsOfLonelinessParser.extract_title.
    destruct (soup self) as [page|]; cbn [deref rbind try_except]; [|exact Hd3].
    destruct (find page [u "h1"] any); cbn [try_except];
      [apply strip_idempotent | exact Hd3].
Qed.

End RecordTexts.

(* ===================================================================== *)
(** ** Slugs and the workflow of the admin *)
(* ===================================================================== *)

Section SlugGeneration.
Import Py Lib Models Props.
Context `{Runtime}.

Lemma insert_term_outcome (k : kind) (nm sl : str) (w : World) r w' :
  insert_term k nm sl w = (r, w') ->
  match r with
  | Ok t =>
      t = {| term_id := sequence k (db w); name := nm; slug := sl |}
      /\ table k (db w') = table k (db w) ++ [t]
      /\ (forall x, In x (table k (db w)) -> name x <> nm /\ slug x <> sl)
  | Exc e =>
      table k (db w') = table k (db w)
      /\ (e = IntegrityError /\ hd false (faults w) = false
          /\ (exists x, In x (table k (db w)) /\ (name x = nm \/ slug x = sl))
          \/ e = DatabaseError /\ hd false (faults w) = true)
  end.
Proof.
  unfold insert_term. intros Hi. apply bind_inv in Hi.
  pose proof (statement_raises w) as Hraise.
  destruct Hi as [[[] [w1 [Hs Hi]]] | [e [Hs ->]]]; rewrite Hs in Hraise;
    apply statement_inv in Hs; destruct Hs as [Hdb [_ [_ [_ [_ He]]]]].
  - cbv beta iota zeta delta [bind gets ret raise modify] in Hi.
    rewrite Hdb in Hi.
    assert (Hok : hd false (faults w) = false).
    { destruct (hd false (faults w)); [|reflexivity].
      destruct (proj2 Hraise eq_refl) as [e Habs]. discriminate. }
    destruct (existsb _ (table k (db w))) eqn:Htaken; injection Hi as <- <-.
    + cbn [db set_db]. split; [apply table_set_table|]. left.
      split; [reflexivity|]. split; [exact Hok|].
      apply existsb_exists in Htaken. destruct Htaken as [x [Hin Hx]].
      exists x. split; [exact Hin|]. apply orb_true_iff in Hx.
      destruct Hx as [Hx | Hx]; apply str_eqb_eq in Hx; auto.
    + split; [reflexivity|]. cbn [db set_db]. split; [apply table_set_table|].
      intros x Hin.
      assert (Hx : Py.eqb (name x) nm || Py.eqb (slug x) sl = false).
      { destruct (Py.eqb (name x) nm || Py.eqb (slug x) sl) eqn:E; [|reflexivity].
        assert (Hex : existsb (fun r => Py.eqb (name r) nm || Py.eqb (slug r) sl)
                        (table k (db w)) = true)
          by (apply existsb_exists; exists x; auto).
        congruence. }
      apply orb_false_iff in Hx. destruct Hx as [Hn Hs].
      apply str_eqb_neq in Hn. apply str_eqb_neq in Hs. auto.
  - rewrite Hdb. split; [reflexivity|]. right. split; [apply He; reflexivity|].
    apply Hraise. exists e. reflexivity.
Qed.

(** X16. [create] of a category or tag, with the slug [SlugMixin.save]
    settles: the slug given, or, when none is given and the name is
    not empty, the slug of the name cut to 110 characters. When it
    returns, the new term is the last row, with the name given, that
    slug and the key drawn from the sequence, and no row before had the
    name or the slug. When it raises, the table is as before, and the
    exception is an [IntegrityError] exactly in the case that the backend
    took the statement and a row has the name or the slug. *)
Theorem create_settles_slug (k : kind) (nm sl : str) (w : World) :
  let out := create k nm sl w in
  let stored :=
    if negb (truthy sl) && truthy nm
    then firstn slug_max_length (slugify nm)
    else sl in
  (sl <> [] -> stored = sl)
  /\ (sl = [] -> nm <> [] ->
      stored = firstn 110 (slugify nm) /\ List.length stored <= 110)
  /\ (forall t, fst out = Ok t ->
        name t = nm /\ slug t = stored /\ term_id t = sequence k (db w)
        /\ table k (db (snd out)) = table k (db w) ++ [t]
        /\ (forall x, In x (table k (db w)) -> name x <> nm /\ slug x <> stored))
  /\ (forall e, fst out = Exc e ->
        table k (db (snd out)) = table k (db w)
        /\ (e = IntegrityError \/ e = DatabaseError)
        /\ (e = IntegrityError
            <-> hd false (faults w) = false
                /\ exists x, In x (table k (db w))
                             /\ (name x = nm \/ slug x = stored))).
Proof.
  cbv zeta. unfold create, SlugMixin_save, slice_to.
  set (stored := if negb (truthy sl) && truthy nm
                 then firstn slug_max_length (slugify nm) else sl).
  split; [|split].
  - unfold stored. destruct sl; [intros Habs; contradiction | reflexivity].
  - intros -> Hnm. unfold stored. destruct nm; [contradiction|].
    cbn [truthy negb andb]. split; [reflexivity|]. apply firstn_le_length.
  - destruct (insert_term k nm stored w) as [r w'] eqn:Hi.
    apply insert_term_outcome in Hi. cbn [fst snd]. split.
    + intros t ->. destruct Hi as [-> [Htab Hfree]]. cbn [name slug term_id].
      auto.
    + intros e ->. destruct Hi as [Htab Hcase]. split; [exact Htab|].
      split.
      * destruct Hcase as [[-> _] | [-> _]]; auto.
      * destruct Hcase as [[-> [Hok Hex]] | [-> Hbad]].
        -- split; auto.
        -- split; [discriminate|]. intros [Hok _]. congruence.
Qed.

End SlugGeneration.

Section AdminWorkflow.
Import Py Lib Models Props.

Lemma insert_article_users (a : Article) (w : World) :
  added_by (fields (fst (snd (insert_article (a, w))))) = added_by (fields a)
  /\ published_by (fields (fst (snd (insert_article (a, w)))))
     = published_by (fields a).
Proof.
  unfold insert_article. run_monad.
  destruct (statement w) as [[[]|e] w1]; [|split; reflexivity].
  cbn [pk set_fields fields].
  destruct (pk a);
    [destruct (existsb _ _ || url_taken _ _ _) | destruct (url_taken _ _ _)];
    split; reflexivity.
Qed.

Lemma update_article_users (key : N) (a : Article) (w : World) :
  added_by (fields (fst (snd (update_article key (a, w))))) = added_by (fields a)
  /\ published_by (fields (fst (snd (update_article key (a, w)))))
     = published_by (fields a).
Proof.
  rewrite update_article_run. cbv zeta.
  destruct (statement w) as [[[]|e] w1]; [|split; reflexivity].
  destruct (existsb _ _); [destruct (url_taken _ _ _)|]; split; reflexivity.
Qed.

Lemma Model_save_users (force_insert : bool) (a : Article) (w : World) :
  added_by (fields (fst (snd (Model_save force_insert (a, w)))))
  = added_by (fields a)
  /\ published_by (fields (fst (snd (Model_save force_insert (a, w)))))
     = published_by (fields a).
Proof.
  rewrite Model_save_unfold.
  destruct (pk a) as [key|]; [|apply insert_article_users].
  destruct force_insert; [apply insert_article_users|].
  pose proof (update_article_users key a w) as Hu.
  destruct (update_article key (a, w)) as [[[|]|e] [a1 w1]]; cbn [fst snd] in *;
    try exact Hu.
  pose proof (insert_article_users a1 w1) as Hi.
  destruct Hi as [-> ->]. exact Hu.
Qed.

Lemma Article_save_users (force_insert : bool) (a : Article) (w : World) :
  added_by (fields (fst (snd (Article_save force_insert (a, w)))))
  = added_by (fields a)
  /\ published_by (fields (fst (snd (Article_save force_insert (a, w)))))
     = published_by (fields a).
Proof.
  rewrite Article_save_unfold.
  pose proof (Model_save_users force_insert (published a (clock w)) w) as Hm.
  assert (Hp : added_by (fields (published a (clock w))) = added_by (fields a)
               /\ published_by (fields (published a (clock w)))
                  = published_by (fields a)).
  { unfold published. destruct (_ && _ && _); split; reflexivity. }
  destruct Hp as [<- <-].
  destruct (Model_save force_insert (published a (clock w), w))
    as [[[]|e] [a' w']]; cbn [fst snd] in *; exact Hm.
Qed.

(** [ArticleAdmin.save_model] is [Article.save] on the instance with
    the users recorded. *)
Lemma ArticleAdmin_save_model_unfold (user : option N)
      (status_changed change : bool) (a : Article) (w : World) :
  Admin.ArticleAdmin_save_model user status_changed change (a, w)
  = Article_save false (admin_instance user status_changed change a, w).
Proof.
  unfold Admin.ArticleAdmin_save_model, admin_instance. run_monad.
  destruct (negb change && negb (BaseParser.present (added_by (fields a))));
    destruct user; cbv beta iota zeta;
    match goal with
    | |- context [if ?c then _ else _] => destruct c
    end; reflexivity.
Qed.

(** What the recording of the users changes on the instance. *)
Lemma admin_instance_facts (user : option N) (status_changed change : bool)
      (a : Article) :
  let a2 := admin_instance user status_changed change a in
  pk a2 = pk a
  /\ status (fields a2) = status (fields a)
  /\ published_at (fields a2) = published_at (fields a)
  /\ original_url (fields a2) = original_url (fields a)
  /\ _original_status a2 = _original_status a
  /\ added_by (fields a2)
     = (if change then added_by (fields a)
        else match added_by (fields a) with
             | Some x => Some x
             | None => user
             end)
  /\ published_by (fields a2)
     = (if status_changed && Py.eqb (status (fields a)) STATUS_PUBLISHED
        then match published_by (fields a) with
             | Some x => Some x
             | None => user
             end
        else published_by (fields a)).
Proof.
  cbv zeta. unfold admin_instance.
  set (a1 := if negb change && negb (BaseParser.present (added_by (fields a)))
             then match user with
                  | Some _ => set_fields a (Admin.set_added_by (fields a) user)
                  | None => a
                  end
             else a).
  assert (H1 : pk a1 = pk a
               /\ status (fields a1) = status (fields a)
               /\ published_at (fields a1) = published_at (fields a)
               /\ original_url (fields a1) = original_url (fields a)
               /\ _original_status a1 = _original_status a
               /\ published_by (fields a1) = published_by (fields a)
               /\ added_by (fields a1)
                  = (if change then added_by (fields a)
                     else match added_by (fields a) with
                          | Some x => Some x
                          | None => user
                          end)).
  { unfold a1. destruct change; cbn [negb andb]; [repeat split; reflexivity|].
    destruct (added_by (fields a)) as [x|] eqn:Hadd; cbn [BaseParser.present negb];
      [rewrite ?Hadd; repeat split; auto|].
    destruct user; cbn; rewrite ?Hadd; repeat split; reflexivity. }
  destruct H1 as [Hk1 [Hs1 [Hp1 [Hu1 [Ho1 [Hb1 Ha1]]]]]].
  rewrite Hs1.
  destruct (status_changed && Py.eqb (status (fields a)) STATUS_PUBLISHED);
    cbn [andb]; [|repeat split; assumption].
  rewrite Hb1.
  destruct (published_by (fields a)) as [x|] eqn:Hpub;
    cbn [BaseParser.present negb]; [repeat split; assumption|].
  destruct user; cbn; repeat split; try assumption; rewrite ?Hb1; auto.
Qed.

End AdminWorkflow.

Section AdminSave.
Import Py Lib Models Props.

Lemma Article_save_stores (force_insert : bool) (a : Article) (w : World) a' w' :
  Article_save force_insert (a, w) = (Ok tt, (a', w')) ->
  exists key, pk a' = Some key
              /\ In {| id := key; row := fields a' |} (articles (db w')).
Proof.
  rewrite Article_save_unfold.
  destruct (Model_save force_insert (published a (clock w), w))
    as [[[]|e] [a1 w1]] eqn:Hsave; [|discriminate].
  intros [= <- <-]. apply Model_save_stores in Hsave.
  destruct Hsave as [key [Hpk Hin]]. exists key. split; assumption.
Qed.

(** X17. The workflow of [ArticleAdmin.save_model]. The user who adds
    an article is recorded on creation only, the user who publishes it
    only when the form changes the status and the status is PUBLISHED;
    an anonymous user is never recorded, and a user already recorded is
    never replaced. The status is saved as the form set it. The
    publication time is set by [Article.save] under its own condition,
    which looks at the status the instance was loaded with and not at
    the form; a time already set is kept. After a successful save the
    stored row holds all of this. *)
Theorem ArticleAdmin_save_model_workflow (user : option N)
        (status_changed change : bool) (a : Article) (w : World) :
  let out := Admin.ArticleAdmin_save_model user status_changed change (a, w) in
  let a' := fst (snd out) in
  added_by (fields a')
  = (if change then added_by (fields a)
     else match added_by (fields a) with
          | Some x => Some x
          | None => user
          end)
  /\ published_by (fields a')
     = (if status_changed && Py.eqb (status (fields a)) STATUS_PUBLISHED
        then match published_by (fields a) with
             | Some x => Some x
             | None => user
             end
        else published_by (fields a))
  /\ status (fields a') = status (fields a)
  /\ published_at (fields a')
     = (if Py.eqb (status (fields a)) STATUS_PUBLISHED
           && negb match _original_status a with
                   | Some s => Py.eqb s STATUS_PUBLISHED
                   | None => false
                   end
        then match published_at (fields a) with
             | None => Some (clock w)
             | Some t => Some t
             end
        else published_at (fields a))
  /\ (fst out = Ok tt ->
      exists key, pk a' = Some key
                  /\ In {| id := key; row := fields a' |}
                        (articles (db (snd (snd out))))).
Proof.
  cbv zeta. rewrite ArticleAdmin_save_model_unfold.
  destruct (admin_instance_facts user status_changed change a)
    as (_ & Hs2 & Hp2 & _ & Ho2 & Ha2 & Hb2).
  set (a2 := admin_instance user status_changed change a) in *.
  destruct (Article_save_users false a2 w) as [Hu1 Hu2].
  destruct (Article_save_publication_time false a2 w) as [Ht Hst].
  split; [rewrite Hu1; exact Ha2|].
  split; [rewrite Hu2; exact Hb2|].
  split; [rewrite Hst; exact Hs2|].
  split.
  - rewrite Ht. unfold published. rewrite Hs2, Ho2, Hp2.
    destruct (Py.eqb (status (fields a)) STATUS_PUBLISHED
              && negb match _original_status a with
                      | Some s => Py.eqb s STATUS_PUBLISHED
                      | None => false
                      end);
      destruct (published_at (fields a)) eqn:Hpa; cbn [andb];
      cbn [fields set_fields published_at set_published_at]; congruence.
  - destruct (Article_save false (a2, w)) as [r [a' w']] eqn:Hsave. cbn [fst snd].
    intros ->. apply (Article_save_stores _ _ _ _ _ Hsave).
Qed.

(** X18. Publishing in the admin puts an article on the public list.
    An editor opens a stored article in the change form and saves it
    with a status; the form reports the status as changed when it is
    not the stored one. When the save succeeds, the article keeps its
    key and has the status of the form; the detail view selects its
    row; the list view selects it exactly when that status is
    PUBLISHED. On the change to PUBLISHED the publication time is set
    to the time of the save and the publisher to the user, unless they
    were set before; on a save with another status both are left as
    they are, so an article that is taken back keeps its publication
    time. *)
Theorem admin_publication_is_listed (user : option N) (r : ArticleRow)
        (new_status : str) (w : World) (a' : Article) (w' : World) :
  Admin.ArticleAdmin_save_model user
    (negb (Py.eqb new_status (status (row r)))) true (edited r new_status, w)
  = (Ok tt, (a', w')) ->
  pk a' = Some (id r)
  /\ status (fields a') = new_status
  /\ In {| id := id r; row := fields a' |}
        (Views.ArticleDetailView_get_queryset (db w'))
  /\ (In {| id := id r; row := fields a' |}
         (Views.ArticleListView_get_queryset (db w'))
      <-> new_status = STATUS_PUBLISHED)
  /\ (new_status = STATUS_PUBLISHED -> status (row r) <> STATUS_PUBLISHED ->
      published_at (fields a')
      = match published_at (row r) with
        | None => Some (clock w)
        | Some t => Some t
        end
      /\ published_by (fields a')
         = match published_by (row r) with
           | Some x => Some x
           | None => user
           end)
  /\ (new_status <> STATUS_PUBLISHED ->
      published_at (fields a') = published_at (row r)
      /\ published_by (fields a') = published_by (row r)).
Proof.
  rewrite ArticleAdmin_save_model_unfold.
  destruct (admin_instance_facts user (negb (Py.eqb new_status (status (row r))))
              true (edited r new_status))
    as (Hk2 & Hs2 & Hp2 & _ & Ho2 & _ & Hb2).
  set (a2 := admin_instance user (negb (Py.eqb new_status (status (row r)))) true
               (edited r new_status)) in *.
  cbn [edited pk fields status published_at published_by _original_status
       set_fields from_db Article_init set_status] in Hk2, Hs2, Hp2, Ho2, Hb2.
  intros Hsave.
  pose proof (Article_save_users false a2 w) as [_ Hu].
  pose proof (Article_save_publication_time false a2 w) as [Ht Hst].
  rewrite Hsave in Hu, Ht, Hst. cbn [fst snd] in Hu, Ht, Hst.
  destruct (Article_save_update_inv a2 w (id r) _ _ _ Hk2 Hsave)
    as (_ & _ & _ & Hok).
  destruct (Hok eq_refl) as (Hpk & _).
  destruct (Article_save_stores _ _ _ _ _ Hsave) as [key [Hpk' Hin]].
  rewrite Hpk in Hpk'. injection Hpk' as <-.
  assert (Hstatus : status (fields a') = new_status) by congruence.
  assert (Htime : published_at (fields a')
                  = (if Py.eqb new_status STATUS_PUBLISHED
                        && negb (Py.eqb (status (row r)) STATUS_PUBLISHED)
                     then match published_at (row r) with
                          | None => Some (clock w)
                          | Some t => Some t
                          end
                     else published_at (row r))).
  { rewrite Ht. unfold published. rewrite Hs2, Ho2, Hp2.
    destruct (Py.eqb new_status STATUS_PUBLISHED
              && negb (Py.eqb (status (row r)) STATUS_PUBLISHED));
      destruct (published_at (row r)) eqn:Hpa; cbn [andb];
      cbn [fields set_fields published_at set_published_at]; congruence. }
  split; [exact Hpk|]. split; [exact Hstatus|]. split; [exact Hin|].
  split.
  { unfold Views.ArticleListView_get_queryset. rewrite filter_In.
    unfold Views.is_published. cbn [row]. rewrite Hstatus, str_eqb_eq. tauto. }
  split.
  - intros -> Hold. rewrite Htime, Hu, Hb2.
    assert (E : Py.eqb (status (row r)) STATUS_PUBLISHED = false)
      by (apply str_eqb_neq; exact Hold).
    assert (E' : Py.eqb STATUS_PUBLISHED (status (row r)) = false)
      by (apply str_eqb_neq; congruence).
    rewrite E, E', str_eqb_refl. cbn [negb andb]. split; reflexivity.
  - intros Hnot. rewrite Htime, Hu, Hb2.
    assert (E : Py.eqb new_status STATUS_PUBLISHED = false)
      by (apply str_eqb_neq; exact Hnot).
    rewrite E, andb_false_r. cbn [andb]. split; reflexivity.
Qed.

End AdminSave.

(* ===================================================================== *)
(** ** The properties at work on sample stores *)
(* ===================================================================== *)

Section StoreExamples.
Import Py Lib Models BaseParser ParserManager Props Views.

Lemma well_formed_published_db : well_formed Sample.published_db.
Proof.
  split.
  { apply consistent_sample; [|reflexivity].
    split; vm_compute; repeat constructor; cbn; intuition discriminate. }
  split; [vm_compute; repeat constructor; cbn; intuition discriminate|].
  split; [vm_compute; repeat constructor; cbn; intuition discriminate|].
  split.
  { intros k. destruct k; vm_compute; repeat constructor; cbn; intuition discriminate. }
  intros k l Hin. destruct k; cbn in Hin.
  - destruct Hin as [<- | []]. split; left; reflexivity.
  - contradiction.
Qed.

(** A record is committed into a store that holds a published article:
    the store stays well formed. *)
Lemma save_to_db_keeps_schema_witness :
  well_formed Sample.published_db
  /\ well_formed
       (db (snd (@save_to_db Sample.runtime (Sample.record ["Gen Z"%string])
                   (Sample.world Sample.published_db [] Sample.offline)))).
Proof.
  split; [exact well_formed_published_db|].
  apply (@save_to_db_keeps_schema Sample.runtime (Sample.record ["Gen Z"%string])
           (Sample.world Sample.published_db [] Sample.offline)).
  exact well_formed_published_db.
Defined.

(** The same commit: the new article is the draft of the record, under
    the key 2, linked to the category that was there and to the new
    tag. *)
Lemma save_to_db_stores_draft_witness :
  consistent Sample.published_db
  /\ exists a w1,
       @save_to_db Sample.runtime (Sample.record ["Gen Z"%string])
         (Sample.world Sample.published_db [] Sample.offline)
       = (Ok (Some a), w1)
       /\ pk a = Some 2%N
       /\ status (fields a) = STATUS_DRAFT
       /\ articles (db w1)
          = articles Sample.published_db ++ [{| id := 2; row := fields a |}]
       /\ In {| id := 2; row := fields a |} (ArticleDetailView_get_queryset (db w1))
       /\ ~ In {| id := 2; row := fields a |} (ArticleListView_get_queryset (db w1)).
Proof.
  assert (Hcons : consistent Sample.published_db) by apply well_formed_published_db.
  split; [exact Hcons|].
  destruct (@save_to_db Sample.runtime (Sample.record ["Gen Z"%string])
              (Sample.world Sample.published_db [] Sample.offline))
    as [r w1] eqn:Hrun.
  assert (Hr : exists a, r = Ok (Some a)).
  { apply (f_equal fst) in Hrun. cbn [fst] in Hrun. subst r. eexists.
    vm_compute. reflexivity. }
  destruct Hr as [a ->]. exists a, w1. split; [reflexivity|].
  assert (Hnew : forall r0,
             In r0 (articles (db (Sample.world Sample.published_db [] Sample.offline))) ->
             Models.original_url (row r0) <> Some Sample.cnbc_url).
  { intros r0 [<- | []]. vm_compute. discriminate. }
  destruct (@save_to_db_stores_draft Sample.runtime (Sample.record ["Gen Z"%string])
              (Sample.world Sample.published_db [] Sample.offline) w1 a
              Sample.cnbc_url Hcons eq_refl Hnew Hrun)
    as (Hpk & _ & (t0 & s0 & _ & _ & _ & _ & _ & _ & _ & _ & _ & Hst & _)
        & Hrows & _ & _ & _ & _ & Hd & Hl).
  split; [exact Hpk|]. split; [exact Hst|].
  split; [exact Hrows|]. split; [exact Hd | exact Hl].
Defined.

(** The same commit: the public list and the list of the category show
    the published article and nothing else, as before. *)
Lemma save_to_db_keeps_listings_witness :
  consistent Sample.published_db
  /\ ArticleListView_get_queryset
       (db (snd (@save_to_db Sample.runtime (Sample.record ["Gen Z"%string])
                   (Sample.world Sample.published_db [] Sample.offline))))
     = [{| id := 1; row := Sample.published_fields |}]
  /\ forall q w0,
       CategoryArticlesView_get_queryset (u "health-research")
         (Sample.world Sample.published_db [] Sample.offline) = (Ok q, w0) ->
       q (db (snd (@save_to_db Sample.runtime (Sample.record ["Gen Z"%string])
                     (Sample.world Sample.published_db [] Sample.offline))))
       = q Sample.published_db.
Proof.
  assert (Hcons : consistent Sample.published_db) by apply well_formed_published_db.
  split; [exact Hcons|].
  destruct (@save_to_db_keeps_listings Sample.runtime (Sample.record ["Gen Z"%string])
              (Sample.world Sample.published_db [] Sample.offline) Hcons)
    as (Hlist & _ & Hcat & _).
  split.
  - rewrite Hlist. vm_compute. reflexivity.
  - intros q w0 Hq. apply (Hcat _ _ _ Hq).
Defined.

(** A record with a title, a summary and a URL is committed into that
    store by a backend that does not fail. *)
Lemma save_to_db_succeeds_witness :
  consistent Sample.published_db
  /\ faults (Sample.world Sample.published_db [] Sample.offline) = []
  /\ exists a w',
       @save_to_db Sample.runtime (Sample.record ["Gen Z"%string])
         (Sample.world Sample.published_db [] Sample.offline)
       = (Ok (Some a), w')
       /\ Models.original_url (fields a) = Some Sample.cnbc_url.
Proof.
  assert (Hcons : consistent Sample.published_db) by apply well_formed_published_db.
  split; [exact Hcons|]. split; [reflexivity|].
  destruct (@save_to_db_succeeds Sample.runtime (Sample.record ["Gen Z"%string])
              (Sample.world Sample.published_db [] Sample.offline)
              (u "Loneliness at work") (u "A study.") Sample.cnbc_url
              Hcons eq_refl eq_refl eq_refl eq_refl)
    as (a & w' & Hrun & _ & Hurl & _).
  - intros nm [<- | []]. left. eexists. split; [left; reflexivity|].
    vm_compute. reflexivity.
  - intros nm [<- | []]. right. intros t [].
  - exists a, w'. split; assumption.
Defined.

(** A CNBC page is parsed twice: the second run returns the article of
    the first and writes no row. *)
Lemma parse_url_again_witness :
  consistent Sample.empty_db
  /\ exists a w1,
       @parse_url Sample.runtime (@init Sample.runtime) Sample.cnbc_url
         (Sample.world Sample.empty_db [] Sample.one_page_missing)
       = (Ok (Some a), w1)
       /\ articles (db (snd (@parse_url Sample.runtime (@init Sample.runtime)
                               Sample.cnbc_url w1)))
          = articles (db w1)
       /\ fst (@parse_url Sample.runtime (@init Sample.runtime) Sample.cnbc_url w1)
          = Ok (Some a).
Proof.
  assert (Hcons : consistent Sample.empty_db).
  { apply consistent_sample; [|reflexivity]. split; constructor. }
  split; [exact Hcons|].
  destruct (@parse_url Sample.runtime (@init Sample.runtime) Sample.cnbc_url
              (Sample.world Sample.empty_db [] Sample.one_page_missing))
    as [r w1] eqn:Hrun.
  assert (Hr : exists a, r = Ok (Some a)
                         /\ faults w1 = []
                         /\ clock w1 = Sample.noon
                         /\ web w1 (requests w1) Sample.cnbc_url
                            = Sample.one_page_missing Sample.cnbc_url).
  { apply (f_equal fst) in Hrun as Hf1. apply (f_equal snd) in Hrun as Hf2.
    cbn [fst snd] in Hf1, Hf2. subst r w1. eexists.
    split; [vm_compute; reflexivity|]. split; [vm_compute; reflexivity|].
    split; vm_compute; reflexivity. }
  destruct Hr as [a [-> [Hf [Hc Hw]]]]. exists a, w1. split; [reflexivity|].
  destruct (@parse_url_again Sample.runtime Sample.cnbc_url
              (Sample.world Sample.empty_db [] Sample.one_page_missing) w1 a
              Hcons Hrun w1 eq_refl)
    as (Hrows & _ & _ & _ & Hsame).
  split; [exact Hrows|].
  apply Hsame; [exact Hf | exact Hc | exact Hw].
Defined.

(** A CNBC page is fetched and committed into an empty store. *)
Lemma parse_url_commits_witness :
  consistent Sample.empty_db
  /\ exists a w',
       @parse_url Sample.runtime (@init Sample.runtime) Sample.cnbc_url
         (Sample.world Sample.empty_db [] Sample.one_page_missing)
       = (Ok (Some a), w')
       /\ Models.original_url (fields a) = Some Sample.cnbc_url
       /\ requests w' = 1.
Proof.
  assert (Hcons : consistent Sample.empty_db).
  { apply consistent_sample; [|reflexivity]. split; constructor. }
  split; [exact Hcons|].
  destruct (@parse_url_commits Sample.runtime Sample.cnbc_url
              (Sample.world Sample.empty_db [] Sample.one_page_missing) Cnbc
              (Sample.page [Sample.el "h1" [] [Sample.txt "Loneliness at work"];
                            Sample.el "p" [] [Sample.txt "Loneliness is rising."]])
              Hcons eq_refl)
    as (a & w' & Hrun & _ & Hurl & Hreq & _).
  - vm_compute. reflexivity.
  - vm_compute. reflexivity.
  - intros nm _. right. intros t [].
  - intros nm _. right. intros t [].
  - exists a, w'. split; [exact Hrun|]. split; [exact Hurl | exact Hreq].
Defined.

(** In a store where an editor gave the tag "Gen Z" a slug of their
    own, the tag of a record cannot be resolved. *)
Lemma resolve_terms_name_taken_witness :
  consistent Sample.custom_slug_db
  /\ faults (Sample.world Sample.custom_slug_db [] Sample.offline) = []
  /\ exists w',
       @resolve_terms Sample.runtime Tag (Some [u "Gen Z"])
         (Sample.world Sample.custom_slug_db [] Sample.offline)
       = (Exc IntegrityError, w')
       /\ articles (db w') = [].
Proof.
  assert (Hcons : consistent Sample.custom_slug_db).
  { apply consistent_sample; [|reflexivity].
    split; vm_compute; repeat constructor; cbn; intuition discriminate. }
  split; [exact Hcons|]. split; [reflexivity|].
  destruct (@resolve_terms_name_taken Sample.runtime Tag [] (u "Gen Z") []
              (Sample.world Sample.custom_slug_db [] Sample.offline)
              {| term_id := 1; name := u "Gen Z"; slug := u "generation-z" |}
              Hcons eq_refl)
    as (w' & Hrun & Hrows & _).
  - intros nm' [].
  - intros x [<- | []]. vm_compute. discriminate.
  - left. reflexivity.
  - reflexivity.
  - exists w'. split; [exact Hrun | exact Hrows].
Defined.

(** An editor with the key 7 publishes the draft of a store: it
    appears on the public list, published by that editor at the time of
    the save. *)
Lemma admin_publication_is_listed_witness :
  let r := {| id := 1; row := Sample.draft_fields |} in
  let w := Sample.world Sample.draft_db [] Sample.offline in
  exists a' w',
    Admin.ArticleAdmin_save_model (Some 7%N)
      (negb (Py.eqb STATUS_PUBLISHED (status (row r)))) true
      (edited r STATUS_PUBLISHED, w)
    = (Ok tt, (a', w'))
    /\ In {| id := 1; row := fields a' |} (ArticleListView_get_queryset (db w'))
    /\ published_at (fields a') = Some (clock w)
    /\ published_by (fields a') = Some 7%N.
Proof.
  cbv zeta.
  set (r := {| id := 1%N; row := Sample.draft_fields |}).
  set (w := Sample.world Sample.draft_db [] Sample.offline).
  set (out := Admin.ArticleAdmin_save_model (Some 7%N)
                (negb (Py.eqb STATUS_PUBLISHED (status (row r)))) true
                (edited r STATUS_PUBLISHED, w)).
  assert (Hrun : out = (Ok tt, (fst (snd out), snd (snd out))))
    by (vm_compute; reflexivity).
  destruct (admin_publication_is_listed (Some 7%N) r STATUS_PUBLISHED w
              (fst (snd out)) (snd (snd out)) Hrun)
    as (_ & _ & _ & Hlist & Hpub & _).
  exists (fst (snd out)), (snd (snd out)).
  split; [exact Hrun|].
  split; [apply Hlist; reflexivity|].
  apply Hpub; [reflexivity | vm_compute; discriminate].
Defined.

End StoreExamples.
